(** * llama.cpp Server GUI: the process supervisor, verified

    A shallow embedding of [llama_server_gui.py]: the handlers of
    [LlamaServerGUI] that start, watch and stop the server process, the
    [ServerOutputReader] thread, and [load_config].

    Conventions of the embedding.
    - A Python [str] is a [string]; a character stands for the code point of
      the same number, so the strings covered are those of code points below
      256.
    - A Python [int] is a [Z].
    - A handler of the window runs on the GUI thread from start to end; it is
      a function from the window's fields to the new fields and the list of
      effects it had on the outside (dialogs, log lines, signals to the child,
      calls on the reader thread), in program order.
    - What a handler learns from the operating system (does a path exist, what
      does [poll()] answer, does [Popen] succeed) comes from a [World]. *)

From Stdlib Require Import ZArith String Ascii List Bool Lia Permutation.
From Stdlib Require Import Numbers.DecimalString Numbers.DecimalZ.
Import ListNotations.

Open Scope string_scope.
Open Scope list_scope.

(** ** Python strings *)

Module Py.

(** The line feed, written [\n] in the source. *)
Definition nl : string := String (ascii_of_nat 10) "".

(** [ch.isspace()] on the code points below 256: the controls 9-13 and
    28-31, the space, NEL (133) and the no-break space (160). *)
Definition isspace (c : ascii) : bool :=
  let n := nat_of_ascii c in
  (((9 <=? n) && (n <=? 13)) || ((28 <=? n) && (n <=? 32))
   || (n =? 133) || (n =? 160))%nat.

Definition is_empty (s : string) : bool :=
  match s with "" => true | String _ _ => false end.

(** [s.lstrip()] *)
Fixpoint lstrip (s : string) : string :=
  match s with
  | "" => ""
  | String c r => if isspace c then lstrip r else s
  end.

(** [s.rstrip()] *)
Fixpoint rstrip (s : string) : string :=
  match s with
  | "" => ""
  | String c r =>
      let r' := rstrip r in
      if isspace c && is_empty r' then "" else String c r'
  end.

(** [s.strip()] *)
Definition strip (s : string) : string := rstrip (lstrip s).

(** [s.split()] with no separator: the maximal runs of characters that are
    not whitespace, left to right.  [tok] is the run being read. *)
Fixpoint split_from (tok s : string) : list string :=
  match s with
  | "" => if is_empty tok then [] else [tok]
  | String c r =>
      if isspace c
      then (if is_empty tok then split_from "" r else tok :: split_from "" r)
      else split_from (tok ++ String c "") r
  end.

Definition split (s : string) : list string := split_from "" s.

(** [str(n)] for an [int]. *)
Definition str (n : Z) : string := NilZero.string_of_int (Z.to_int n).

(** [sep.join(l)] *)
Definition join (sep : string) (l : list string) : string :=
  String.concat sep l.

(** The characters of [s] that are not whitespace, in order. *)
Fixpoint no_space (s : string) : string :=
  match s with
  | "" => ""
  | String c r => if isspace c then no_space r else String c (no_space r)
  end.

(** No character of [s] is whitespace. *)
Fixpoint solid (s : string) : bool :=
  match s with
  | "" => true
  | String c r => negb (isspace c) && solid r
  end.

Fixpoint flatten (l : list string) : string :=
  match l with
  | [] => ""
  | t :: r => t ++ flatten r
  end.

End Py.

(** ** The form of the window: what the operator has typed *)

Record Form := {
  binary_path_edit : string;
  model_path_edit : string;
  host_edit : string;
  port_spin : Z;
  context_spin : Z;
  ngl_spin : Z;
  threads_spin : Z;
  batch_spin : Z;
  additional_args_edit : string
}.

(** The command of [start_server] (the list [cmd], with the additional
    arguments appended). *)
Definition build_cmd (f : Form) : list string :=
  let binary_path := Py.strip (binary_path_edit f) in
  let model_path := Py.strip (model_path_edit f) in
  let cmd :=
    [ binary_path;
      "-m"; model_path;
      "--host"; host_edit f;
      "--port"; Py.str (port_spin f);
      "-c"; Py.str (context_spin f);
      "-ngl"; Py.str (ngl_spin f);
      "-t"; Py.str (threads_spin f);
      "-b"; Py.str (batch_spin f) ] in
  let additional_args := Py.strip (additional_args_edit f) in
  if Py.is_empty additional_args then cmd
  else cmd ++ Py.split additional_args.

(** ** The outside world *)

(** The handle of a spawned child, [subprocess.Popen]: its process id. *)
Definition Popen := nat.

Record World := {
  (** [os.path.exists(path)] *)
  path_exists : string -> bool;
  (** [subprocess.Popen(cmd, ...)]: the handle, or the text [str(e)] of the
      exception it raises. *)
  spawn : list string -> Popen + string;
  (** [process.poll()]: [None] while the child runs, else its return code. *)
  poll : Popen -> option Z
}.

Inductive Icon := Information | Critical.

(** What a handler does to the outside, in program order. *)
Inductive Effect :=
| MsgWarning (title text : string)            (* QMessageBox.warning *)
| MsgCritical (title text : string)           (* QMessageBox.critical *)
| LogAppend (text : string)                   (* self.log_text.append *)
| ShowMessage (title text : string) (icon : Icon) (ms : Z)
                                              (* self.tray_icon.showMessage *)
| Spawned (cmd : list string) (p : Popen)     (* Popen returned p *)
| Terminate (p : Popen)                       (* process.terminate() *)
| Kill (p : Popen)                            (* process.kill() *)
| ReaderStart                                 (* output_reader.start() *)
| ReaderStop                                  (* output_reader.stop() *)
| ReaderWait (ms : Z)                         (* output_reader.wait(ms) *)
| AppQuit                                     (* QApplication.quit() *)
| EventAccept                                 (* event.accept() *)
| EventIgnore                                 (* event.ignore() *)
| Hide                                        (* self.hide() *)
| MsgQuestion (title text : string)           (* QMessageBox.question *)
| Unhandled (exc : string).                   (* an exception leaves the slot *)

(** ** The window *)

(** The fields of [LlamaServerGUI] that the supervision reads or writes.  A
    [QTimer] is its [isActive()]; the reader thread is its [running] flag;
    [None] is Python's [None] (or an attribute not yet set).  [single_shots]
    holds the messages of the calls
    [QTimer.singleShot(500, lambda: self.cleanup_after_stop(msg))] that have
    not fired yet, oldest first. *)
Record LlamaServerGUI := {
  form : Form;
  server_process : option Popen;
  output_reader : option bool;
  health_check_timer : option bool;
  health_check_attempts : nat;
  stop_timer : option bool;
  stop_attempts : nat;
  single_shots : list string;
  start_btn : bool;
  stop_btn : bool
}.

Definition set_server_process (v : option Popen) (g : LlamaServerGUI) :=
  {| form := form g; server_process := v; output_reader := output_reader g;
     health_check_timer := health_check_timer g;
     health_check_attempts := health_check_attempts g;
     stop_timer := stop_timer g; stop_attempts := stop_attempts g;
     single_shots := single_shots g;
     start_btn := start_btn g; stop_btn := stop_btn g |}.

Definition set_output_reader (v : option bool) (g : LlamaServerGUI) :=
  {| form := form g; server_process := server_process g; output_reader := v;
     health_check_timer := health_check_timer g;
     health_check_attempts := health_check_attempts g;
     stop_timer := stop_timer g; stop_attempts := stop_attempts g;
     single_shots := single_shots g;
     start_btn := start_btn g; stop_btn := stop_btn g |}.

Definition set_health_check_timer (v : option bool) (g : LlamaServerGUI) :=
  {| form := form g; server_process := server_process g;
     output_reader := output_reader g;
     health_check_timer := v;
     health_check_attempts := health_check_attempts g;
     stop_timer := stop_timer g; stop_attempts := stop_attempts g;
     single_shots := single_shots g;
     start_btn := start_btn g; stop_btn := stop_btn g |}.

Definition set_health_check_attempts (v : nat) (g : LlamaServerGUI) :=
  {| form := form g; server_process := server_process g;
     output_reader := output_reader g;
     health_check_timer := health_check_timer g;
     health_check_attempts := v;
     stop_timer := stop_timer g; stop_attempts := stop_attempts g;
     single_shots := single_shots g;
     start_btn := start_btn g; stop_btn := stop_btn g |}.

Definition set_stop_timer (v : option bool) (g : LlamaServerGUI) :=
  {| form := form g; server_process := server_process g;
     output_reader := output_reader g;
     health_check_timer := health_check_timer g;
     health_check_attempts := health_check_attempts g;
     stop_timer := v; stop_attempts := stop_attempts g;
     single_shots := single_shots g;
     start_btn := start_btn g; stop_btn := stop_btn g |}.

Definition set_stop_attempts (v : nat) (g : LlamaServerGUI) :=
  {| form := form g; server_process := server_process g;
     output_reader := output_reader g;
     health_check_timer := health_check_timer g;
     health_check_attempts := health_check_attempts g;
     stop_timer := stop_timer g; stop_attempts := v;
     single_shots := single_shots g;
     start_btn := start_btn g; stop_btn := stop_btn g |}.

Definition set_single_shots (v : list string) (g : LlamaServerGUI) :=
  {| form := form g; server_process := server_process g;
     output_reader := output_reader g;
     health_check_timer := health_check_timer g;
     health_check_attempts := health_check_attempts g;
     stop_timer := stop_timer g; stop_attempts := stop_attempts g;
     single_shots := v;
     start_btn := start_btn g; stop_btn := stop_btn g |}.

Definition set_start_btn (v : bool) (g : LlamaServerGUI) :=
  {| form := form g; server_process := server_process g;
     output_reader := output_reader g;
     health_check_timer := health_check_timer g;
     health_check_attempts := health_check_attempts g;
     stop_timer := stop_timer g; stop_attempts := stop_attempts g;
     single_shots := single_shots g;
     start_btn := v; stop_btn := stop_btn g |}.

Definition set_stop_btn (v : bool) (g : LlamaServerGUI) :=
  {| form := form g; server_process := server_process g;
     output_reader := output_reader g;
     health_check_timer := health_check_timer g;
     health_check_attempts := health_check_attempts g;
     stop_timer := stop_timer g; stop_attempts := stop_attempts g;
     single_shots := single_shots g;
     start_btn := start_btn g; stop_btn := v |}.

(** A handler: the fields after it, and its effects. *)
Definition Handler := LlamaServerGUI -> LlamaServerGUI * list Effect.

Definition pass : Handler := fun g => (g, []).

Definition emit (e : Effect) : Handler := fun g => (g, [e]).

Definition modify (f : LlamaServerGUI -> LlamaServerGUI) : Handler :=
  fun g => (f g, []).

Definition andthen (h1 h2 : Handler) : Handler :=
  fun g => let (g1, e1) := h1 g in
           let (g2, e2) := h2 g1 in (g2, e1 ++ e2).

Notation "h1 ;; h2" := (andthen h1 h2) (at level 61, right associativity).

(** [timer.stop()] *)
Definition stopped (t : option bool) : option bool :=
  match t with Some _ => Some false | None => None end.

(** The condition [self.server_process is not None and
    self.server_process.poll() is None]. *)
Definition is_running (w : World) (g : LlamaServerGUI) : bool :=
  match server_process g with
  | Some p => match poll w p with None => true | Some _ => false end
  | None => false
  end.

Definition update_button_states (w : World) : Handler :=
  fun g =>
    let is_running := is_running w g in
    (modify (set_start_btn (negb is_running)) ;;
     modify (set_stop_btn is_running)) g.

(** *** Starting *)

Definition start_server (w : World) : Handler :=
  fun g =>
    let binary_path := Py.strip (binary_path_edit (form g)) in
    let model_path := Py.strip (model_path_edit (form g)) in
    if Py.is_empty binary_path then
      emit (MsgWarning "Error" "Please select a server binary") g
    else if negb (path_exists w binary_path) then
      emit (MsgWarning "Error" ("Server binary not found: " ++ binary_path)) g
    else if Py.is_empty model_path then
      emit (MsgWarning "Error" "Please select a model file") g
    else if negb (path_exists w model_path) then
      emit (MsgWarning "Error" ("Model file not found: " ++ model_path)) g
    else if is_running w g then
      emit (MsgWarning "Error" "Server is already running") g
    else
      let cmd := build_cmd (form g) in
      (emit (LogAppend ("Starting server with command:" ++ Py.nl
                        ++ Py.join " " cmd ++ Py.nl)) ;;
       match spawn w cmd with
       | inl p =>
           emit (Spawned cmd p) ;;
           modify (set_server_process (Some p)) ;;
           modify (set_output_reader (Some true)) ;;
           emit ReaderStart ;;
           emit (LogAppend ("Server process launched, checking health..."
                            ++ Py.nl)) ;;
           update_button_states w ;;
           modify (set_health_check_timer (Some false)) ;;
           modify (set_health_check_attempts 0) ;;
           modify (set_health_check_timer (Some true))
       | inr e =>
           emit (MsgCritical "Error"
                   ("Failed to start server:" ++ Py.nl ++ e)) ;;
           emit (LogAppend ("Error starting server: " ++ e ++ Py.nl)) ;;
           modify (set_server_process None) ;;
           update_button_states w
       end) g.

(** *** Stopping *)

Definition stop_server (w : World) : Handler :=
  fun g =>
    match server_process g with
    | Some p =>
        match poll w p with
        | None =>
            (emit (LogAppend ("Stopping server..." ++ Py.nl)) ;;
             modify (fun g => set_health_check_timer
                                (stopped (health_check_timer g)) g) ;;
             modify (set_stop_btn false) ;;
             (fun g => match output_reader g with
                       | Some _ => (modify (set_output_reader (Some false)) ;;
                                    emit ReaderStop) g
                       | None => pass g
                       end) ;;
             emit (Terminate p) ;;
             modify (set_stop_timer (Some false)) ;;
             modify (set_stop_attempts 0) ;;
             modify (set_stop_timer (Some true))) g
        | Some _ =>
            (emit (MsgWarning "Error" "Server is not running") ;;
             update_button_states w) g
        end
    | None =>
        (emit (MsgWarning "Error" "Server is not running") ;;
         update_button_states w) g
    end.

Definition stopped_msg : string := "Server stopped successfully!" ++ Py.nl.

Definition killed_msg : string := "Server killed (forced)" ++ Py.nl.

Definition cleanup_after_stop (w : World) (message : string) : Handler :=
  emit (LogAppend message) ;;
  (fun g => match output_reader g with
            | Some _ => (emit (ReaderWait 1000) ;;
                         modify (set_output_reader None)) g
            | None => pass g
            end) ;;
  modify (set_server_process None) ;;
  update_button_states w ;;
  emit (ShowMessage "llama.cpp Server" "Server stopped" Information 2000).

(** The slot of [stop_timer].  It reads [self.server_process.poll()] with no
    test for [None]: with no handle the attribute access raises. *)
Definition check_server_stopped (w : World) : Handler :=
  fun g =>
    match server_process g with
    | None => emit (Unhandled "AttributeError") g
    | Some p =>
        match poll w p with
        | Some _ =>
            (modify (fun g => set_stop_timer (stopped (stop_timer g)) g) ;;
             cleanup_after_stop w stopped_msg) g
        | None =>
            (modify (fun g => set_stop_attempts (stop_attempts g + 1) g) ;;
             (fun g =>
                if (25 <=? stop_attempts g)%nat then
                  (emit (LogAppend ("Server not responding, forcing kill..."
                                    ++ Py.nl)) ;;
                   emit (Kill p) ;;
                   modify (fun g => set_stop_timer (stopped (stop_timer g)) g) ;;
                   modify (fun g => set_single_shots
                                      (single_shots g ++ [killed_msg]) g)) g
                else pass g)) g
        end
    end.

(** A pending [QTimer.singleShot] fires: the oldest one first. *)
Definition fire_single_shot (w : World) : Handler :=
  fun g =>
    match single_shots g with
    | [] => pass g
    | message :: rest =>
        (modify (set_single_shots rest) ;; cleanup_after_stop w message) g
    end.

(** *** Watching the start *)

Definition crash_log (exit_code : Z) : string :=
  Py.nl ++ "[ERROR] Server process terminated unexpectedly with exit code "
  ++ Py.str exit_code ++ Py.nl.

Definition crash_dialog (exit_code : Z) : string :=
  "The llama-server process crashed with exit code " ++ Py.str exit_code
  ++ "." ++ Py.nl ++ Py.nl
  ++ "This usually means:" ++ Py.nl
  ++ "- Invalid model file or format" ++ Py.nl
  ++ "- Insufficient memory (GPU or RAM)" ++ Py.nl
  ++ "- Wrong parameters (e.g., too many GPU layers)" ++ Py.nl
  ++ "- Binary/model compatibility issue" ++ Py.nl ++ Py.nl
  ++ "Check the logs below for details.".

Definition healthy_msg : string := "Server is running and healthy" ++ Py.nl.

(** The slot of [health_check_timer]. *)
Definition check_server_health (w : World) : Handler :=
  fun g =>
    match server_process g with
    | None =>
        modify (fun g => set_health_check_timer
                           (stopped (health_check_timer g)) g) g
    | Some p =>
        let poll_result := poll w p in
        match poll_result with
        | Some exit_code =>
            (modify (fun g => set_health_check_timer
                                (stopped (health_check_timer g)) g) ;;
             emit (LogAppend (crash_log exit_code)) ;;
             (fun g => match output_reader g with
                       | Some _ => (emit ReaderStop ;;
                                    emit (ReaderWait 1000) ;;
                                    modify (set_output_reader None)) g
                       | None => pass g
                       end) ;;
             modify (set_server_process None) ;;
             update_button_states w ;;
             emit (MsgCritical "Server Failed" (crash_dialog exit_code)) ;;
             emit (ShowMessage "llama.cpp Server" "Server crashed - check logs"
                     Critical 3000)) g
        | None =>
            (modify (fun g => set_health_check_attempts
                                (health_check_attempts g + 1) g) ;;
             (fun g =>
                if (6 <=? health_check_attempts g)%nat then
                  (modify (fun g => set_health_check_timer
                                      (stopped (health_check_timer g)) g) ;;
                   emit (LogAppend healthy_msg) ;;
                   emit (ShowMessage "llama.cpp Server"
                           "Server started successfully" Information 2000)) g
                else pass g)) g
        end
    end.

(** *** Leaving *)

Inductive StandardButton := Yes | No | Cancel.

Definition close_question : string :=
  "The server is still running. Do you want to:" ++ Py.nl ++ Py.nl
  ++ "Yes - Minimize to tray" ++ Py.nl
  ++ "No - Stop server and quit" ++ Py.nl
  ++ "Cancel - Do nothing".

(** [closeEvent]; [reply] is the button the operator presses if asked. *)
Definition closeEvent (w : World) (reply : StandardButton) : Handler :=
  fun g =>
    match server_process g with
    | Some p =>
        match poll w p with
        | None =>
            (emit (MsgQuestion "Server Running" close_question) ;;
             match reply with
             | Yes => emit EventIgnore ;; emit Hide
             | No =>
                 (fun g => match output_reader g with
                           | Some _ => (modify (set_output_reader (Some false)) ;;
                                        emit ReaderStop) g
                           | None => pass g
                           end) ;;
                 emit (Kill p) ;;
                 (fun g => match output_reader g with
                           | Some _ => emit (ReaderWait 1000) g
                           | None => pass g
                           end) ;;
                 emit EventAccept
             | Cancel => emit EventIgnore
             end) g
        | Some _ => emit EventAccept g
        end
    | None => emit EventAccept g
    end.

Definition quit_application (w : World) : Handler :=
  (fun g =>
     match server_process g with
     | Some p =>
         match poll w p with
         | None =>
             ((fun g => match output_reader g with
                        | Some _ => (modify (set_output_reader (Some false)) ;;
                                     emit ReaderStop) g
                        | None => pass g
                        end) ;;
              emit (Kill p) ;;
              (fun g => match output_reader g with
                        | Some _ => emit (ReaderWait 1000) g
                        | None => pass g
                        end)) g
         | Some _ => pass g
         end
     | None => pass g
     end) ;;
  emit AppQuit.

(** ** Timers and verdicts *)

(** Is the [QTimer] running, so that its next timeout calls the slot? *)
Definition active (t : option bool) : bool :=
  match t with Some b => b | None => false end.

(** [n] successive timeout intervals of a timer: at interval [k] the world is
    [ws k], and the slot runs if the timer is then active. *)
Fixpoint QTimer_run (timer : LlamaServerGUI -> option bool)
    (slot : World -> Handler) (ws : nat -> World) (k n : nat) : Handler :=
  match n with
  | 0 => pass
  | S n' =>
      (fun g => if active (timer g) then slot (ws k) g else pass g) ;;
      QTimer_run timer slot ws (S k) n'
  end.

(** All pending single shots fire, in the world [w]. *)
Fixpoint fire_single_shots (w : World) (n : nat) : Handler :=
  match n with
  | 0 => pass
  | S n' => fire_single_shot w ;; fire_single_shots w n'
  end.

(** A press of Stop in the world [w0], then [n] intervals of the stop timer in
    the worlds [ws 0], [ws 1], ..., then the delayed calls in the world [wz]. *)
Definition stop_sequence (w0 : World) (ws : nat -> World) (wz : World)
    (n : nat) : Handler :=
  stop_server w0 ;;
  QTimer_run stop_timer check_server_stopped ws 0 n ;;
  (fun g => fire_single_shots wz (List.length (single_shots g)) g).

(** The run of the health monitor: [n] intervals of its timer. *)
Definition health_run (ws : nat -> World) (n : nat) : Handler :=
  QTimer_run health_check_timer check_server_health ws 0 n.

Inductive Verdict :=
| StoppedGracefully
| StoppedForcibly
| CrashedWithCode (code : Z)
| Stable.

(** [s] without the prefix [p], when it has it. *)
Fixpoint after_prefix (p s : string) : option string :=
  match p, s with
  | "", _ => Some s
  | String a p', String b s' =>
      if Ascii.eqb a b then after_prefix p' s' else None
  | String _ _, "" => None
  end.

(** [s] without its last character, when that is a line feed. *)
Fixpoint before_nl (s : string) : option string :=
  match s with
  | "" => None
  | String c "" => if Ascii.eqb c (ascii_of_nat 10) then Some "" else None
  | String c r => option_map (String c) (before_nl r)
  end.

(** The verdict an effect reports: the log lines of [cleanup_after_stop] and
    of [check_server_health]. *)
Definition verdict_of (e : Effect) : option Verdict :=
  match e with
  | LogAppend text =>
      if String.eqb text stopped_msg then Some StoppedGracefully
      else if String.eqb text killed_msg then Some StoppedForcibly
      else if String.eqb text healthy_msg then Some Stable
      else
        match after_prefix
                (Py.nl ++ "[ERROR] Server process terminated unexpectedly with exit code ")
                text with
        | Some r =>
            match before_nl r with
            | Some d => option_map (fun i => CrashedWithCode (Z.of_int i))
                          (NilZero.int_of_string d)
            | None => None
            end
        | None => None
        end
  | _ => None
  end.

Fixpoint verdicts (l : list Effect) : list Verdict :=
  match l with
  | [] => []
  | e :: r => match verdict_of e with
              | Some v => v :: verdicts r
              | None => verdicts r
              end
  end.

(** The signals sent to the child. *)
Definition is_signal (e : Effect) : bool :=
  match e with Terminate _ | Kill _ => true | _ => false end.

Definition signals (l : list Effect) : list Effect := filter is_signal l.

Definition is_spawn (e : Effect) : bool :=
  match e with Spawned _ _ => true | _ => false end.

(** ** The reader thread *)

(** The thread and the child run side by side; a run is an interleaving of
    their steps and of calls of [stop()].  The model is of a POSIX system,
    where [select] takes pipes, and of a child that writes each text and its
    line feed in one piece.  Nothing in the program closes the two streams,
    so [select] itself does not raise; a read can. *)

Module ServerOutputReader.

Inductive Stream := Stdout | Stderr.

(** One of the two pipes, seen from the reader.  The lines the child has
    written and that nobody has read yet are in the operating system's pipe
    ([in_pipe]; [select] sees them) or, once a [readline] has pulled a chunk
    into Python's text buffer, in [buffered] ([select] does not see those).
    [closed]: the child has exited and its end of the pipe is closed.  A line
    is kept as the text stream hands it out: with its line end, translated to
    a line feed. *)
Record Pipe := {
  buffered : list string;
  in_pipe : list string;
  closed : bool
}.

(** The child, its two pipes and the thread.  The child writes the texts of
    [todo], each followed by a line feed, and then exits with [exit_code].
    The thread is at the head of its loop, at the [select], or has left
    [run].  [emitted] lists the texts passed to [output_received.emit], oldest
    first, each with the stream it was read from (the signal carries the text
    only). *)
Inductive Pc := AtLoopHead | AtSelect | Finished.

Record Config := {
  todo : list (Stream * string);
  exit_code : Z;
  exited : bool;
  stdout : Pipe;
  stderr : Pipe;
  running : bool;
  pc : Pc;
  emitted : list (Stream * string)
}.

(** [self.process.poll()] *)
Definition poll (c : Config) : option Z :=
  if exited c then Some (exit_code c) else None.

Definition is_lf (ch : ascii) : bool := (nat_of_ascii ch =? 10)%nat.
Definition is_cr (ch : ascii) : bool := (nat_of_ascii ch =? 13)%nat.

(** The pipes are opened with [text=True]: the text stream ends a line at a
    line feed, at a carriage return, and at a carriage return followed by a
    line feed, and hands each of the three out as a line feed.
    [universal cur text]: the lines of [text], each with its line feed, [cur]
    being the beginning of the first; a rest with no line end comes last,
    as it is. *)
Fixpoint universal (cur text : string) : list string :=
  match text with
  | "" => if Py.is_empty cur then [] else [cur]
  | String ch rest =>
      if is_lf ch then (cur ++ Py.nl)%string :: universal "" rest
      else if is_cr ch then
        match rest with
        | String ch2 rest2 =>
            if is_lf ch2 then (cur ++ Py.nl)%string :: universal "" rest2
            else (cur ++ Py.nl)%string :: universal "" rest
        | "" => [(cur ++ Py.nl)%string]
        end
      else universal (cur ++ String ch "") rest
  end.

(** The lines the reader gets for a text the child has written followed by a
    line feed. *)
Definition delivered (text : string) : list string :=
  universal "" (text ++ Py.nl).

Definition write (text : string) (p : Pipe) : Pipe :=
  {| buffered := buffered p; in_pipe := in_pipe p ++ delivered text;
     closed := closed p |}.

Definition close (p : Pipe) : Pipe :=
  {| buffered := buffered p; in_pipe := in_pipe p; closed := true |}.

(** One step of the child: its next write, or its exit. *)
Definition child_step (c : Config) : Config :=
  if exited c then c
  else
    match todo c with
    | (Stdout, text) :: rest =>
        {| todo := rest; exit_code := exit_code c; exited := false;
           stdout := write text (stdout c); stderr := stderr c;
           running := running c; pc := pc c; emitted := emitted c |}
    | (Stderr, text) :: rest =>
        {| todo := rest; exit_code := exit_code c; exited := false;
           stdout := stdout c; stderr := write text (stderr c);
           running := running c; pc := pc c; emitted := emitted c |}
    | [] =>
        {| todo := []; exit_code := exit_code c; exited := true;
           stdout := close (stdout c); stderr := close (stderr c);
           running := running c; pc := pc c; emitted := emitted c |}
    end.

(** Would [select] report the pipe readable: data in the pipe, or its end. *)
Definition readable (p : Pipe) : bool :=
  match in_pipe p with [] => closed p | _ :: _ => true end.

(** How the reads of a stream go in one move of the thread.  A read off the
    pipe takes a chunk of 8192 bytes at most: the line asked for and [more]
    of the lines behind it, or all of them ([None]).  Or the read raises
    [ValueError] or [OSError], as it does on bytes that are no text in the
    encoding of the pipe ([UnicodeDecodeError] is a [ValueError]);
    [yielded]: in [for line in stream], how many lines off the pipe come out
    before the read that raises. *)
Inductive Reading :=
| Chunk (more : option nat)
| Fails (yielded : nat).

Definition chunk (more : option nat) (rest : list string)
  : list string * list string :=
  match more with
  | None => (rest, [])
  | Some n => (firstn n rest, skipn n rest)
  end.

(** [stream.readline()]: the next line, from the text buffer if it has one,
    else from a chunk read off the pipe; the empty string at the end of the
    stream; [None] when the read raises.  (On an open pipe with nothing in it
    the call would wait; the thread calls it only on a stream that [select]
    reported.) *)
Definition readline (how : Reading) (p : Pipe) : option (string * Pipe) :=
  match buffered p with
  | line :: rest =>
      Some (line,
            {| buffered := rest; in_pipe := in_pipe p; closed := closed p |})
  | [] =>
      match how with
      | Fails _ => None
      | Chunk more =>
          match in_pipe p with
          | line :: rest =>
              Some (line,
                    {| buffered := fst (chunk more rest);
                       in_pipe := snd (chunk more rest);
                       closed := closed p |})
          | [] => Some ("", p)
          end
      end
  end.

(** [for line in stream]: the lines that come out, the pipe afterwards, and
    whether the iteration ended in an exception.  Without one, every line up
    to the end of the stream comes out. *)
Definition readlines (how : Reading) (p : Pipe)
  : list string * Pipe * bool :=
  match how with
  | Chunk _ =>
      (buffered p ++ in_pipe p,
       {| buffered := []; in_pipe := []; closed := closed p |}, false)
  | Fails yielded =>
      (buffered p ++ firstn yielded (in_pipe p),
       {| buffered := []; in_pipe := skipn yielded (in_pipe p);
          closed := closed p |}, true)
  end.

(** The texts emitted for the lines [ls] read from [s]:
    [if line: self.output_received.emit(line.strip())]. *)
Fixpoint emit_lines (s : Stream) (ls : list string) : list (Stream * string) :=
  match ls with
  | [] => []
  | line :: rest =>
      if Py.is_empty line then emit_lines s rest
      else (s, Py.strip line) :: emit_lines s rest
  end.

(** [read_remaining_output]: an exception in the first loop skips the second
    ([except (ValueError, OSError): pass]). *)
Definition read_remaining_output (out err : Reading) (c : Config) : Config :=
  match readlines out (stdout c) with
  | (outs, stdout', true) =>
      {| todo := todo c; exit_code := exit_code c; exited := exited c;
         stdout := stdout'; stderr := stderr c;
         running := running c; pc := pc c;
         emitted := emitted c ++ emit_lines Stdout outs |}
  | (outs, stdout', false) =>
      match readlines err (stderr c) with
      | (errs, stderr', _) =>
          {| todo := todo c; exit_code := exit_code c; exited := exited c;
             stdout := stdout'; stderr := stderr';
             running := running c; pc := pc c;
             emitted := emitted c ++ emit_lines Stdout outs
                        ++ emit_lines Stderr errs |}
      end
  end.

Definition at_pc (l : Pc) (c : Config) : Config :=
  {| todo := todo c; exit_code := exit_code c; exited := exited c;
     stdout := stdout c; stderr := stderr c;
     running := running c; pc := l; emitted := emitted c |}.

(** [output = self.process.stdout.readline()] and the emission, when
    [select] reported the stream; [None] when the read raises. *)
Definition read_stdout (out : Reading) (c : Config) : option Config :=
  if readable (stdout c) then
    match readline out (stdout c) with
    | Some (output, stdout') =>
        Some {| todo := todo c; exit_code := exit_code c; exited := exited c;
                stdout := stdout'; stderr := stderr c;
                running := running c; pc := pc c;
                emitted := emitted c ++ emit_lines Stdout [output] |}
    | None => None
    end
  else Some c.

Definition read_stderr (err : Reading) (c : Config) : option Config :=
  if readable (stderr c) then
    match readline err (stderr c) with
    | Some (error, stderr') =>
        Some {| todo := todo c; exit_code := exit_code c; exited := exited c;
                stdout := stdout c; stderr := stderr';
                running := running c; pc := pc c;
                emitted := emitted c ++ emit_lines Stderr [error] |}
    | None => None
    end
  else Some c.

(** The body of the loop of [run] after the test of [poll()]: the [select]
    and the two reads (the read of stdout leaves stderr as [select] saw
    it).  A read that raises ends the loop
    ([except (ValueError, OSError): break]), with what was emitted before
    it. *)
Definition select_and_read (out err : Reading) (c : Config) : Config :=
  match read_stdout out c with
  | None => at_pc Finished c
  | Some c1 =>
      match read_stderr err c1 with
      | None => at_pc Finished c1
      | Some c2 => at_pc AtLoopHead c2
      end
  end.

(** One step of [run]: from the head of the loop, the test of [self.running]
    and of [poll()]; from the [select], the rest of the body. *)
Definition reader_step (out err : Reading) (c : Config) : Config :=
  match pc c with
  | AtLoopHead =>
      if running c then
        match poll c with
        | Some _ => at_pc Finished (read_remaining_output out err c)
        | None => at_pc AtSelect c
        end
      else at_pc Finished c
  | AtSelect => select_and_read out err c
  | Finished => c
  end.

(** [stop()], called from the GUI thread. *)
Definition stop (c : Config) : Config :=
  {| todo := todo c; exit_code := exit_code c; exited := exited c;
     stdout := stdout c; stderr := stderr c;
     running := false; pc := pc c; emitted := emitted c |}.

(** Who moves next.  [TheReader]: a move of the thread in which every read
    goes well and takes all there is in the pipe; [TheReaderWith]: a move of
    the thread with the reads of the two streams as given. *)
Inductive Actor :=
| TheChild
| TheReader
| StopCall
| TheReaderWith (out err : Reading).

Definition step (a : Actor) (c : Config) : Config :=
  match a with
  | TheChild => child_step c
  | TheReader => reader_step (Chunk None) (Chunk None) c
  | StopCall => stop c
  | TheReaderWith out err => reader_step out err c
  end.

(** A run under a schedule, first mover first. *)
Fixpoint exec (schedule : list Actor) (c : Config) : Config :=
  match schedule with
  | [] => c
  | a :: rest => exec rest (step a c)
  end.

Definition empty_pipe : Pipe :=
  {| buffered := []; in_pipe := []; closed := false |}.

(** The thread has just been started on a fresh child. *)
Definition start (script : list (Stream * string)) (code : Z) : Config :=
  {| todo := script; exit_code := code; exited := false;
     stdout := empty_pipe; stderr := empty_pipe;
     running := true; pc := AtLoopHead; emitted := [] |}.

Definition stream_eqb (a b : Stream) : bool :=
  match a, b with
  | Stdout, Stdout | Stderr, Stderr => true
  | _, _ => false
  end.

(** The second components of the entries of [l] tagged [s], in order. *)
Fixpoint of_stream {A : Type} (s : Stream) (l : list (Stream * A)) : list A :=
  match l with
  | [] => []
  | (s', x) :: rest =>
      if stream_eqb s s' then x :: of_stream s rest else of_stream s rest
  end.

(** The texts of the [OutputEvent]s, in the order of emission. *)
Definition texts (c : Config) : list string := map snd (emitted c).

Definition no_stop (schedule : list Actor) : Prop :=
  forall a, In a schedule -> a <> StopCall.

(** Does no read raise in a move. *)
Definition reads_well (a : Actor) : bool :=
  match a with
  | TheReaderWith (Fails _) _ | TheReaderWith _ (Fails _) => false
  | _ => true
  end.

(** No read of the pipes raises in a run. *)
Definition no_failed_read (schedule : list Actor) : Prop :=
  forallb reads_well schedule = true.

Definition pipe_of (s : Stream) (c : Config) : Pipe :=
  match s with Stdout => stdout c | Stderr => stderr c end.

(** *** What the statements about the thread speak of *)

(** A text with no line end inside: no carriage return and no line feed. *)
Fixpoint one_line (text : string) : bool :=
  match text with
  | "" => true
  | String ch rest => negb (is_lf ch) && negb (is_cr ch) && one_line rest
  end.

(** The lines the reader gets from the stream [s] of a child that writes
    [script]. *)
Definition lines_of (s : Stream) (script : list (Stream * string))
  : list string :=
  concat (map delivered (of_stream s script)).

(** The lines of a pipe not read yet, oldest first. *)
Definition held (p : Pipe) : list string := buffered p ++ in_pipe p.

(** The emissions for the lines [ls] of the stream [s], none skipped. *)
Definition tagged (s : Stream) (ls : list string) : list (Stream * string) :=
  map (fun line => (s, Py.strip line)) ls.

Definition nonempty (line : string) : Prop := Py.is_empty line = false.

(** What is still to come on the stream [s]: the lines held in its pipe and
    those the child has yet to write, as they will be emitted. *)
Definition unseen (s : Stream) (c : Config) : list string :=
  map Py.strip (held (pipe_of s c)) ++ map Py.strip (lines_of s (todo c)).

(** What holds of every configuration reached from [start script code]. *)
Record Inv (script : list (Stream * string)) (c : Config) : Prop := {
  inv_lines : forall s,
    of_stream s (emitted c) ++ unseen s c = map Py.strip (lines_of s script);
  inv_nonempty : forall s, Forall nonempty (held (pipe_of s c));
  inv_exited : exited c = true -> todo c = [];
  inv_todo : exists written, script = written ++ todo c
}.

(** The thread has left [run] only after the exit of the child and with both
    pipes read to their end. *)
Definition clean_finish (c : Config) : Prop :=
  pc c = Finished ->
  exited c = true /\ forall s, held (pipe_of s c) = [].

(** *** Sample children and schedules *)

(** The child of the scenario, with a first line that is indented. *)
Definition script_indented : list (Stream * string) :=
  [ (Stdout, "  line1"); (Stderr, "line2") ].

(** The child writes its two lines and exits, then the thread moves. *)
Definition schedule_read_after_exit : list Actor :=
  [ TheChild; TheChild; TheChild; TheReader ].

(** The same, with a call of [stop()] before the thread moves. *)
Definition schedule_stop_after_exit : list Actor :=
  [ TheChild; TheChild; TheChild; StopCall; TheReader ].

(** A child that redraws a progress line with a carriage return. *)
Definition script_progress : list (Stream * string) :=
  [ (Stdout, String "5" (String "0" (String "%" (String (ascii_of_nat 13)
               "100%")))); (Stderr, "line2") ].

(** The child writes its first line; the thread comes to the [select] and
    its read of stdout raises, while the child still runs. *)
Definition schedule_read_raises : list Actor :=
  [ TheChild; TheReader; TheReaderWith (Fails 0) (Chunk None);
    TheChild; TheChild; TheReader; TheReader ].

(** The child of the specification's scenario. *)
Definition script_line1_line2 : list (Stream * string) :=
  [ (Stdout, "line1"); (Stderr, "line2") ].

(** The thread reads the first line while the child runs, and the second
    when it drains the pipes after the exit. *)
Definition schedule_interleaved : list Actor :=
  [ TheReader; TheChild; TheReader; TheChild; TheChild; TheReader ].

(** The same, the second move of the thread reading a chunk that ends with
    the line it returns. *)
Definition schedule_chunked : list Actor :=
  [ TheReader; TheChild; TheReaderWith (Chunk (Some 0)) (Chunk (Some 0));
    TheChild; TheChild; TheReader ].

End ServerOutputReader.

(** ** The configuration file *)

Module Config.

(** A JSON document as [json.load] returns it. *)
#[warnings="-register-all"]
Inductive Json :=
| JNull
| JBool (b : bool)
| JNumber (n : Z)
| JString (s : string)
| JArray (items : list Json)
| JObject (members : list (string * Json)).

(** The exceptions at play; [except Exception] catches the first three. *)
Inductive Exc := OSError | JSONDecodeError | UnicodeDecodeError | KeyboardInterrupt.

Definition is_Exception (e : Exc) : bool :=
  match e with KeyboardInterrupt => false | _ => true end.

Inductive Outcome (A : Type) :=
| Returns (a : A)
| Raises (e : Exc).

Arguments Returns {A} a.
Arguments Raises {A} e.

Definition bind {A B : Type} (x : Outcome A) (f : A -> Outcome B) : Outcome B :=
  match x with
  | Returns a => f a
  | Raises e => Raises e
  end.

(** [~/.llama_server_gui_config.json] on the disk: not there; there but not
    to be opened for reading; there with some text; or not to be looked at:
    [stat] on the path fails for another reason than a missing file, as it
    does with "permission denied" when a directory on the way may not be
    searched. *)
Inductive FileState := Absent | Unreadable | Holds (text : string) | Inaccessible.

(** [self.config_file.exists()]: [Path.exists] calls [stat]; it answers
    [False] when the file is missing and raises again any other error of
    [stat]. *)
Definition file_exists (f : FileState) : Outcome bool :=
  match f with
  | Absent => Returns false
  | Unreadable | Holds _ => Returns true
  | Inaccessible => Raises OSError
  end.

(** [open(self.config_file, "r")], read to the end. *)
Definition open_read (f : FileState) : Outcome string :=
  match f with
  | Holds text => Returns text
  | Absent | Unreadable | Inaccessible => Raises OSError
  end.

(** [{"profiles": {}, "last_profile": None}] *)
Definition default_config : Json :=
  JObject [("profiles", JObject []); ("last_profile", JNull)].

Section WithParser.

(** The JSON parser of the standard library: the document, or nothing when
    the text is not valid JSON. *)
Variable parse : string -> option Json.

(** [json.load(f)] *)
Definition json_load (text : string) : Outcome Json :=
  match parse text with
  | Some v => Returns v
  | None => Raises JSONDecodeError
  end.

(** [load_config]: what it returns or raises, and whether it printed the
    line "Error loading config: ...".  The call of [exists()] is outside the
    [try]: what it raises leaves [load_config]. *)
Definition load_config (f : FileState) : Outcome Json * bool :=
  match file_exists f with
  | Raises e => (Raises e, false)
  | Returns true =>
      match bind (open_read f) json_load with
      | Returns v => (Returns v, false)
      | Raises e =>
          if is_Exception e then (Returns default_config, true)
          else (Raises e, false)
      end
  | Returns false => (Returns default_config, false)
  end.

End WithParser.

(** A parser that accepts the empty object and nothing else. *)
Definition parse_braces (text : string) : option Json :=
  if String.eqb text "{}" then Some (JObject []) else None.

End Config.

(** ** What the statements about the window speak of, and sample inputs *)

(** The argument vector as the specification words it: the values alone,
    the model path first. *)
Definition spec_argument_vector (f : Form) : list string :=
  [ model_path_edit f; host_edit f; Py.str (port_spin f);
    Py.str (context_spin f); Py.str (ngl_spin f); Py.str (threads_spin f);
    Py.str (batch_spin f) ] ++ Py.split (additional_args_edit f).

(** A form as an operator would fill it. *)
Definition form_sample : Form :=
  {| binary_path_edit := "/opt/llama/llama-server";
     model_path_edit := "/models/m.gguf";
     host_edit := "127.0.0.1";
     port_spin := 8080; context_spin := 2048; ngl_spin := 33;
     threads_spin := 8; batch_spin := 512;
     additional_args_edit := "--numa  --mlock" |}.

Definition already_running_error : Effect :=
  MsgWarning "Error" "Server is already running".

Definition not_running_error : Effect :=
  MsgWarning "Error" "Server is not running".

(** The path a start uses: the text of the field, stripped. *)
Definition binary_path (g : LlamaServerGUI) : string :=
  Py.strip (binary_path_edit (form g)).

Definition model_path (g : LlamaServerGUI) : string :=
  Py.strip (model_path_edit (form g)).

(** Does the path name a file that is there. *)
Definition references_file (w : World) (path : string) : bool :=
  negb (Py.is_empty path) && path_exists w path.

(** The preconditions of a start in the order of their validation, each with
    the error that reports its violation: the four on the files, then the one
    on the state. *)
Definition file_preconditions (w : World) (g : LlamaServerGUI)
  : list (bool * Effect) :=
  [ (negb (Py.is_empty (binary_path g)),
     MsgWarning "Error" "Please select a server binary");
    (path_exists w (binary_path g),
     MsgWarning "Error" ("Server binary not found: " ++ binary_path g));
    (negb (Py.is_empty (model_path g)),
     MsgWarning "Error" "Please select a model file");
    (path_exists w (model_path g),
     MsgWarning "Error" ("Model file not found: " ++ model_path g)) ].

Definition preconditions (w : World) (g : LlamaServerGUI)
  : list (bool * Effect) :=
  file_preconditions w g ++ [ (negb (is_running w g), already_running_error) ].

(** The error of the first precondition of [l] that does not hold. *)
Fixpoint first_violation (l : list (bool * Effect)) : option Effect :=
  match l with
  | [] => None
  | (holds, error) :: rest => if holds then first_violation rest else Some error
  end.

(** What the supervision rests on: every field but the two buttons. *)
Definition supervision (g : LlamaServerGUI) :=
  (form g, server_process g, output_reader g,
   (health_check_timer g, health_check_attempts g),
   (stop_timer g, stop_attempts g, single_shots g)).

(** A world in which every path exists and the child runs on. *)
Definition world_alive : World :=
  {| path_exists := fun _ => true;
     spawn := fun _ => inl 4242;
     poll := fun _ => None |}.

(** A window with a server that has passed its health check, and an empty
    binary field. *)
Definition gui_running : LlamaServerGUI :=
  {| form := {| binary_path_edit := ""; model_path_edit := "/models/m.gguf";
                host_edit := "127.0.0.1"; port_spin := 8080;
                context_spin := 2048; ngl_spin := 33; threads_spin := 8;
                batch_spin := 512; additional_args_edit := "" |};
     server_process := Some 4242;
     output_reader := Some true;
     health_check_timer := Some false;
     health_check_attempts := 6;
     stop_timer := None; stop_attempts := 0; single_shots := [];
     start_btn := false; stop_btn := true |}.

(** A world in which the model file is the only path that exists. *)
Definition world_model_only : World :=
  {| path_exists := fun path => String.eqb path "/models/m.gguf";
     spawn := fun _ => inl 4242;
     poll := fun _ => None |}.

(** A window with no server, as it opens. *)
Definition gui_idle : LlamaServerGUI :=
  {| form := {| binary_path_edit := "/nowhere/llama-server";
                model_path_edit := "/models/m.gguf";
                host_edit := "127.0.0.1"; port_spin := 8080;
                context_spin := 2048; ngl_spin := 33; threads_spin := 8;
                batch_spin := 512; additional_args_edit := "" |};
     server_process := None;
     output_reader := None;
     health_check_timer := None;
     health_check_attempts := 0;
     stop_timer := None; stop_attempts := 0; single_shots := [];
     start_btn := true; stop_btn := false |}.

(** A world in which the child has exited with code 1. *)
Definition world_exited : World :=
  {| path_exists := fun _ => true;
     spawn := fun _ => inl 4242;
     poll := fun _ => Some 1%Z |}.

(** The stop timer is running on the held process [p] with [a] attempts
    counted and no delayed call pending. *)
Definition escalating (p : Popen) (a : nat) (g : LlamaServerGUI) : Prop :=
  server_process g = Some p /\ stop_timer g = Some true
  /\ stop_attempts g = a /\ single_shots g = [].

(** Does the process [p] show as exited at one of the [m] timeouts from the
    [k]-th on. *)
Fixpoint exits_within (ws : nat -> World) (p : Popen) (k m : nat) : bool :=
  match m with
  | 0 => false
  | S m' =>
      match poll (ws k) p with
      | Some _ => true
      | None => exits_within ws p (S k) m'
      end
  end.

(** The health timer is running on the held process [p] with [a] attempts
    counted. *)
Definition monitoring (p : Popen) (a : nat) (g : LlamaServerGUI) : Prop :=
  server_process g = Some p /\ health_check_timer g = Some true
  /\ health_check_attempts g = a.

(** A window just started, its health timer running from zero. *)
Definition gui_started : LlamaServerGUI :=
  {| form := form gui_idle;
     server_process := Some 4242;
     output_reader := Some true;
     health_check_timer := Some true;
     health_check_attempts := 0;
     stop_timer := None; stop_attempts := 0; single_shots := [];
     start_btn := false; stop_btn := true |}.

(** The server exits with code 1 between the second and the third timeout. *)
Definition worlds_crash (k : nat) : World :=
  if (k <? 2)%nat then world_alive else world_exited.

(** ** The event loop *)

(** What the event loop can deliver to the window: a press of Start or of
    Stop, a timeout of one of the two timers, a delayed call that fires, the
    Quit entry of the tray menu, a close of the window with the operator's
    answer to the question. *)
Inductive UiEvent :=
| ClickStart
| ClickStop
| HealthTimeout
| StopTimeout
| SingleShot
| ClickQuit
| CloseWindow (reply : StandardButton).

(** The slot an event runs, in the world of that moment.  A timeout reaches
    its slot only while its timer is active. *)
Definition dispatch (w : World) (ev : UiEvent) : Handler :=
  match ev with
  | ClickStart => start_server w
  | ClickStop => stop_server w
  | HealthTimeout =>
      fun g => if active (health_check_timer g)
               then check_server_health w g else pass g
  | StopTimeout =>
      fun g => if active (stop_timer g)
               then check_server_stopped w g else pass g
  | SingleShot => fire_single_shot w
  | ClickQuit => quit_application w
  | CloseWindow reply => closeEvent w reply
  end.

(** A session: the events in their order, each with the world it finds.  An
    exception that leaves a slot ends that slot only: the loop is taken to go
    on with the next event, as it does under an exception hook; where the
    application ends with the exception, the session is the one of the
    events so far. *)
Fixpoint run_events (session : list (World * UiEvent)) : Handler :=
  match session with
  | [] => pass
  | (w, ev) :: rest => dispatch w ev ;; run_events rest
  end.

(** Start and Stop are not both enabled. *)
Definition buttons_exclusive (g : LlamaServerGUI) : Prop :=
  start_btn g && stop_btn g = false.

(** The supervisor holds nothing: no handle, no reader, Start enabled and
    Stop disabled. *)
Definition released (g : LlamaServerGUI) : Prop :=
  server_process g = None /\ output_reader g = None
  /\ start_btn g = true /\ stop_btn g = false.

(** A world in which the spawn is refused. *)
Definition world_no_spawn : World :=
  {| path_exists := fun _ => true;
     spawn := fun _ => inr "[Errno 13] Permission denied";
     poll := fun _ => None |}.

(** A window with no server and both paths filled in. *)
Definition gui_ready : LlamaServerGUI :=
  {| form := form_sample;
     server_process := None;
     output_reader := None;
     health_check_timer := None;
     health_check_attempts := 0;
     stop_timer := None; stop_attempts := 0; single_shots := [];
     start_btn := true; stop_btn := false |}.


(** A handler that never leaves both buttons enabled when it did not find
    them so. *)
Definition keeps_exclusive (h : Handler) : Prop :=
  forall g, buttons_exclusive g -> buttons_exclusive (fst (h g)).

(** ** Counting the moves of the reader thread *)

Module ReaderSchedules.
Import ServerOutputReader.

(** How many times the thread moves in a schedule. *)
Fixpoint reader_moves (schedule : list Actor) : nat :=
  match schedule with
  | [] => 0
  | TheReader :: rest | TheReaderWith _ _ :: rest => S (reader_moves rest)
  | _ :: rest => reader_moves rest
  end.

(** Is [a] the beginning of [b]. *)
Definition prefix_of {A : Type} (a b : list A) : Prop :=
  exists rest, b = a ++ rest.

(** A child that logs three lines on stderr and one on stdout. *)
Definition script_llama : list (Stream * string) :=
  [ (Stderr, "load_model: loading"); (Stdout, "  listening on 8080  ");
    (Stderr, "warn: low memory"); (Stderr, "") ].

End ReaderSchedules.

(** ** Profiles *)

(** The profile handlers of the window: [get_current_settings],
    [apply_settings], [save_current_profile], [load_profile],
    [on_profile_selected], [load_selected_profile], [delete_profile] and
    [save_config].  A profile is a dictionary as [get_current_settings] makes
    it, some of its keys possibly missing (a key, when present, has a value of
    the type that function gives it).  The configuration is the dictionary
    with its keys [profiles] and [last_profile].  The combo box is left out:
    the name it shows, like the answer to a dialog, is an argument of the
    handler. *)
Module Profiles.

(** *** Dictionaries: keys in the order of their insertion *)

Fixpoint dict_get {V : Type} (k : string) (d : list (string * V)) : option V :=
  match d with
  | [] => None
  | (k', v) :: rest => if String.eqb k k' then Some v else dict_get k rest
  end.

(** [k in d] *)
Definition dict_in {V : Type} (k : string) (d : list (string * V)) : bool :=
  match dict_get k d with Some _ => true | None => false end.

(** [d[k] = v] *)
Fixpoint dict_set {V : Type} (k : string) (v : V) (d : list (string * V))
  : list (string * V) :=
  match d with
  | [] => [(k, v)]
  | (k', v') :: rest =>
      if String.eqb k k' then (k, v) :: rest else (k', v') :: dict_set k v rest
  end.

(** [del d[k]]; nothing when the key is missing ([KeyError]). *)
Definition dict_del {V : Type} (k : string) (d : list (string * V))
  : option (list (string * V)) :=
  if dict_in k d
  then Some (filter (fun kv => negb (String.eqb k (fst kv))) d)
  else None.

(** *** Widgets *)

(** Is [v] a C [int]: the type of the argument of [QSpinBox.setValue]. *)
Definition fits_int (v : Z) : bool :=
  ((-2147483648 <=? v) && (v <=? 2147483647))%Z.

(** [spin.setValue(v)] on a spin box of range [lo .. hi], for a [v] that is a
    C [int]: the value, brought into the range. *)
Definition setValue (lo hi v : Z) : Z := Z.max lo (Z.min hi v).

(** The fields of the form and the check box. *)
Record Widgets := {
  fields : Form;
  auto_start_checkbox : bool
}.

(** The ranges given to the spin boxes in [create_options_section]. *)
Definition in_range (f : Form) : Prop :=
  (1 <= port_spin f <= 65535)%Z
  /\ (128 <= context_spin f <= 1048576)%Z
  /\ (-1 <= ngl_spin f <= 999)%Z
  /\ (1 <= threads_spin f <= 256)%Z
  /\ (1 <= batch_spin f <= 2048)%Z.

(** A profile. *)
Record Settings := {
  k_binary_path : option string;
  k_model_path : option string;
  k_host : option string;
  k_port : option Z;
  k_context : option Z;
  k_ngl : option Z;
  k_threads : option Z;
  k_batch : option Z;
  k_additional_args : option string;
  k_auto_start : option bool
}.

(** [settings.get(key, default)] *)
Definition get {V : Type} (field : option V) (default : V) : V :=
  match field with Some v => v | None => default end.

Definition get_current_settings (ui : Widgets) : Settings :=
  {| k_binary_path := Some (binary_path_edit (fields ui));
     k_model_path := Some (model_path_edit (fields ui));
     k_host := Some (host_edit (fields ui));
     k_port := Some (port_spin (fields ui));
     k_context := Some (context_spin (fields ui));
     k_ngl := Some (ngl_spin (fields ui));
     k_threads := Some (threads_spin (fields ui));
     k_batch := Some (batch_spin (fields ui));
     k_additional_args := Some (additional_args_edit (fields ui));
     k_auto_start := Some (auto_start_checkbox ui) |}.

(** The configuration. *)
Record ConfigDict := {
  profiles : list (string * Settings);
  last_profile : option string
}.

(** What a profile handler does to the outside. *)
Inductive Out :=
| Log (text : string)                 (* self.log_text.append *)
| Warn (title text : string)          (* QMessageBox.warning *)
| Ask (title text : string)           (* QMessageBox.question *)
| Opened                              (* open(self.config_file, "w") *)
| Dumped (c : ConfigDict)             (* json.dump(self.config, f) *)
| Printed (text : string)             (* print *)
| KeyError (key : string)             (* the exception leaves the slot *)
| OverflowError (key : string).       (* the exception leaves the slot *)

(** The window, for the profile handlers. *)
Record Window := {
  widgets : Widgets;
  config : ConfigDict
}.

Definition Slot := Window -> Window * list Out.

(** Did a slot raise: is an exception among its effects. *)
Definition is_raise (o : Out) : bool :=
  match o with KeyError _ | OverflowError _ => true | _ => false end.

Definition raised (outs : list Out) : bool := existsb is_raise outs.

(** One statement after another; what the first raises ends the sequence. *)
Definition then_ (h1 h2 : Slot) : Slot :=
  fun win => let (w1, o1) := h1 win in
             if raised o1 then (w1, o1)
             else let (w2, o2) := h2 w1 in (w2, o1 ++ o2).

Definition say (o : Out) : Slot := fun win => (win, [o]).

Definition set_config (c : ConfigDict) : Slot :=
  fun win => ({| widgets := widgets win; config := c |}, []).

(** A change of the fields of the form. *)
Definition set_fields (change : Form -> Form) : Slot :=
  fun win =>
    ({| widgets := {| fields := change (fields (widgets win));
                      auto_start_checkbox :=
                        auto_start_checkbox (widgets win) |};
        config := config win |}, []).

Definition with_binary_path (v : string) (f : Form) : Form :=
  {| binary_path_edit := v; model_path_edit := model_path_edit f;
     host_edit := host_edit f; port_spin := port_spin f;
     context_spin := context_spin f; ngl_spin := ngl_spin f;
     threads_spin := threads_spin f; batch_spin := batch_spin f;
     additional_args_edit := additional_args_edit f |}.

Definition with_model_path (v : string) (f : Form) : Form :=
  {| binary_path_edit := binary_path_edit f; model_path_edit := v;
     host_edit := host_edit f; port_spin := port_spin f;
     context_spin := context_spin f; ngl_spin := ngl_spin f;
     threads_spin := threads_spin f; batch_spin := batch_spin f;
     additional_args_edit := additional_args_edit f |}.

Definition with_host (v : string) (f : Form) : Form :=
  {| binary_path_edit := binary_path_edit f;
     model_path_edit := model_path_edit f;
     host_edit := v; port_spin := port_spin f;
     context_spin := context_spin f; ngl_spin := ngl_spin f;
     threads_spin := threads_spin f; batch_spin := batch_spin f;
     additional_args_edit := additional_args_edit f |}.

Definition with_port (v : Z) (f : Form) : Form :=
  {| binary_path_edit := binary_path_edit f;
     model_path_edit := model_path_edit f;
     host_edit := host_edit f; port_spin := v;
     context_spin := context_spin f; ngl_spin := ngl_spin f;
     threads_spin := threads_spin f; batch_spin := batch_spin f;
     additional_args_edit := additional_args_edit f |}.

Definition with_context (v : Z) (f : Form) : Form :=
  {| binary_path_edit := binary_path_edit f;
     model_path_edit := model_path_edit f;
     host_edit := host_edit f; port_spin := port_spin f;
     context_spin := v; ngl_spin := ngl_spin f;
     threads_spin := threads_spin f; batch_spin := batch_spin f;
     additional_args_edit := additional_args_edit f |}.

Definition with_ngl (v : Z) (f : Form) : Form :=
  {| binary_path_edit := binary_path_edit f;
     model_path_edit := model_path_edit f;
     host_edit := host_edit f; port_spin := port_spin f;
     context_spin := context_spin f; ngl_spin := v;
     threads_spin := threads_spin f; batch_spin := batch_spin f;
     additional_args_edit := additional_args_edit f |}.

Definition with_threads (v : Z) (f : Form) : Form :=
  {| binary_path_edit := binary_path_edit f;
     model_path_edit := model_path_edit f;
     host_edit := host_edit f; port_spin := port_spin f;
     context_spin := context_spin f; ngl_spin := ngl_spin f;
     threads_spin := v; batch_spin := batch_spin f;
     additional_args_edit := additional_args_edit f |}.

Definition with_batch (v : Z) (f : Form) : Form :=
  {| binary_path_edit := binary_path_edit f;
     model_path_edit := model_path_edit f;
     host_edit := host_edit f; port_spin := port_spin f;
     context_spin := context_spin f; ngl_spin := ngl_spin f;
     threads_spin := threads_spin f; batch_spin := v;
     additional_args_edit := additional_args_edit f |}.

Definition with_additional_args (v : string) (f : Form) : Form :=
  {| binary_path_edit := binary_path_edit f;
     model_path_edit := model_path_edit f;
     host_edit := host_edit f; port_spin := port_spin f;
     context_spin := context_spin f; ngl_spin := ngl_spin f;
     threads_spin := threads_spin f; batch_spin := batch_spin f;
     additional_args_edit := v |}.

(** [self.auto_start_checkbox.setChecked(v)] *)
Definition set_auto_start (v : bool) : Slot :=
  fun win =>
    ({| widgets := {| fields := fields (widgets win);
                      auto_start_checkbox := v |};
        config := config win |}, []).

(** [box.setValue(settings.get(key, default))] for the spin box of [key]: a
    value that is no C [int] raises [OverflowError] and the box keeps what it
    shows. *)
Definition spin (key : string) (lo hi v : Z) (put : Z -> Form -> Form) : Slot :=
  fun win =>
    if fits_int v then set_fields (put (setValue lo hi v)) win
    else say (OverflowError key) win.

(** [apply_settings]: the widgets are set one after the other, in the order
    of the source.  (A text is taken to be no longer than the 32767
    characters a line edit holds.) *)
Definition apply_settings (settings : Settings) : Slot :=
  then_ (say (Log ("Applying settings to UI fields..." ++ Py.nl)))
  (then_ (set_fields (with_binary_path (get (k_binary_path settings) "")))
  (then_ (set_fields (with_model_path (get (k_model_path settings) "")))
  (then_ (set_fields (with_host (get (k_host settings) "127.0.0.1")))
  (then_ (spin "port" 1 65535 (get (k_port settings) 8080%Z) with_port)
  (then_ (spin "context" 128 1048576 (get (k_context settings) 2048%Z)
            with_context)
  (then_ (spin "ngl" (-1) 999 (get (k_ngl settings) 33%Z) with_ngl)
  (then_ (spin "threads" 1 256 (get (k_threads settings) 8%Z) with_threads)
  (then_ (spin "batch" 1 2048 (get (k_batch settings) 512%Z) with_batch)
  (then_ (set_fields
            (with_additional_args (get (k_additional_args settings) "")))
  (then_ (set_auto_start (get (k_auto_start settings) false))
         (say (Log ("Settings applied to UI" ++ Py.nl))))))))))))).

(** How a write of the configuration file goes. *)
Inductive Disk :=
| Accepts                       (* the file is opened, written and closed *)
| RefusesOpen (e : string)      (* [open] raises: the file is not touched *)
| RefusesWrite (e : string).    (* [json.dump] or the closing raises, after
                                   [open] has truncated the file *)

(** [save_config].  Opening the file for writing truncates it; what is raised
    then or later is caught, printed and logged.  [e] is the text of the
    exception. *)
Definition save_config (disk : Disk) : Slot :=
  fun win =>
    match disk with
    | Accepts =>
        (win,
         [ Opened; Dumped (config win);
           Log ("Config saved: "
                ++ Py.str (Z.of_nat (List.length (profiles (config win))))
                ++ " profile(s)" ++ Py.nl) ])
    | RefusesOpen e =>
        (win,
         [ Printed ("Error saving config: " ++ e);
           Log ("Error saving config: " ++ e ++ Py.nl) ])
    | RefusesWrite e =>
        (win,
         [ Opened;
           Printed ("Error saving config: " ++ e);
           Log ("Error saving config: " ++ e ++ Py.nl) ])
    end.

(** [save_current_profile]; [profile_name] and [ok] are what the dialog
    returns. *)
Definition save_current_profile (disk : Disk) (profile_name : string)
    (ok : bool) : Slot :=
  fun win =>
    if ok && negb (Py.is_empty profile_name) then
      let settings := get_current_settings (widgets win) in
      (then_ (say (Log ("Saving profile '" ++ profile_name
                        ++ "' with settings:" ++ Py.nl)))
      (then_ (say (Log ("  Binary: " ++ binary_path_edit (fields (widgets win))
                        ++ Py.nl)))
      (then_ (say (Log ("  Model: " ++ model_path_edit (fields (widgets win))
                        ++ Py.nl)))
      (then_ (say (Log ("  Port: " ++ Py.str (port_spin (fields (widgets win)))
                        ++ ", Context: "
                        ++ Py.str (context_spin (fields (widgets win)))
                        ++ ", NGL: " ++ Py.str (ngl_spin (fields (widgets win)))
                        ++ Py.nl)))
      (then_ (fun win =>
                set_config
                  {| profiles := dict_set profile_name settings
                                   (profiles (config win));
                     last_profile := Some profile_name |} win)
      (then_ (save_config disk)
             (say (Log ("Profile '" ++ profile_name
                        ++ "' saved successfully" ++ Py.nl))))))))) win
    else (win, []).

(** [settings.get(key, 'N/A')] inside an f-string. *)
Definition shown (field : option string) : string := get field "N/A".

Definition shown_int (field : option Z) : string :=
  match field with Some n => Py.str n | None => "N/A" end.

Definition load_profile (disk : Disk) (profile_name : string) : Slot :=
  fun win =>
    if negb (Py.is_empty profile_name) then
      match dict_get profile_name (profiles (config win)) with
      | Some settings =>
          (then_ (say (Log ("Loading profile '" ++ profile_name
                            ++ "' with settings:" ++ Py.nl)))
          (then_ (say (Log ("  Binary: " ++ shown (k_binary_path settings)
                            ++ Py.nl)))
          (then_ (say (Log ("  Model: " ++ shown (k_model_path settings)
                            ++ Py.nl)))
          (then_ (say (Log ("  Port: " ++ shown_int (k_port settings)
                            ++ ", Context: " ++ shown_int (k_context settings)
                            ++ ", NGL: " ++ shown_int (k_ngl settings)
                            ++ Py.nl)))
          (then_ (apply_settings settings)
          (then_ (fun win =>
                    set_config
                      {| profiles := profiles (config win);
                         last_profile := Some profile_name |} win)
          (then_ (save_config disk)
                 (say (Log ("Profile '" ++ profile_name
                            ++ "' loaded successfully" ++ Py.nl)))))))))) win
      | None => (win, [])
      end
    else (win, []).

Definition on_profile_selected (disk : Disk) (profile_name : string)
  : Slot :=
  fun win =>
    if negb (Py.is_empty profile_name)
       && dict_in profile_name (profiles (config win))
    then then_ (say (Log ("Auto-loading profile '" ++ profile_name ++ "'..."
                          ++ Py.nl)))
               (load_profile disk profile_name) win
    else (win, []).

(** [load_selected_profile]; [profile_name] is the text of the combo box. *)
Definition load_selected_profile (disk : Disk) (profile_name : string)
  : Slot :=
  fun win =>
    if Py.is_empty profile_name then
      say (Warn "No Profile Selected" "Please select a profile to load") win
    else if negb (dict_in profile_name (profiles (config win))) then
      say (Warn "Profile Not Found"
             ("Profile '" ++ profile_name ++ "' not found")) win
    else
      then_ (say (Log ("Manually loading profile '" ++ profile_name ++ "'..."
                       ++ Py.nl)))
            (load_profile disk profile_name) win.

(** [delete_profile]; [profile_name] is the text of the combo box and [yes]
    the answer to the question. *)
Definition delete_profile (disk : Disk) (profile_name : string)
    (yes : bool) : Slot :=
  fun win =>
    if Py.is_empty profile_name then (win, [])
    else
      then_ (say (Ask "Delete Profile"
                    ("Are you sure you want to delete profile '"
                     ++ profile_name ++ "'?")))
        (fun win =>
           if yes then
             match dict_del profile_name (profiles (config win)) with
             | None => say (KeyError profile_name) win
             | Some rest =>
                 then_ (set_config
                          {| profiles := rest;
                             last_profile :=
                               match last_profile (config win) with
                               | Some last =>
                                   if String.eqb last profile_name then None
                                   else Some last
                               | None => None
                               end |})
                       (save_config disk) win
             end
           else (win, [])) win.

(** *** Sessions of profile handling *)

(** What the operator can do with profiles, with what the dialogs return and
    whether the disk takes the write. *)
Inductive ProfileEvent :=
| Save (disk : Disk) (profile_name : string) (ok : bool)
| Select (disk : Disk) (profile_name : string)
| LoadButton (disk : Disk) (profile_name : string)
| Delete (disk : Disk) (profile_name : string) (yes : bool)
| Edit (ui : Widgets).

Definition handle (ev : ProfileEvent) : Slot :=
  match ev with
  | Save disk profile_name ok => save_current_profile disk profile_name ok
  | Select disk profile_name => on_profile_selected disk profile_name
  | LoadButton disk profile_name => load_selected_profile disk profile_name
  | Delete disk profile_name yes => delete_profile disk profile_name yes
  | Edit ui => fun win => ({| widgets := ui; config := config win |}, [])
  end.

(** The event loop takes the events one after the other.  An exception that
    leaves a slot ends that slot only: the loop is taken to go on, as it does
    under an exception hook; where the application ends with the exception,
    the session is the one of the events so far. *)
Fixpoint run (events : list ProfileEvent) : Slot :=
  match events with
  | [] => fun win => (win, [])
  | ev :: rest =>
      fun win => let (w1, o1) := handle ev win in
                 let (w2, o2) := run rest w1 in (w2, o1 ++ o2)
  end.

(** The pointer to the last profile, when set, names a profile. *)
Definition last_profile_known (c : ConfigDict) : Prop :=
  match last_profile c with
  | Some name => dict_in name (profiles c) = true
  | None => True
  end.

(** Was the configuration written to the disk. *)
Definition is_dump (o : Out) : bool :=
  match o with Dumped _ => true | _ => false end.

(** Was the configuration file opened for writing, which truncates it: the
    configuration it held is gone. *)
Definition is_open (o : Out) : bool :=
  match o with Opened => true | _ => false end.

(** Effects that neither open nor write the configuration file. *)
Definition no_file (outs : list Out) : Prop :=
  existsb is_dump outs = false /\ existsb is_open outs = false.

(** The same event, with another fate of the write. *)
Definition with_disk (disk : Disk) (ev : ProfileEvent) : ProfileEvent :=
  match ev with
  | Save _ profile_name ok => Save disk profile_name ok
  | Select _ profile_name => Select disk profile_name
  | LoadButton _ profile_name => LoadButton disk profile_name
  | Delete _ profile_name yes => Delete disk profile_name yes
  | Edit ui => Edit ui
  end.

(** Every number a profile gives to a spin box (the default where it gives
    none) is a C [int]. *)
Definition all_fit (settings : Settings) : bool :=
  fits_int (get (k_port settings) 8080%Z)
  && fits_int (get (k_context settings) 2048%Z)
  && fits_int (get (k_ngl settings) 33%Z)
  && fits_int (get (k_threads settings) 8%Z)
  && fits_int (get (k_batch settings) 512%Z).

(** The bound of [lo .. hi] nearest to [v], or [v] when it is inside. *)
Definition nearest (lo hi v : Z) : Z :=
  if (v <? lo)%Z then lo else if (hi <? v)%Z then hi else v.

(** The window [apply_settings] leaves when every number is a C [int]. *)
Definition applied (settings : Settings) (win : Window) : Window :=
  {| widgets :=
       {| fields :=
            {| binary_path_edit := get (k_binary_path settings) "";
               model_path_edit := get (k_model_path settings) "";
               host_edit := get (k_host settings) "127.0.0.1";
               port_spin := setValue 1 65535 (get (k_port settings) 8080%Z);
               context_spin :=
                 setValue 128 1048576 (get (k_context settings) 2048%Z);
               ngl_spin := setValue (-1) 999 (get (k_ngl settings) 33%Z);
               threads_spin := setValue 1 256 (get (k_threads settings) 8%Z);
               batch_spin := setValue 1 2048 (get (k_batch settings) 512%Z);
               additional_args_edit := get (k_additional_args settings) "" |};
          auto_start_checkbox := get (k_auto_start settings) false |};
     config := config win |}.

(** *** Sample windows *)

Definition widgets_sample : Widgets :=
  {| fields := form_sample; auto_start_checkbox := true |}.

Definition widgets_blank : Widgets :=
  {| fields := {| binary_path_edit := ""; model_path_edit := "";
                  host_edit := "127.0.0.1"; port_spin := 8080;
                  context_spin := 2048; ngl_spin := 33; threads_spin := 8;
                  batch_spin := 512; additional_args_edit := "" |};
     auto_start_checkbox := false |}.

Definition window_sample : Window :=
  {| widgets := widgets_sample;
     config := {| profiles := [("cpu", get_current_settings widgets_blank)];
                  last_profile := Some "cpu" |} |}.

(** A profile as a hand-edited configuration file can hold it: a context
    size of 2^32. *)
Definition settings_huge_context : Settings :=
  {| k_binary_path := Some "/opt/llama/llama-server";
     k_model_path := Some "/models/big.gguf";
     k_host := None; k_port := Some 9000%Z;
     k_context := Some 4294967296%Z;
     k_ngl := Some 10%Z; k_threads := Some 4%Z; k_batch := Some 256%Z;
     k_additional_args := Some "--verbose"; k_auto_start := Some false |}.

Definition window_huge_context : Window :=
  {| widgets := widgets_sample;
     config := {| profiles := [("cpu", get_current_settings widgets_blank);
                               ("huge", settings_huge_context)];
                  last_profile := Some "cpu" |} |}.

End Profiles.

(** ** A restart inside the delay of a forced stop *)

(** The first child: it is alive and does not react to the terminate
    signal. *)
Definition world_first_child : World :=
  {| path_exists := fun _ => true;
     spawn := fun _ => inl 1;
     poll := fun _ => None |}.

(** The first child has died of the kill; the next spawn gives the second
    child, which is alive. *)
Definition world_second_child : World :=
  {| path_exists := fun _ => true;
     spawn := fun _ => inl 2;
     poll := fun p => if Nat.eqb p 1 then Some (-9)%Z else None |}.

(** Start, Stop, and the 25 timeouts after which the first child is killed
    and its cleanup is scheduled for half a second later; within that half
    second a Start (from the tray menu) and a Stop; then the scheduled
    cleanup fires, and the stop timer of the second Stop times out for the
    first time.  The session ends there: what becomes of the application
    after an exception has left a slot is not part of it. *)
Definition session_restart_in_delay : list (World * UiEvent) :=
  [ (world_first_child, ClickStart); (world_first_child, ClickStop) ]
  ++ repeat (world_first_child, StopTimeout) 25
  ++ [ (world_second_child, ClickStart); (world_second_child, ClickStop);
       (world_second_child, SingleShot);
       (world_second_child, StopTimeout) ].

Definition is_unhandled (e : Effect) : bool :=
  match e with Unhandled _ => true | _ => false end.

(** * Properties *)

(** ** Strings *)

Module PyFacts.
Import Py.

Lemma append_empty_r (s : string) : (s ++ "")%string = s.
Proof. induction s as [|c s IH]; simpl; congruence. Qed.

Lemma append_assoc (a b c : string) :
  ((a ++ b) ++ c)%string = (a ++ (b ++ c))%string.
Proof. induction a as [|x a IH]; simpl; congruence. Qed.

Lemma is_empty_true (s : string) : is_empty s = true -> s = "".
Proof. destruct s; simpl; congruence. Qed.

Lemma is_empty_snoc (s : string) (c : ascii) :
  is_empty (s ++ String c "") = false.
Proof. destruct s; reflexivity. Qed.

(** Trailing whitespace does not change the tokens. *)
Lemma split_from_rstrip (s tok : string) :
  split_from tok (rstrip s) = split_from tok s.
Proof.
  revert tok; induction s as [|c r IH]; intro tok; simpl; [reflexivity|].
  destruct (isspace c) eqn:Hc; simpl.
  - destruct (is_empty (rstrip r)) eqn:He.
    + apply is_empty_true in He.
      rewrite <- (IH ""), He; simpl.
      destruct (is_empty tok); reflexivity.
    + simpl; rewrite Hc, IH; reflexivity.
  - rewrite Hc. apply IH.
Qed.

(** Leading whitespace does not either. *)
Lemma split_lstrip (s : string) : split (lstrip s) = split s.
Proof.
  unfold split; induction s as [|c r IH]; simpl; [reflexivity|].
  destruct (isspace c) eqn:Hc; simpl; [exact IH | rewrite Hc; reflexivity].
Qed.

Lemma split_strip (s : string) : split (strip s) = split s.
Proof.
  unfold strip, split. rewrite split_from_rstrip. apply split_lstrip.
Qed.

Lemma solid_snoc (s : string) (c : ascii) :
  solid s = true -> isspace c = false -> solid (s ++ String c "") = true.
Proof.
  induction s as [|a s IH]; simpl; intros Hs Hc.
  - rewrite Hc; reflexivity.
  - apply andb_true_iff in Hs as [Ha Hs]. rewrite Ha, IH; auto.
Qed.

(** Every token is a run of characters that are not whitespace, and is not
    empty. *)
Lemma split_from_tokens (s tok : string) :
  solid tok = true ->
  Forall (fun t => solid t = true /\ is_empty t = false) (split_from tok s).
Proof.
  revert tok; induction s as [|c r IH]; intros tok Htok; simpl.
  - destruct (is_empty tok) eqn:He; auto.
  - destruct (isspace c) eqn:Hc.
    + destruct (is_empty tok) eqn:He.
      * apply IH; reflexivity.
      * constructor; [auto | apply IH; reflexivity].
    + apply IH, solid_snoc; assumption.
Qed.

(** The tokens, one after the other, are the characters of the string that
    are not whitespace, in their order. *)
Lemma flatten_split_from (s tok : string) :
  flatten (split_from tok s) = (tok ++ no_space s)%string.
Proof.
  revert tok; induction s as [|c r IH]; intro tok; simpl.
  - destruct (is_empty tok) eqn:He; simpl.
    + apply is_empty_true in He; subst; reflexivity.
    + reflexivity.
  - destruct (isspace c) eqn:Hc.
    + destruct (is_empty tok) eqn:He; simpl; rewrite IH; simpl.
      * apply is_empty_true in He; subst; reflexivity.
      * reflexivity.
    + rewrite IH, append_assoc; reflexivity.
Qed.

Lemma rstrip_snoc_space (s : string) (c : ascii) :
  isspace c = true -> rstrip (s ++ String c "") = rstrip s.
Proof.
  intro Hc; induction s as [|a r IH]; simpl.
  - rewrite Hc; reflexivity.
  - rewrite IH; reflexivity.
Qed.

(** A line and the same line with its line feed strip to the same text. *)
Lemma strip_line (s : string) : strip (s ++ nl) = strip s.
Proof.
  unfold strip, nl; induction s as [|a r IH]; simpl.
  - reflexivity.
  - destruct (isspace a) eqn:Ha.
    + exact IH.
    + change (String a (r ++ String (ascii_of_nat 10) ""))
        with ((String a r) ++ String (ascii_of_nat 10) "")%string.
      apply rstrip_snoc_space; reflexivity.
Qed.

Lemma line_not_empty (s : string) : is_empty (s ++ nl) = false.
Proof. destruct s; reflexivity. Qed.

End PyFacts.

(** ** The command line *)

(** C4, as stated, fails: the command starts with the binary, what follows
    it starts with the flag [-m], and neither is the bare list of values. *)
Lemma C4_vector_is_flagged :
  hd_error (build_cmd form_sample) = Some "/opt/llama/llama-server"
  /\ hd_error (tl (build_cmd form_sample)) = Some "-m"
  /\ build_cmd form_sample <> spec_argument_vector form_sample
  /\ tl (build_cmd form_sample) <> spec_argument_vector form_sample.
Proof. repeat split; try reflexivity; intro H; inversion H. Qed.

(** C4 (amended): the command is the binary path, then each value after its
    flag in the fixed order model, host, port, context length, GPU layers,
    threads, batch size, then the tokens of the additional arguments.  The
    tokens are the runs of characters of that string that are not whitespace:
    none is empty or holds whitespace, and put end to end in their order they
    are the string without its whitespace. *)
Theorem C4_build_cmd (f : Form) :
  build_cmd f =
    [ Py.strip (binary_path_edit f);
      "-m"; Py.strip (model_path_edit f);
      "--host"; host_edit f;
      "--port"; Py.str (port_spin f);
      "-c"; Py.str (context_spin f);
      "-ngl"; Py.str (ngl_spin f);
      "-t"; Py.str (threads_spin f);
      "-b"; Py.str (batch_spin f) ] ++ Py.split (additional_args_edit f)
  /\ Forall (fun t => Py.solid t = true /\ t <> "")
            (Py.split (additional_args_edit f))
  /\ Py.flatten (Py.split (additional_args_edit f))
     = Py.no_space (additional_args_edit f).
Proof.
  split; [|split].
  - unfold build_cmd.
    destruct (Py.is_empty (Py.strip (additional_args_edit f))) eqn:He.
    + apply PyFacts.is_empty_true in He.
      rewrite <- (PyFacts.split_strip (additional_args_edit f)), He.
      reflexivity.
    + rewrite PyFacts.split_strip; reflexivity.
  - eapply Forall_impl; [|apply PyFacts.split_from_tokens; reflexivity].
    intros t [Hs He]; split; [exact Hs|].
    intro; subst; discriminate.
  - unfold Py.split. rewrite PyFacts.flatten_split_from. reflexivity.
Qed.

(** ** Refused starts and stops *)

(** A start that violates a precondition reports the first one violated and
    does nothing else. *)
Lemma start_server_refused (w : World) (g : LlamaServerGUI) (e : Effect) :
  first_violation (preconditions w g) = Some e ->
  start_server w g = (g, [e]).
Proof.
  unfold preconditions, file_preconditions, start_server, binary_path,
    model_path, emit; simpl.
  destruct (Py.is_empty (Py.strip (binary_path_edit (form g)))); simpl;
    [intro H; inversion H; reflexivity|].
  destruct (path_exists w (Py.strip (binary_path_edit (form g)))); simpl;
    [|intro H; inversion H; reflexivity].
  destruct (Py.is_empty (Py.strip (model_path_edit (form g)))); simpl;
    [intro H; inversion H; reflexivity|].
  destruct (path_exists w (Py.strip (model_path_edit (form g)))); simpl;
    [|intro H; inversion H; reflexivity].
  destruct (is_running w g); simpl;
    [intro H; inversion H; reflexivity | discriminate].
Qed.

Lemma first_violation_app_l (l l' : list (bool * Effect)) (e : Effect) :
  first_violation l = Some e -> first_violation (l ++ l') = Some e.
Proof.
  induction l as [|[b x] l IH]; simpl; [discriminate|].
  destruct b; auto.
Qed.

Lemma first_violation_In (l : list (bool * Effect)) (e : Effect) :
  first_violation l = Some e -> In (false, e) l.
Proof.
  induction l as [|[b x] l IH]; simpl; [discriminate|].
  destruct b; [auto | intro H; inversion H; auto].
Qed.

(** A missing file violates one of the preconditions on the files. *)
Lemma file_violation (w : World) (g : LlamaServerGUI) :
  references_file w (binary_path g) = false
  \/ references_file w (model_path g) = false ->
  exists e, first_violation (file_preconditions w g) = Some e.
Proof.
  unfold references_file, file_preconditions; simpl.
  destruct (Py.is_empty (binary_path g)); simpl; [eauto|].
  destruct (path_exists w (binary_path g)); simpl; [|eauto].
  destruct (Py.is_empty (model_path g)); simpl; [eauto|].
  destruct (path_exists w (model_path g)); simpl; [|eauto].
  intros [H|H]; discriminate.
Qed.

(** With both files there, no precondition on the files is violated. *)
Lemma no_file_violation (w : World) (g : LlamaServerGUI) :
  references_file w (binary_path g) = true ->
  references_file w (model_path g) = true ->
  first_violation (file_preconditions w g) = None.
Proof.
  unfold references_file, file_preconditions; simpl.
  intros H1 H2.
  apply andb_true_iff in H1 as [H1 H1'], H2 as [H2 H2'].
  rewrite H1, H1', H2, H2'; reflexivity.
Qed.

Lemma first_violation_app_r (l l' : list (bool * Effect)) :
  first_violation l = None ->
  first_violation (l ++ l') = first_violation l'.
Proof.
  induction l as [|[b x] l IH]; simpl; [reflexivity|].
  destruct b; [auto | discriminate].
Qed.

(** Every error of a precondition is a warning dialog. *)
Lemma preconditions_warn (w : World) (g : LlamaServerGUI) (x : bool * Effect) :
  In x (preconditions w g) -> is_spawn (snd x) = false.
Proof.
  unfold preconditions, file_preconditions; simpl.
  intros [<-|[<-|[<-|[<-|[<-|[]]]]]]; reflexivity.
Qed.

(** C5, as stated, fails: with the server running and the binary field
    empty, the start is refused for the binary, not for the running server. *)
Lemma C5_other_error_first :
  is_running world_alive gui_running = true
  /\ snd (start_server world_alive gui_running)
     = [MsgWarning "Error" "Please select a server binary"]
  /\ ~ In already_running_error (snd (start_server world_alive gui_running)).
Proof.
  repeat split; try reflexivity.
  simpl; intros [H|[]]; discriminate.
Qed.

(** C5 (amended): while a live process is held, every start fails with one
    warning, spawns nothing and leaves every field as it was.  The warning is
    the one of the first violated precondition: "Server is already running"
    when both files are there, and else the error of the first check on the
    files that fails. *)
Theorem C5_start_while_running (w : World) (g : LlamaServerGUI) :
  is_running w g = true ->
  exists e,
    first_violation (preconditions w g) = Some e
    /\ start_server w g = (g, [e])
    /\ is_spawn e = false
    /\ (references_file w (binary_path g) = true ->
        references_file w (model_path g) = true ->
        e = already_running_error)
    /\ (references_file w (binary_path g) = false
        \/ references_file w (model_path g) = false ->
        first_violation (file_preconditions w g) = Some e).
Proof.
  intro Hrun.
  assert (Hv : exists e, first_violation (preconditions w g) = Some e).
  { unfold preconditions.
    destruct (first_violation (file_preconditions w g)) as [e|] eqn:Hf.
    - exists e. apply first_violation_app_l; assumption.
    - rewrite first_violation_app_r by assumption.
      simpl; rewrite Hrun; simpl; eauto. }
  destruct Hv as [e He]. exists e.
  split; [exact He|]. split; [apply start_server_refused; exact He|].
  split.
  - apply first_violation_In in He.
    exact (preconditions_warn w g _ He).
  - split.
    + intros H1 H2. unfold preconditions in He.
      rewrite first_violation_app_r in He by (apply no_file_violation; auto).
      simpl in He; rewrite Hrun in He; simpl in He.
      inversion He; reflexivity.
    + intro H. destruct (file_violation w g H) as [e' He'].
      unfold preconditions in He.
      rewrite (first_violation_app_l _ _ _ He') in He.
      inversion He; subst; exact He'.
Qed.

Lemma C5_start_while_running_witness :
  exists e,
    first_violation (preconditions world_alive gui_running) = Some e
    /\ start_server world_alive gui_running = (gui_running, [e])
    /\ is_spawn e = false
    /\ (references_file world_alive (binary_path gui_running) = true ->
        references_file world_alive (model_path gui_running) = true ->
        e = already_running_error)
    /\ (references_file world_alive (binary_path gui_running) = false
        \/ references_file world_alive (model_path gui_running) = false ->
        first_violation (file_preconditions world_alive gui_running) = Some e).
Proof. apply (C5_start_while_running world_alive gui_running). reflexivity. Defined.

(** C6: when the binary path or the model path names no file that is there,
    the start fails with the error of the first precondition violated, in the
    order binary given, binary there, model given, model there; that error
    is one of the four on the files; nothing is spawned and every field of
    the window is as before, so that an idle supervisor is still idle. *)
Theorem C6_start_missing_file (w : World) (g : LlamaServerGUI) :
  references_file w (binary_path g) = false
  \/ references_file w (model_path g) = false ->
  exists e,
    first_violation (preconditions w g) = Some e
    /\ In (false, e) (file_preconditions w g)
    /\ start_server w g = (g, [e])
    /\ existsb is_spawn (snd (start_server w g)) = false
    /\ server_process (fst (start_server w g)) = server_process g.
Proof.
  intro H. destruct (file_violation w g H) as [e He]. exists e.
  assert (Hp : first_violation (preconditions w g) = Some e)
    by (apply first_violation_app_l; exact He).
  pose proof (start_server_refused w g e Hp) as Hs.
  split; [exact Hp|]. split; [apply first_violation_In; exact He|].
  split; [exact Hs|]. rewrite Hs; simpl. split; [|reflexivity].
  rewrite orb_false_r.
  apply (preconditions_warn w g (false, e)).
  unfold preconditions; apply in_or_app; left.
  apply first_violation_In; exact He.
Qed.

Lemma C6_start_missing_file_witness :
  exists e,
    first_violation (preconditions world_model_only gui_idle) = Some e
    /\ In (false, e) (file_preconditions world_model_only gui_idle)
    /\ start_server world_model_only gui_idle = (gui_idle, [e])
    /\ existsb is_spawn (snd (start_server world_model_only gui_idle)) = false
    /\ server_process (fst (start_server world_model_only gui_idle))
       = server_process gui_idle.
Proof. apply (C6_start_missing_file world_model_only gui_idle). left; reflexivity. Defined.

(** C7: with no handle held, or with the held process already exited, a stop
    fails with the warning "Server is not running", sends no signal, and
    leaves every field the supervision rests on as it was (the two buttons
    are put back in step with the process). *)
Theorem C7_stop_when_not_running (w : World) (g : LlamaServerGUI) :
  is_running w g = false ->
  snd (stop_server w g) = [not_running_error]
  /\ signals (snd (stop_server w g)) = []
  /\ supervision (fst (stop_server w g)) = supervision g
  /\ is_running w (fst (stop_server w g)) = false
  /\ start_btn (fst (stop_server w g)) = true
  /\ stop_btn (fst (stop_server w g)) = false.
Proof.
  unfold is_running, stop_server.
  destruct (server_process g) as [p|] eqn:Hp.
  - destruct (poll w p) as [c|] eqn:Hc; [|discriminate].
    intros _.
    unfold andthen, emit, update_button_states, modify, is_running; simpl.
    rewrite ?Hp, ?Hc; simpl.
    unfold supervision; simpl. rewrite ?Hp, ?Hc. repeat split; reflexivity.
  - intros _.
    unfold andthen, emit, update_button_states, modify, is_running; simpl.
    rewrite ?Hp; simpl.
    unfold supervision; simpl. rewrite ?Hp. repeat split; reflexivity.
Qed.

Lemma C7_stop_when_not_running_witness :
  snd (stop_server world_exited gui_running) = [not_running_error]
  /\ signals (snd (stop_server world_exited gui_running)) = []
  /\ supervision (fst (stop_server world_exited gui_running)) = supervision gui_running
  /\ is_running world_exited (fst (stop_server world_exited gui_running)) = false
  /\ start_btn (fst (stop_server world_exited gui_running)) = true
  /\ stop_btn (fst (stop_server world_exited gui_running)) = false.
Proof. apply (C7_stop_when_not_running world_exited gui_running). reflexivity. Defined.

(** ** Verdicts and signals of a list of effects *)

Lemma verdicts_app (a b : list Effect) :
  verdicts (a ++ b) = verdicts a ++ verdicts b.
Proof.
  induction a as [|e a IH]; simpl; [reflexivity|].
  destruct (verdict_of e); simpl; congruence.
Qed.

Lemma signals_app (a b : list Effect) :
  signals (a ++ b) = signals a ++ signals b.
Proof. apply filter_app. Qed.

Lemma after_prefix_app (p r : string) : after_prefix p (p ++ r) = Some r.
Proof.
  induction p as [|a p IH]; simpl; [destruct r; reflexivity|].
  rewrite Ascii.eqb_refl; exact IH.
Qed.

Lemma before_nl_line (s : string) : before_nl (s ++ Py.nl) = Some s.
Proof.
  induction s as [|a r IH]; [reflexivity|].
  change (String a r ++ Py.nl)%string with (String a (r ++ Py.nl)).
  simpl. rewrite IH.
  destruct r; reflexivity.
Qed.

(** Reading back the decimal written by [str]. *)
Lemma int_of_str (n : Z) :
  option_map Z.of_int (NilZero.int_of_string (Py.str n)) = Some n.
Proof.
  unfold Py.str.
  destruct (Z.to_int n) as [u|u] eqn:Hn; destruct u;
    try (rewrite NilZero.isi by discriminate;
         cbn [option_map]; rewrite <- Hn, DecimalZ.of_to; reflexivity).
  - rewrite NilZero.isi_posnil; cbn [option_map].
    rewrite <- (DecimalZ.of_to n), Hn; reflexivity.
  - rewrite NilZero.isi_negnil; cbn [option_map].
    rewrite <- (DecimalZ.of_to n), Hn; reflexivity.
Qed.

Lemma verdict_of_crash_log (c : Z) :
  verdict_of (LogAppend (crash_log c)) = Some (CrashedWithCode c).
Proof.
  unfold verdict_of, crash_log.
  remember (Py.str c) as d eqn:Hd.
  cbn -[before_nl NilZero.int_of_string].
  change (String "010" "") with Py.nl.
  rewrite before_nl_line. subst d.
  pose proof (int_of_str c) as H.
  destruct (NilZero.int_of_string (Py.str c)) as [i|]; simpl in *;
    congruence.
Qed.

(** ** The stop timer *)

Lemma run_modify (f : LlamaServerGUI -> LlamaServerGUI) (h : Handler)
    (g : LlamaServerGUI) :
  (modify f ;; h) g = h (f g).
Proof. unfold andthen, modify. destruct (h (f g)); reflexivity. Qed.

Lemma run_emit (e : Effect) (h : Handler) (g : LlamaServerGUI) :
  (emit e ;; h) g = (fst (h g), e :: snd (h g)).
Proof. unfold andthen, emit. destruct (h g); reflexivity. Qed.

(** After its log line, [cleanup_after_stop] reports nothing more, sends no
    signal, and releases the handle and the reader. *)
Lemma cleanup_after_stop_spec (w : World) (message : string)
    (g : LlamaServerGUI) :
  verdicts (snd (cleanup_after_stop w message g))
  = verdicts [LogAppend message]
  /\ signals (snd (cleanup_after_stop w message g)) = []
  /\ server_process (fst (cleanup_after_stop w message g)) = None
  /\ output_reader (fst (cleanup_after_stop w message g)) = None
  /\ stop_timer (fst (cleanup_after_stop w message g)) = stop_timer g
  /\ single_shots (fst (cleanup_after_stop w message g)) = single_shots g
  /\ health_check_timer (fst (cleanup_after_stop w message g))
     = health_check_timer g.
Proof.
  unfold cleanup_after_stop, andthen, emit, modify, pass,
    update_button_states.
  cbn -[verdict_of].
  destruct (output_reader g) eqn:Hr; cbn -[verdict_of];
    destruct (verdict_of (LogAppend message)); rewrite ?Hr;
    repeat split; reflexivity.
Qed.

(** A timeout of the stop timer that finds the process exited. *)
Lemma check_server_stopped_exited (w : World) (g : LlamaServerGUI)
    (p : Popen) (a : nat) (c : Z) :
  escalating p a g -> poll w p = Some c ->
  verdicts (snd (check_server_stopped w g)) = [StoppedGracefully]
  /\ signals (snd (check_server_stopped w g)) = []
  /\ stop_timer (fst (check_server_stopped w g)) = Some false
  /\ server_process (fst (check_server_stopped w g)) = None
  /\ single_shots (fst (check_server_stopped w g)) = [].
Proof.
  intros (Hp & Ht & Ha & Hs) Hc.
  unfold check_server_stopped. rewrite Hp, Hc, run_modify.
  set (g1 := set_stop_timer (stopped (stop_timer g)) g).
  destruct (cleanup_after_stop_spec w stopped_msg g1)
    as (Hv & Hsig & Hproc & _ & Htim & Hshots & _).
  destruct (cleanup_after_stop w stopped_msg g1) as [g2 e2]; simpl in *.
  subst g1; simpl in *. rewrite Ht in Htim. rewrite Hs in Hshots.
  repeat split; assumption.
Qed.

(** A timeout that finds it running, short of the bound. *)
Lemma check_server_stopped_waiting (w : World) (g : LlamaServerGUI)
    (p : Popen) (a : nat) :
  escalating p a g -> poll w p = None -> a + 1 < 25 ->
  snd (check_server_stopped w g) = []
  /\ escalating p (a + 1) (fst (check_server_stopped w g)).
Proof.
  intros (Hp & Ht & Ha & Hs) Hc Hlt.
  unfold check_server_stopped, escalating. rewrite Hp, Hc.
  unfold andthen, modify, pass; cbn -[Nat.leb]. rewrite Ha.
  destruct (Nat.leb_spec 25 (a + 1)) as [H|H]; [lia|].
  simpl. repeat split; assumption.
Qed.

(** A timeout that finds it running at the bound: the kill, and the delayed
    call. *)
Lemma check_server_stopped_bound (w : World) (g : LlamaServerGUI)
    (p : Popen) (a : nat) :
  escalating p a g -> poll w p = None -> 25 <= a + 1 ->
  verdicts (snd (check_server_stopped w g)) = []
  /\ signals (snd (check_server_stopped w g)) = [Kill p]
  /\ stop_timer (fst (check_server_stopped w g)) = Some false
  /\ server_process (fst (check_server_stopped w g)) = Some p
  /\ single_shots (fst (check_server_stopped w g)) = [killed_msg].
Proof.
  intros (Hp & Ht & Ha & Hs) Hc Hge.
  unfold check_server_stopped. rewrite Hp, Hc.
  unfold andthen, modify, pass, emit; cbn -[Nat.leb]. rewrite Ha.
  destruct (Nat.leb_spec 25 (a + 1)) as [H|H]; [|lia].
  simpl. rewrite Ht, Hs, Hp. repeat split; reflexivity.
Qed.

(** A timer that is not active calls nothing. *)
Lemma QTimer_run_inactive (timer : LlamaServerGUI -> option bool)
    (slot : World -> Handler) (ws : nat -> World) (n k : nat)
    (g : LlamaServerGUI) :
  active (timer g) = false -> QTimer_run timer slot ws k n g = (g, []).
Proof.
  revert k; induction n as [|n IH]; intros k H; simpl; [reflexivity|].
  unfold andthen. rewrite H. unfold pass at 1. rewrite IH by assumption.
  reflexivity.
Qed.

(** An active timer calls its slot, and goes on from there. *)
Lemma QTimer_run_step (timer : LlamaServerGUI -> option bool)
    (slot : World -> Handler) (ws : nat -> World) (n k : nat)
    (g : LlamaServerGUI) :
  active (timer g) = true ->
  QTimer_run timer slot ws k (S n) g
  = (fst (QTimer_run timer slot ws (S k) n (fst (slot (ws k) g))),
     snd (slot (ws k) g)
     ++ snd (QTimer_run timer slot ws (S k) n (fst (slot (ws k) g)))).
Proof.
  intro H. cbn [QTimer_run]. unfold andthen. rewrite H.
  destruct (slot (ws k) g) as [g1 e1]; cbn [fst snd].
  destruct (QTimer_run timer slot ws (S k) n g1); reflexivity.
Qed.

Lemma exits_within_spec (ws : nat -> World) (p : Popen) (m k : nat) :
  exits_within ws p k m = true
  <-> exists i, i < m /\ poll (ws (k + i)) p <> None.
Proof.
  revert k; induction m as [|m IH]; intro k; simpl.
  - split; [discriminate | intros (i & Hi & _); lia].
  - destruct (poll (ws k) p) as [c|] eqn:Hc.
    + split; [intros _|reflexivity].
      exists 0; split; [lia|]. rewrite Nat.add_0_r, Hc; discriminate.
    + rewrite IH. split; intros (i & Hi & Hx).
      * exists (S i); split; [lia|].
        replace (k + S i) with (S k + i) by lia; exact Hx.
      * destruct i as [|i].
        -- rewrite Nat.add_0_r in Hx; congruence.
        -- exists i; split; [lia|].
           replace (S k + i) with (k + S i) by lia; exact Hx.
Qed.

(** The timeouts of the stop timer from a state with [25 - m] attempts
    counted: a graceful verdict if the process shows as exited at one of the
    next [m] of them, and else the kill at the last of these, with the delayed
    call left pending. *)
Lemma stop_timer_run (ws : nat -> World) (p : Popen) (m : nat) :
  forall (k n a : nat) (g : LlamaServerGUI),
    escalating p a g -> a + m = 25 -> 0 < m -> m <= n ->
    let r := QTimer_run stop_timer check_server_stopped ws k n g in
    stop_timer (fst r) = Some false
    /\ if exits_within ws p k m
       then verdicts (snd r) = [StoppedGracefully]
            /\ signals (snd r) = []
            /\ server_process (fst r) = None
            /\ single_shots (fst r) = []
       else verdicts (snd r) = []
            /\ signals (snd r) = [Kill p]
            /\ server_process (fst r) = Some p
            /\ single_shots (fst r) = [killed_msg].
Proof.
  induction m as [|m IH]; intros k n a g Hg Ham Hm Hn; [lia|].
  destruct n as [|n]; [lia|].
  pose proof Hg as (Hp & Ht & Ha & Hs).
  cbv zeta. rewrite QTimer_run_step by (rewrite Ht; reflexivity).
  cbn [exits_within fst snd].
  destruct (poll (ws k) p) as [c|] eqn:Hc.
  - destruct (check_server_stopped_exited (ws k) g p a c Hg Hc)
      as (Hv & Hsig & Htim & Hproc & Hshots).
    rewrite QTimer_run_inactive by (rewrite Htim; reflexivity).
    cbn [fst snd]. rewrite app_nil_r. repeat split; assumption.
  - destruct m as [|m].
    + destruct (check_server_stopped_bound (ws k) g p a Hg Hc ltac:(lia))
        as (Hv & Hsig & Htim & Hproc & Hshots).
      rewrite QTimer_run_inactive by (rewrite Htim; reflexivity).
      cbn [fst snd exits_within]. rewrite app_nil_r.
      repeat split; assumption.
    + destruct (check_server_stopped_waiting (ws k) g p a Hg Hc ltac:(lia))
        as (He & Hg1).
      rewrite He. cbn [app].
      exact (IH (S k) n (a + 1) _ Hg1 ltac:(lia) ltac:(lia) ltac:(lia)).
Qed.

Lemma run_andthen (h1 h2 : Handler) (g : LlamaServerGUI) :
  (h1 ;; h2) g
  = (fst (h2 (fst (h1 g))), snd (h1 g) ++ snd (h2 (fst (h1 g)))).
Proof.
  unfold andthen. destruct (h1 g) as [g1 e1]; cbn [fst snd].
  destruct (h2 g1); reflexivity.
Qed.

(** A stop on a live process: the terminate signal, no verdict yet, and the
    stop timer started from zero. *)
Lemma stop_server_running (w : World) (g : LlamaServerGUI) (p : Popen) :
  server_process g = Some p -> poll w p = None -> single_shots g = [] ->
  verdicts (snd (stop_server w g)) = []
  /\ signals (snd (stop_server w g)) = [Terminate p]
  /\ escalating p 0 (fst (stop_server w g))
  /\ active (health_check_timer (fst (stop_server w g))) = false.
Proof.
  intros Hp Hc Hs. unfold stop_server, escalating. rewrite Hp, Hc.
  unfold andthen, emit, modify, pass.
  destruct (output_reader g) eqn:Hr; simpl; rewrite Hr; simpl;
    rewrite ?Hp, ?Hs; destruct (health_check_timer g);
    repeat split; reflexivity.
Qed.

(** The delayed call of a forced stop, when it fires. *)
Lemma fire_killed_shot (w : World) (g : LlamaServerGUI) :
  single_shots g = [killed_msg] ->
  let r := fire_single_shots w (List.length (single_shots g)) g in
  verdicts (snd r) = [StoppedForcibly]
  /\ signals (snd r) = []
  /\ server_process (fst r) = None
  /\ single_shots (fst r) = []
  /\ stop_timer (fst r) = stop_timer g.
Proof.
  intro Hs. cbv zeta. rewrite Hs. cbn [List.length fire_single_shots].
  rewrite run_andthen. unfold pass at 1 2 3 4 5. cbn [fst snd].
  rewrite app_nil_r. unfold fire_single_shot. rewrite Hs, run_modify.
  destruct (cleanup_after_stop_spec w killed_msg (set_single_shots [] g))
    as (Hv & Hsig & Hproc & _ & Htim & Hshots & _).
  repeat split; assumption.
Qed.

(** X23: for a stop that finds no delayed cleanup of an earlier stop still
    to come: a stop on a running process, followed by at least 25 intervals of
    the stop timer and by the delayed calls, yields exactly one verdict.  It
    is the graceful one when the process shows as exited at one of the 25
    timeouts, and then only the terminate signal was sent; it is the forced
    one otherwise, and then the kill was sent after the terminate.  Either
    way the timer has stopped, the handle is released and no call is left
    pending.  The hypothesis on [single_shots] says that no delayed cleanup of
    an earlier stop is still to come. *)
Lemma stop_gives_one_verdict (w0 : World) (ws : nat -> World) (wz : World)
    (g : LlamaServerGUI) (p : Popen) (n : nat) :
  server_process g = Some p -> poll w0 p = None -> single_shots g = [] ->
  25 <= n ->
  let r := stop_sequence w0 ws wz n g in
  (if exits_within ws p 0 25
   then verdicts (snd r) = [StoppedGracefully]
        /\ signals (snd r) = [Terminate p]
   else verdicts (snd r) = [StoppedForcibly]
        /\ signals (snd r) = [Terminate p; Kill p])
  /\ (exits_within ws p 0 25 = true
      <-> exists k, k < 25 /\ poll (ws k) p <> None)
  /\ active (stop_timer (fst r)) = false
  /\ server_process (fst r) = None
  /\ single_shots (fst r) = [].
Proof.
  intros Hp Hc Hs Hn. cbv zeta. unfold stop_sequence.
  destruct (stop_server_running w0 g p Hp Hc Hs) as (Hv0 & Hs0 & Hg0 & _).
  rewrite run_andthen. cbn [fst snd].
  set (g0 := fst (stop_server w0 g)) in *.
  rewrite run_andthen. cbn [fst snd].
  pose proof (stop_timer_run ws p 25 0 n 0 g0 Hg0 eq_refl ltac:(lia) Hn)
    as Hrun.
  cbv zeta in Hrun.
  set (r1 := QTimer_run stop_timer check_server_stopped ws 0 n g0) in *.
  destruct Hrun as (Htim & Hrun).
  rewrite !verdicts_app, !signals_app, Hv0, Hs0.
  split; [|split; [exact (exits_within_spec ws p 25 0)|]].
  - destruct (exits_within ws p 0 25).
    + destruct Hrun as (Hv1 & Hs1 & Hp1 & Hsh1).
      rewrite Hsh1, Hv1, Hs1. cbn. split; reflexivity.
    + destruct Hrun as (Hv1 & Hs1 & Hp1 & Hsh1).
      destruct (fire_killed_shot wz (fst r1) Hsh1) as (Hv2 & Hs2 & _).
      rewrite Hv1, Hs1, Hv2, Hs2. split; reflexivity.
  - destruct (exits_within ws p 0 25).
    + destruct Hrun as (Hv1 & Hs1 & Hp1 & Hsh1).
      rewrite Hsh1. cbn. rewrite Htim, Hp1, Hsh1. repeat split; reflexivity.
    + destruct Hrun as (Hv1 & Hs1 & Hp1 & Hsh1).
      destruct (fire_killed_shot wz (fst r1) Hsh1)
        as (_ & _ & Hp2 & Hsh2 & Ht2).
      rewrite Ht2, Htim, Hp2, Hsh2. repeat split; reflexivity.
Qed.

(** ** The health monitor *)

(** A timeout of the health timer that finds the process exited. *)
Lemma check_server_health_crashed (w : World) (g : LlamaServerGUI)
    (p : Popen) (a : nat) (c : Z) :
  monitoring p a g -> poll w p = Some c ->
  verdicts (snd (check_server_health w g)) = [CrashedWithCode c]
  /\ signals (snd (check_server_health w g)) = []
  /\ In (MsgCritical "Server Failed" (crash_dialog c))
        (snd (check_server_health w g))
  /\ health_check_timer (fst (check_server_health w g)) = Some false
  /\ server_process (fst (check_server_health w g)) = None
  /\ output_reader (fst (check_server_health w g)) = None.
Proof.
  intros (Hp & Ht & Ha) Hc.
  unfold check_server_health. rewrite Hp, Hc, run_modify, run_emit.
  cbn [fst snd verdicts signals filter is_signal].
  rewrite verdict_of_crash_log.
  unfold andthen, emit, modify, pass, update_button_states.
  destruct (output_reader g) eqn:Hr; cbn -[crash_dialog]; rewrite Hr;
    cbn -[crash_dialog]; rewrite ?Ht, ?Hr; repeat split; auto.
Qed.

(** A timeout that finds it running, short of the bound. *)
Lemma check_server_health_waiting (w : World) (g : LlamaServerGUI)
    (p : Popen) (a : nat) :
  monitoring p a g -> poll w p = None -> a + 1 < 6 ->
  snd (check_server_health w g) = []
  /\ monitoring p (a + 1) (fst (check_server_health w g)).
Proof.
  intros (Hp & Ht & Ha) Hc Hlt.
  unfold check_server_health, monitoring. rewrite Hp, Hc.
  unfold andthen, modify, pass; cbn -[Nat.leb]. rewrite Ha.
  destruct (Nat.leb_spec 6 (a + 1)) as [H|H]; [lia|].
  simpl. repeat split; assumption.
Qed.

(** A timeout that finds it running at the bound. *)
Lemma check_server_health_stable (w : World) (g : LlamaServerGUI)
    (p : Popen) (a : nat) :
  monitoring p a g -> poll w p = None -> 6 <= a + 1 ->
  verdicts (snd (check_server_health w g)) = [Stable]
  /\ signals (snd (check_server_health w g)) = []
  /\ health_check_timer (fst (check_server_health w g)) = Some false
  /\ server_process (fst (check_server_health w g)) = Some p
  /\ health_check_attempts (fst (check_server_health w g)) = a + 1.
Proof.
  intros (Hp & Ht & Ha) Hc Hge.
  unfold check_server_health. rewrite Hp, Hc.
  unfold andthen, modify, pass, emit; cbn -[Nat.leb]. rewrite Ha.
  destruct (Nat.leb_spec 6 (a + 1)) as [H|H]; [|lia].
  simpl. rewrite Ht, Hp. repeat split; reflexivity.
Qed.

(** While the process runs and the bound is not reached, the timeouts count
    and do nothing else. *)
Lemma health_run_waiting (ws : nat -> World) (p : Popen) (k : nat) :
  forall (j a : nat) (g : LlamaServerGUI),
    monitoring p a g -> a + k < 6 ->
    (forall i, i < k -> poll (ws (j + i)) p = None) ->
    snd (QTimer_run health_check_timer check_server_health ws j k g) = []
    /\ monitoring p (a + k)
         (fst (QTimer_run health_check_timer check_server_health ws j k g)).
Proof.
  induction k as [|k IH]; intros j a g Hg Hak Hrun.
  - cbn. rewrite Nat.add_0_r. split; [reflexivity | exact Hg].
  - pose proof Hg as (Hp & Ht & Ha).
    rewrite QTimer_run_step by (rewrite Ht; reflexivity). cbn [fst snd].
    assert (Hc : poll (ws j) p = None).
    { rewrite <- (Nat.add_0_r j). apply Hrun; lia. }
    destruct (check_server_health_waiting (ws j) g p a Hg Hc ltac:(lia))
      as (He & Hg1).
    rewrite He. cbn [app].
    replace (a + S k) with (a + 1 + k) by lia.
    apply IH; [exact Hg1 | lia |].
    intros i Hi. replace (S j + i) with (j + S i) by lia. apply Hrun; lia.
Qed.

Lemma health_run_split (ws : nat -> World) (n m : nat) :
  forall (j : nat) (g : LlamaServerGUI),
    QTimer_run health_check_timer check_server_health ws j (n + m) g
    = (QTimer_run health_check_timer check_server_health ws j n ;;
       QTimer_run health_check_timer check_server_health ws (j + n) m) g.
Proof.
  induction n as [|n IH]; intros j g.
  - cbn [Nat.add QTimer_run]. rewrite Nat.add_0_r.
    unfold andthen, pass.
    destruct (QTimer_run health_check_timer check_server_health ws j m g);
      reflexivity.
  - cbn [Nat.add QTimer_run].
    rewrite !run_andthen. cbn [fst snd].
    rewrite IH, !run_andthen. cbn [fst snd].
    replace (S j + n) with (j + S n) by lia.
    rewrite app_assoc. reflexivity.
Qed.

(** C2: the health timer is running on a held process with attempts left; the
    process shows as running at the first [k] timeouts and as exited with code
    [c] at the next one.  Then nothing is reported before that timeout, and
    whatever the number [n > k] of intervals considered, the run reports
    exactly one verdict, [CrashedWithCode c] (so no [Stable]), shows the crash
    dialog for [c], sends no signal, and ends with the timer stopped (it
    stops at that timeout already) and the handle released. *)
Theorem C2_crash_verdict (ws : nat -> World) (g : LlamaServerGUI)
    (p : Popen) (a k n : nat) (c : Z) :
  monitoring p a g -> a + k < 6 ->
  (forall i, i < k -> poll (ws i) p = None) ->
  poll (ws k) p = Some c ->
  k < n ->
  snd (health_run ws k g) = []
  /\ active (health_check_timer (fst (health_run ws (S k) g))) = false
  /\ verdicts (snd (health_run ws n g)) = [CrashedWithCode c]
  /\ signals (snd (health_run ws n g)) = []
  /\ In (MsgCritical "Server Failed" (crash_dialog c)) (snd (health_run ws n g))
  /\ active (health_check_timer (fst (health_run ws n g))) = false
  /\ server_process (fst (health_run ws n g)) = None.
Proof.
  intros Hg Hak Hrun Hc Hn. unfold health_run.
  destruct (health_run_waiting ws p k 0 a g Hg Hak Hrun) as (He & Hgk).
  split; [exact He|].
  assert (Hfrom : forall m, 0 < m ->
    let r := QTimer_run health_check_timer check_server_health ws 0 (k + m) g in
    verdicts (snd r) = [CrashedWithCode c]
    /\ signals (snd r) = []
    /\ In (MsgCritical "Server Failed" (crash_dialog c)) (snd r)
    /\ active (health_check_timer (fst r)) = false
    /\ server_process (fst r) = None).
  { intros m Hm. cbv zeta. rewrite health_run_split, run_andthen.
    cbn [fst snd]. rewrite He. cbn [app Nat.add].
    set (gk := fst (QTimer_run health_check_timer check_server_health
                      ws 0 k g)) in *.
    destruct m as [|m]; [lia|].
    pose proof Hgk as (Hpk & Htk & Hak').
    rewrite QTimer_run_step by (rewrite Htk; reflexivity). cbn [fst snd].
    destruct (check_server_health_crashed (ws k) gk p (a + k) c Hgk Hc)
      as (Hv & Hs & Hd & Htim & Hproc & _).
    rewrite QTimer_run_inactive by (rewrite Htim; reflexivity).
    cbn [fst snd]. rewrite app_nil_r, Htim.
    repeat split; assumption. }
  split.
  - replace (S k) with (k + 1) by lia. apply (Hfrom 1); lia.
  - replace n with (k + (n - k)) by lia. apply Hfrom; lia.
Qed.

(** C3: the health timer is running on a held process with [a < 6] attempts
    counted, and the process shows as running at the next [6 - a] timeouts.
    Then the run reports nothing and keeps ticking before the last of these,
    and at that one it reports [Stable] and stops: whatever the number
    [n >= 6 - a] of intervals considered, the run has exactly one verdict,
    [Stable], has sent no signal, and ends with the timer stopped, the
    counter at 6 and the process still held. *)
Theorem C3_stable_verdict (ws : nat -> World) (g : LlamaServerGUI)
    (p : Popen) (a n : nat) :
  monitoring p a g -> a < 6 ->
  (forall i, i < 6 - a -> poll (ws i) p = None) ->
  6 - a <= n ->
  snd (health_run ws (6 - a - 1) g) = []
  /\ active (health_check_timer (fst (health_run ws (6 - a - 1) g))) = true
  /\ verdicts (snd (health_run ws n g)) = [Stable]
  /\ signals (snd (health_run ws n g)) = []
  /\ active (health_check_timer (fst (health_run ws n g))) = false
  /\ health_check_attempts (fst (health_run ws n g)) = 6
  /\ server_process (fst (health_run ws n g)) = Some p.
Proof.
  intros Hg Ha Hrun Hn. unfold health_run.
  destruct (health_run_waiting ws p (6 - a - 1) 0 a g Hg ltac:(lia))
    as (He & Hgk).
  { intros i Hi. apply Hrun; lia. }
  split; [exact He|].
  pose proof Hgk as (Hpk & Htk & Hak).
  split; [rewrite Htk; reflexivity|].
  replace n with ((6 - a - 1) + S (n - (6 - a))) by lia.
  rewrite health_run_split, run_andthen. cbn [fst snd].
  rewrite He. cbn [app Nat.add].
  set (gk := fst (QTimer_run health_check_timer check_server_health
                    ws 0 (6 - a - 1) g)) in *.
  rewrite QTimer_run_step by (rewrite Htk; reflexivity). cbn [fst snd].
  assert (Hc : poll (ws (6 - a - 1)) p = None) by (apply Hrun; lia).
  destruct (check_server_health_stable (ws (6 - a - 1)) gk p
              (a + (6 - a - 1)) Hgk Hc ltac:(lia))
    as (Hv & Hs & Htim & Hproc & Hatt).
  rewrite QTimer_run_inactive by (rewrite Htim; reflexivity).
  cbn [fst snd]. rewrite app_nil_r, Htim, Hatt.
  repeat split; try assumption; try reflexivity. lia.
Qed.


(** ** Leaving with the server running *)

(** Declining to leave (minimize to tray, or cancel) sends nothing to the
    child. *)
Lemma closeEvent_declined (w : World) (g : LlamaServerGUI)
    (reply : StandardButton) :
  reply <> No ->
  signals (snd (closeEvent w reply g)) = []
  /\ fst (closeEvent w reply g) = g.
Proof.
  intro H. unfold closeEvent.
  destruct (server_process g) as [p|]; [|split; reflexivity].
  destruct (poll w p); [split; reflexivity|].
  destruct reply; [split; reflexivity | congruence | split; reflexivity].
Qed.

(** C9: with the server running, quitting the application, and closing the
    window with the answer "No - Stop server and quit", send the child the
    kill signal and no other, in the handler itself; no verdict is reported,
    the stop timer is not started and no delayed cleanup is scheduled: its
    fields and the handle are as before. *)
Theorem C9_quit_kills_at_once (w : World) (g : LlamaServerGUI) (p : Popen) :
  server_process g = Some p -> poll w p = None ->
  (signals (snd (quit_application w g)) = [Kill p]
   /\ verdicts (snd (quit_application w g)) = []
   /\ In AppQuit (snd (quit_application w g))
   /\ stop_timer (fst (quit_application w g)) = stop_timer g
   /\ stop_attempts (fst (quit_application w g)) = stop_attempts g
   /\ single_shots (fst (quit_application w g)) = single_shots g
   /\ server_process (fst (quit_application w g)) = Some p)
  /\ (signals (snd (closeEvent w No g)) = [Kill p]
      /\ verdicts (snd (closeEvent w No g)) = []
      /\ In EventAccept (snd (closeEvent w No g))
      /\ stop_timer (fst (closeEvent w No g)) = stop_timer g
      /\ stop_attempts (fst (closeEvent w No g)) = stop_attempts g
      /\ single_shots (fst (closeEvent w No g)) = single_shots g
      /\ server_process (fst (closeEvent w No g)) = Some p).
Proof.
  intros Hp Hc. unfold quit_application, closeEvent.
  rewrite run_andthen, Hp, Hc.
  unfold andthen, emit, modify, pass.
  destruct (output_reader g) eqn:Hr; simpl; rewrite ?Hr; simpl;
    rewrite ?Hp; repeat split; auto 10.
Qed.

Lemma C9_quit_kills_at_once_witness :
  (signals (snd (quit_application world_alive gui_running)) = [Kill 4242]
   /\ verdicts (snd (quit_application world_alive gui_running)) = []
   /\ In AppQuit (snd (quit_application world_alive gui_running))
   /\ stop_timer (fst (quit_application world_alive gui_running)) = stop_timer gui_running
   /\ stop_attempts (fst (quit_application world_alive gui_running))
      = stop_attempts gui_running
   /\ single_shots (fst (quit_application world_alive gui_running))
      = single_shots gui_running
   /\ server_process (fst (quit_application world_alive gui_running)) = Some 4242)
  /\ (signals (snd (closeEvent world_alive No gui_running)) = [Kill 4242]
      /\ verdicts (snd (closeEvent world_alive No gui_running)) = []
      /\ In EventAccept (snd (closeEvent world_alive No gui_running))
      /\ stop_timer (fst (closeEvent world_alive No gui_running)) = stop_timer gui_running
      /\ stop_attempts (fst (closeEvent world_alive No gui_running))
         = stop_attempts gui_running
      /\ single_shots (fst (closeEvent world_alive No gui_running))
         = single_shots gui_running
      /\ server_process (fst (closeEvent world_alive No gui_running)) = Some 4242).
Proof.
  apply (C9_quit_kills_at_once world_alive gui_running 4242); reflexivity.
Defined.

(** ** Sample runs of the two timers *)

Lemma stop_gives_one_verdict_witness :
  let r := stop_sequence world_alive (fun _ => world_alive) world_alive 25 gui_running in
  (if exits_within (fun _ => world_alive) 4242 0 25
   then verdicts (snd r) = [StoppedGracefully]
        /\ signals (snd r) = [Terminate 4242]
   else verdicts (snd r) = [StoppedForcibly]
        /\ signals (snd r) = [Terminate 4242; Kill 4242])
  /\ (exits_within (fun _ => world_alive) 4242 0 25 = true
      <-> exists k, k < 25 /\ poll ((fun _ => world_alive) k) 4242 <> None)
  /\ active (stop_timer (fst r)) = false
  /\ server_process (fst r) = None
  /\ single_shots (fst r) = [].
Proof.
  apply (stop_gives_one_verdict world_alive (fun _ => world_alive) world_alive gui_running
           4242 25); [reflexivity | reflexivity | reflexivity | lia].
Defined.

(** C1 fails on the code when a stop follows a restart made inside the
    half second between a forced kill and its delayed cleanup.  The cleanup
    scheduled for the first child fires after the second Stop and releases the
    handle of the second child, which was only sent the terminate signal; the
    one verdict of the run is the forced one of the first Stop; the second
    Stop gets none: at its first timeout [check_server_stopped], which has no
    test for a released handle (as [check_server_health] has), raises
    [AttributeError], and the stop timer is left running. *)
Theorem C1_stale_cleanup_breaks_second_stop :
  let r := run_events session_restart_in_delay gui_ready in
  verdicts (snd r) = [StoppedForcibly]
  /\ signals (snd r) = [Terminate 1; Kill 1; Terminate 2]
  /\ filter is_unhandled (snd r) = [Unhandled "AttributeError"]
  /\ last (snd r) (Unhandled "") = Unhandled "AttributeError"
  /\ server_process (fst r) = None
  /\ active (stop_timer (fst r)) = true.
Proof. vm_compute. repeat split; reflexivity. Qed.

Lemma C2_crash_verdict_witness :
  snd (health_run worlds_crash 2 gui_started) = []
  /\ active (health_check_timer (fst (health_run worlds_crash 3 gui_started)))
     = false
  /\ verdicts (snd (health_run worlds_crash 6 gui_started))
     = [CrashedWithCode 1]
  /\ signals (snd (health_run worlds_crash 6 gui_started)) = []
  /\ In (MsgCritical "Server Failed" (crash_dialog 1))
        (snd (health_run worlds_crash 6 gui_started))
  /\ active (health_check_timer (fst (health_run worlds_crash 6 gui_started)))
     = false
  /\ server_process (fst (health_run worlds_crash 6 gui_started)) = None.
Proof.
  apply (C2_crash_verdict worlds_crash gui_started 4242 0 2 6 1%Z).
  - repeat split; reflexivity.
  - lia.
  - intros i Hi. destruct i as [|[|i]]; [reflexivity | reflexivity | lia].
  - reflexivity.
  - lia.
Defined.

Lemma C3_stable_verdict_witness :
  snd (health_run (fun _ => world_alive) (6 - 0 - 1) gui_started) = []
  /\ active (health_check_timer
               (fst (health_run (fun _ => world_alive) (6 - 0 - 1) gui_started)))
     = true
  /\ verdicts (snd (health_run (fun _ => world_alive) 6 gui_started)) = [Stable]
  /\ signals (snd (health_run (fun _ => world_alive) 6 gui_started)) = []
  /\ active (health_check_timer
               (fst (health_run (fun _ => world_alive) 6 gui_started))) = false
  /\ health_check_attempts
       (fst (health_run (fun _ => world_alive) 6 gui_started)) = 6
  /\ server_process (fst (health_run (fun _ => world_alive) 6 gui_started))
     = Some 4242.
Proof.
  apply (C3_stable_verdict (fun _ => world_alive) gui_started 4242 0 6).
  - repeat split; reflexivity.
  - lia.
  - intros; reflexivity.
  - lia.
Defined.

(** ** The reader thread: every line once *)

Module ReaderFacts.
Import ServerOutputReader.

Lemma of_stream_app {A : Type} (s : Stream) (a b : list (Stream * A)) :
  of_stream s (a ++ b) = of_stream s a ++ of_stream s b.
Proof.
  induction a as [|[s' x] a IH]; simpl; [reflexivity|].
  destruct (stream_eqb s s'); simpl; congruence.
Qed.

Lemma of_stream_tagged (s s' : Stream) (ls : list string) :
  of_stream s (tagged s' ls)
  = if stream_eqb s s' then map Py.strip ls else [].
Proof.
  induction ls as [|l ls IH]; simpl.
  - destruct (stream_eqb s s'); reflexivity.
  - destruct (stream_eqb s s') eqn:E; simpl; congruence.
Qed.

Lemma emit_lines_nonempty (s : Stream) (ls : list string) :
  Forall nonempty ls -> emit_lines s ls = tagged s ls.
Proof.
  induction 1 as [|l ls Hl _ IH]; simpl; [reflexivity|].
  rewrite Hl, IH; reflexivity.
Qed.

(** Every line the text stream hands out has its line end, so none is
    empty. *)
Lemma universal_nonempty (text : string) :
  forall cur, Forall nonempty (universal cur text).
Proof.
  induction text as [|ch rest IH]; intro cur; simpl.
  - destruct (Py.is_empty cur) eqn:E; constructor; [exact E | constructor].
  - destruct (is_lf ch).
    { constructor; [apply PyFacts.line_not_empty | apply IH]. }
    destruct (is_cr ch); [|apply IH].
    destruct rest as [|ch2 rest2].
    { constructor; [apply PyFacts.line_not_empty | constructor]. }
    destruct (is_lf ch2) eqn:E2.
    + constructor; [apply PyFacts.line_not_empty|].
      specialize (IH ""). simpl in IH. rewrite E2 in IH.
      inversion IH; assumption.
    + constructor; [apply PyFacts.line_not_empty | apply IH].
Qed.

Lemma delivered_nonempty (text : string) : Forall nonempty (delivered text).
Proof. apply universal_nonempty. Qed.

(** A text with no line end inside comes out as one line. *)
Lemma universal_one_line (text : string) :
  one_line text = true ->
  forall cur,
    universal cur (text ++ Py.nl) = [(cur ++ text ++ Py.nl)%string].
Proof.
  induction text as [|ch rest IH]; intros H cur.
  - reflexivity.
  - simpl in H. apply andb_prop in H. destruct H as [H Hr].
    apply andb_prop in H. destruct H as [Hlf Hcr].
    apply negb_true_iff in Hlf. apply negb_true_iff in Hcr.
    cbn [append universal]. rewrite Hlf, Hcr.
    rewrite (IH Hr). rewrite PyFacts.append_assoc. reflexivity.
Qed.

Lemma delivered_one_line (text : string) :
  one_line text = true -> delivered text = [(text ++ Py.nl)%string].
Proof. intro H. apply (universal_one_line text H ""). Qed.

Lemma lines_of_app (s : Stream) (a b : list (Stream * string)) :
  lines_of s (a ++ b) = lines_of s a ++ lines_of s b.
Proof.
  unfold lines_of. rewrite of_stream_app, map_app, concat_app. reflexivity.
Qed.

Lemma lines_of_nonempty (s : Stream) (script : list (Stream * string)) :
  Forall nonempty (lines_of s script).
Proof.
  unfold lines_of. induction (of_stream s script) as [|t l IH]; simpl.
  - constructor.
  - apply Forall_app; split; [apply delivered_nonempty | exact IH].
Qed.


Lemma held_write (text : string) (p : Pipe) :
  held (write text p) = held p ++ delivered text.
Proof. unfold held, write; simpl. apply app_assoc. Qed.

Lemma chunk_app (more : option nat) (rest : list string) :
  fst (chunk more rest) ++ snd (chunk more rest) = rest.
Proof.
  destruct more as [n|]; simpl; [apply firstn_skipn | apply app_nil_r].
Qed.

(** A read that returns takes the oldest line held, if there is one, and
    else yields the empty string. *)
Lemma readline_spec (how : Reading) (p : Pipe) (line : string) (p' : Pipe) :
  readline how p = Some (line, p') ->
  (held p = [] /\ line = "" /\ p' = p) \/ held p = line :: held p'.
Proof.
  unfold held, readline.
  destruct (buffered p) as [|l r] eqn:Hb; simpl.
  - destruct how as [more|n]; [|discriminate].
    destruct (in_pipe p) as [|l r] eqn:Hi; intro H; inversion H; subst.
    + left. repeat split; reflexivity.
    + right. simpl. rewrite chunk_app. reflexivity.
  - intro H; inversion H; subst. right; reflexivity.
Qed.

(** A read of a chunk does not raise. *)
Lemma readline_chunk (more : option nat) (p : Pipe) :
  readline (Chunk more) p <> None.
Proof.
  unfold readline. destruct (buffered p); [|discriminate].
  destruct (in_pipe p); discriminate.
Qed.

(** The lines of an iteration are the oldest lines held. *)
Lemma readlines_spec (how : Reading) (p : Pipe) :
  held p = fst (fst (readlines how p)) ++ held (snd (fst (readlines how p))).
Proof.
  unfold held, readlines. destruct how as [more|n]; simpl.
  - rewrite app_nil_r. reflexivity.
  - rewrite <- app_assoc, firstn_skipn. reflexivity.
Qed.

Lemma readlines_chunk (more : option nat) (p : Pipe) :
  readlines (Chunk more) p
  = (held p, {| buffered := []; in_pipe := []; closed := closed p |}, false).
Proof. reflexivity. Qed.

Lemma Inv_start (script : list (Stream * string)) (code : Z) :
  Inv script (start script code).
Proof.
  split; simpl.
  - intros []; reflexivity.
  - intros []; constructor.
  - discriminate.
  - exists []. reflexivity.
Qed.

Lemma Inv_child_step (script : list (Stream * string)) (c : Config) :
  Inv script c -> Inv script (child_step c).
Proof.
  intros HI. pose proof HI as [Hl Hn He [written Hw]]. unfold child_step.
  destruct (exited c) eqn:Hx; [exact HI|].
  destruct (todo c) as [|[[] text] rest] eqn:Ht.
  - split; simpl; try reflexivity.
    + intros s. specialize (Hl s). unfold unseen in *.
      rewrite Ht in Hl. destruct s; exact Hl.
    + intros []; [apply (Hn Stdout) | apply (Hn Stderr)].
    + exists written. exact Hw.
  - split; simpl.
    + intros s. specialize (Hl s). unfold unseen, lines_of in *.
      rewrite Ht in Hl.
      destruct s; simpl in *; [|exact Hl].
      rewrite held_write, !map_app, <- !app_assoc.
      rewrite map_app in Hl. exact Hl.
    + intros []; simpl; [|apply (Hn Stderr)].
      rewrite held_write. apply Forall_app; split;
        [apply (Hn Stdout) | apply delivered_nonempty].
    + discriminate.
    + exists (written ++ [(Stdout, text)]). rewrite <- app_assoc. exact Hw.
  - split; simpl.
    + intros s. specialize (Hl s). unfold unseen, lines_of in *.
      rewrite Ht in Hl.
      destruct s; simpl in *; [exact Hl|].
      rewrite held_write, !map_app, <- !app_assoc.
      rewrite map_app in Hl. exact Hl.
    + intros []; simpl; [apply (Hn Stdout)|].
      rewrite held_write. apply Forall_app; split;
        [apply (Hn Stderr) | apply delivered_nonempty].
    + discriminate.
    + exists (written ++ [(Stderr, text)]). rewrite <- app_assoc. exact Hw.
Qed.

(** Taking lines off the two pipes and emitting each of them keeps the
    account of every stream. *)
Lemma Inv_consume (script : list (Stream * string)) (c c' : Config)
    (outs errs : list string) :
  Inv script c ->
  todo c' = todo c ->
  exited c' = exited c ->
  held (stdout c) = outs ++ held (stdout c') ->
  held (stderr c) = errs ++ held (stderr c') ->
  emitted c' = emitted c ++ tagged Stdout outs ++ tagged Stderr errs ->
  Inv script c'.
Proof.
  intros [Hl Hn Hx Hw] Ht Hex Ho He Hem. split.
  - intros s. specialize (Hl s). unfold unseen in *.
    rewrite Hem, Ht, !of_stream_app, !of_stream_tagged.
    destruct s; simpl in *.
    + rewrite Ho, map_app in Hl. rewrite app_nil_r, <- !app_assoc.
      rewrite <- !app_assoc in Hl. exact Hl.
    + rewrite He, map_app in Hl. rewrite <- !app_assoc.
      rewrite <- !app_assoc in Hl. exact Hl.
  - intros s. specialize (Hn s).
    destruct s; simpl in *.
    + rewrite Ho in Hn. apply Forall_app in Hn. tauto.
    + rewrite He in Hn. apply Forall_app in Hn. tauto.
  - rewrite Hex, Ht. exact Hx.
  - rewrite Ht. exact Hw.
Qed.

Lemma Inv_at_pc (script : list (Stream * string)) (l : Pc) (c : Config) :
  Inv script c -> Inv script (at_pc l c).
Proof. intros [Hl Hn Hx Hw]. split; assumption. Qed.

(** What one read at the [select] emits: nothing, or the oldest line. *)
Lemma read_one (s : Stream) (how : Reading) (p p' : Pipe) (line : string) :
  Forall nonempty (held p) ->
  readline how p = Some (line, p') ->
  exists ls, held p = ls ++ held p' /\ emit_lines s [line] = tagged s ls.
Proof.
  intros Hne Hr. destruct (readline_spec how p line p' Hr) as [(Hh & Hl & Hp)|Hh].
  - subst. exists []. split; reflexivity.
  - exists [line]. split; [exact Hh|].
    rewrite Hh in Hne. inversion Hne as [|? ? Hl _]; subst.
    simpl. rewrite Hl. reflexivity.
Qed.

Lemma Inv_read_stdout (script : list (Stream * string)) (out : Reading)
    (c c1 : Config) :
  Inv script c -> read_stdout out c = Some c1 -> Inv script c1.
Proof.
  intros HI. unfold read_stdout.
  destruct (readable (stdout c)); [|intro H; inversion H; subst; exact HI].
  destruct (readline out (stdout c)) as [[output stdout']|] eqn:Hr;
    [|discriminate].
  intro H; inversion H; subst; clear H.
  destruct (read_one Stdout out (stdout c) stdout' output
              (inv_nonempty script c HI Stdout) Hr) as (ls & Hh & He).
  apply (Inv_consume script c _ ls [] HI);
    cbn [todo exited stdout stderr emitted]; try reflexivity.
  - exact Hh.
  - cbn [emit_lines] in He. rewrite He. cbn [tagged map].
    rewrite app_nil_r. reflexivity.
Qed.

Lemma Inv_read_stderr (script : list (Stream * string)) (err : Reading)
    (c c1 : Config) :
  Inv script c -> read_stderr err c = Some c1 -> Inv script c1.
Proof.
  intros HI. unfold read_stderr.
  destruct (readable (stderr c)); [|intro H; inversion H; subst; exact HI].
  destruct (readline err (stderr c)) as [[error stderr']|] eqn:Hr;
    [|discriminate].
  intro H; inversion H; subst; clear H.
  destruct (read_one Stderr err (stderr c) stderr' error
              (inv_nonempty script c HI Stderr) Hr) as (ls & Hh & He).
  apply (Inv_consume script c _ [] ls HI);
    cbn [todo exited stdout stderr emitted]; try reflexivity.
  - exact Hh.
  - cbn [emit_lines] in He. rewrite He. reflexivity.
Qed.

Lemma Inv_select_and_read (script : list (Stream * string))
    (out err : Reading) (c : Config) :
  Inv script c -> Inv script (select_and_read out err c).
Proof.
  intro HI. unfold select_and_read.
  destruct (read_stdout out c) as [c1|] eqn:H1;
    [|apply Inv_at_pc; exact HI].
  pose proof (Inv_read_stdout script out c c1 HI H1) as HI1.
  destruct (read_stderr err c1) as [c2|] eqn:H2;
    [|apply Inv_at_pc; exact HI1].
  apply Inv_at_pc. exact (Inv_read_stderr script err c1 c2 HI1 H2).
Qed.

Lemma Forall_nonempty_front (a b : list string) :
  Forall nonempty (a ++ b) -> Forall nonempty a.
Proof. intro H. apply Forall_app in H. tauto. Qed.

Lemma Inv_read_remaining_output (script : list (Stream * string))
    (out err : Reading) (c : Config) :
  Inv script c -> Inv script (read_remaining_output out err c).
Proof.
  intro HI. unfold read_remaining_output.
  pose proof (readlines_spec out (stdout c)) as Ho.
  pose proof (readlines_spec err (stderr c)) as He.
  pose proof (inv_nonempty script c HI Stdout) as Hno.
  pose proof (inv_nonempty script c HI Stderr) as Hne.
  simpl in Hno, Hne. rewrite Ho in Hno. rewrite He in Hne.
  apply Forall_nonempty_front in Hno. apply Forall_nonempty_front in Hne.
  destruct (readlines out (stdout c)) as [[outs stdout'] raised_out].
  destruct (readlines err (stderr c)) as [[errs stderr'] raised_err].
  simpl in Ho, He, Hno, Hne.
  destruct raised_out.
  - apply (Inv_consume script c _ outs [] HI);
      cbn [todo exited stdout stderr emitted]; try reflexivity.
    + exact Ho.
    + rewrite emit_lines_nonempty by exact Hno. cbn [tagged map].
      rewrite app_nil_r. reflexivity.
  - apply (Inv_consume script c _ outs errs HI);
      cbn [todo exited stdout stderr emitted]; try reflexivity.
    + exact Ho.
    + exact He.
    + rewrite !emit_lines_nonempty by assumption. reflexivity.
Qed.

Lemma Inv_reader_step (script : list (Stream * string)) (out err : Reading)
    (c : Config) :
  Inv script c -> Inv script (reader_step out err c).
Proof.
  intros HI. unfold reader_step.
  destruct (pc c); [| |exact HI].
  - destruct (running c); [|apply Inv_at_pc; exact HI].
    destruct (poll c); apply Inv_at_pc;
      [apply Inv_read_remaining_output|]; exact HI.
  - apply Inv_select_and_read; exact HI.
Qed.

Lemma Inv_stop (script : list (Stream * string)) (c : Config) :
  Inv script c -> Inv script (stop c).
Proof. intros [Hl Hn He Hw]. split; assumption. Qed.

Lemma Inv_exec (script : list (Stream * string)) (schedule : list Actor) :
  forall c, Inv script c -> Inv script (exec schedule c).
Proof.
  induction schedule as [|a rest IH]; intros c HI; simpl; [exact HI|].
  apply IH. destruct a; simpl.
  - apply Inv_child_step; exact HI.
  - apply Inv_reader_step; exact HI.
  - apply Inv_stop; exact HI.
  - apply Inv_reader_step; exact HI.
Qed.

End ReaderFacts.

Module ReaderRuns.
Import ServerOutputReader ReaderFacts.

Lemma exec_app (a b : list Actor) (c : Config) :
  exec (a ++ b) c = exec b (exec a c).
Proof. revert c; induction a as [|x a IH]; intro c; simpl; auto. Qed.

Lemma running_child_step (c : Config) :
  running (child_step c) = running c /\ pc (child_step c) = pc c.
Proof.
  unfold child_step. destruct (exited c); [split; reflexivity|].
  destruct (todo c) as [|[[] line] rest]; split; reflexivity.
Qed.

Lemma read_stdout_same (out : Reading) (c c1 : Config) :
  read_stdout out c = Some c1 ->
  running c1 = running c /\ exited c1 = exited c /\ pc c1 = pc c.
Proof.
  unfold read_stdout. destruct (readable (stdout c)).
  - destruct (readline out (stdout c)) as [[output stdout']|];
      [|discriminate].
    intro H; inversion H; subst; repeat split; reflexivity.
  - intro H; inversion H; subst; repeat split; reflexivity.
Qed.

Lemma read_stderr_same (err : Reading) (c c1 : Config) :
  read_stderr err c = Some c1 ->
  running c1 = running c /\ exited c1 = exited c /\ pc c1 = pc c.
Proof.
  unfold read_stderr. destruct (readable (stderr c)).
  - destruct (readline err (stderr c)) as [[error stderr']|];
      [|discriminate].
    intro H; inversion H; subst; repeat split; reflexivity.
  - intro H; inversion H; subst; repeat split; reflexivity.
Qed.

(** The body of the loop leaves the flag and the child as they are, and the
    thread at the head of the loop or, after an exception, out of [run]. *)
Lemma select_and_read_same (out err : Reading) (c : Config) :
  running (select_and_read out err c) = running c
  /\ exited (select_and_read out err c) = exited c
  /\ (pc (select_and_read out err c) = AtLoopHead
      \/ pc (select_and_read out err c) = Finished).
Proof.
  unfold select_and_read.
  destruct (read_stdout out c) as [c1|] eqn:H1;
    [|repeat split; try reflexivity; right; reflexivity].
  destruct (read_stdout_same out c c1 H1) as (R1 & X1 & _).
  destruct (read_stderr err c1) as [c2|] eqn:H2; simpl.
  - destruct (read_stderr_same err c1 c2 H2) as (R2 & X2 & _).
    rewrite R2, X2, R1, X1. repeat split; try reflexivity. left; reflexivity.
  - rewrite R1, X1. repeat split; try reflexivity. right; reflexivity.
Qed.

(** Reads of chunks leave the thread at the head of the loop. *)
Lemma select_and_read_chunk (m n : option nat) (c : Config) :
  pc (select_and_read (Chunk m) (Chunk n) c) = AtLoopHead.
Proof.
  unfold select_and_read, read_stdout, read_stderr.
  destruct (readable (stdout c)).
  - destruct (readline (Chunk m) (stdout c)) as [[output stdout']|] eqn:H1;
      [|exfalso; exact (readline_chunk m _ H1)].
    cbn [stderr]. destruct (readable (stderr c)); [|reflexivity].
    destruct (readline (Chunk n) (stderr c)) as [[error stderr']|] eqn:H2;
      [reflexivity | exfalso; exact (readline_chunk n _ H2)].
  - destruct (readable (stderr c)); [|reflexivity].
    destruct (readline (Chunk n) (stderr c)) as [[error stderr']|] eqn:H2;
      [reflexivity | exfalso; exact (readline_chunk n _ H2)].
Qed.

Lemma read_remaining_output_same (out err : Reading) (c : Config) :
  running (read_remaining_output out err c) = running c
  /\ exited (read_remaining_output out err c) = exited c.
Proof.
  unfold read_remaining_output.
  destruct (readlines out (stdout c)) as [[outs stdout'] []];
    [split; reflexivity|].
  destruct (readlines err (stderr c)) as [[errs stderr'] ?].
  split; reflexivity.
Qed.

Lemma running_reader_step (out err : Reading) (c : Config) :
  running (reader_step out err c) = running c
  /\ exited (reader_step out err c) = exited c.
Proof.
  unfold reader_step, poll.
  destruct (pc c); [| |split; reflexivity].
  - destruct (running c) eqn:Hr; [|split; [exact Hr | reflexivity]].
    destruct (exited c) eqn:Hx; simpl.
    + destruct (read_remaining_output_same out err c) as [R X].
      rewrite R, X. split; assumption.
    + split; assumption.
  - destruct (select_and_read_same out err c) as (R & X & _).
    split; assumption.
Qed.

(** Without a call of [stop()], the flag stays as it is. *)
Lemma running_exec (schedule : list Actor) :
  forall c, no_stop schedule -> running (exec schedule c) = running c.
Proof.
  induction schedule as [|a rest IH]; intros c Hns; simpl; [reflexivity|].
  rewrite IH by (intros x Hx; apply Hns; right; exact Hx).
  destruct a; simpl.
  - apply running_child_step.
  - apply running_reader_step.
  - exfalso. apply (Hns StopCall); [left|]; reflexivity.
  - apply running_reader_step.
Qed.

(** A move of the thread whose reads go well, with the flag up, leaves [run]
    only after the exit of the child and with the pipes read to their end. *)
Lemma clean_reader_step (m n : option nat) (c : Config) :
  running c = true -> clean_finish c ->
  clean_finish (reader_step (Chunk m) (Chunk n) c).
Proof.
  intros Hr Hc. unfold reader_step.
  destruct (pc c) eqn:Hpc.
  - rewrite Hr. unfold poll. destruct (exited c) eqn:Hx.
    + intros _. split; [exact Hx|]. intros []; reflexivity.
    + intro H; discriminate.
  - intro H. rewrite select_and_read_chunk in H. discriminate.
  - exact Hc.
Qed.

Lemma clean_child_step (c : Config) :
  clean_finish c -> clean_finish (child_step c).
Proof.
  intros Hc Hp. destruct (running_child_step c) as [_ Hpc].
  rewrite Hpc in Hp. destruct (Hc Hp) as [Hx Hh].
  unfold child_step. rewrite Hx. split; assumption.
Qed.

(** Without a call of [stop()] and without a read that raises, the thread
    has left [run] only after the exit of the child and with both pipes read
    to their end. *)
Lemma clean_exec (schedule : list Actor) :
  forall c, no_stop schedule -> no_failed_read schedule ->
    running c = true -> clean_finish c -> clean_finish (exec schedule c).
Proof.
  induction schedule as [|a rest IH]; intros c Hns Hnf Hr Hc; simpl;
    [exact Hc|].
  assert (Hns' : no_stop rest) by (intros x Hx; apply Hns; right; exact Hx).
  unfold no_failed_read in Hnf. simpl in Hnf.
  apply andb_prop in Hnf. destruct Hnf as [Ha Hnf].
  destruct a as [| | |out err]; simpl.
  - apply IH; try assumption.
    + destruct (running_child_step c) as [R _]. rewrite R; exact Hr.
    + apply clean_child_step; exact Hc.
  - apply IH; try assumption.
    + destruct (running_reader_step (Chunk None) (Chunk None) c) as [R _].
      rewrite R; exact Hr.
    + apply clean_reader_step; assumption.
  - exfalso. apply (Hns StopCall); [left|]; reflexivity.
  - destruct out as [m|k]; [|discriminate].
    destruct err as [n|k]; [|discriminate].
    apply IH; try assumption.
    + destruct (running_reader_step (Chunk m) (Chunk n) c) as [R _].
      rewrite R; exact Hr.
    + apply clean_reader_step; assumption.
Qed.

Lemma child_exited_stays (n : nat) (c : Config) :
  exited c = true -> exec (repeat TheChild n) c = c.
Proof.
  intro Hx. induction n as [|n IH]; simpl; [reflexivity|].
  unfold child_step. rewrite Hx. exact IH.
Qed.

(** The child is through after one step more than it has texts to write. *)
Lemma child_exits (n : nat) :
  forall c, List.length (todo c) <= n ->
    let c' := exec (repeat TheChild (S n)) c in
    exited c' = true /\ running c' = running c /\ pc c' = pc c.
Proof.
  induction n as [|n IH]; intros c Hlen; cbv zeta;
    (destruct (exited c) eqn:Hx;
     [rewrite child_exited_stays by exact Hx; repeat split; assumption|]).
  - simpl. unfold child_step. rewrite Hx.
    destruct (todo c); [repeat split; reflexivity | simpl in Hlen; lia].
  - change (repeat TheChild (S (S n))) with (TheChild :: repeat TheChild (S n)).
    cbn [exec step].
    destruct (running_child_step c) as [Hr Hp].
    destruct (IH (child_step c)) as (Hx' & Hr' & Hp').
    + unfold child_step. rewrite Hx.
      destruct (todo c) as [|[[] line] rest]; simpl in *; lia.
    + rewrite Hx', Hr', Hp', Hr, Hp. repeat split; reflexivity.
Qed.

(** Once the child has exited, two moves of the thread end [run], however
    the reads go. *)
Lemma reader_finishes (o1 e1 o2 e2 : Reading) (c : Config) :
  exited c = true -> running c = true ->
  pc (reader_step o2 e2 (reader_step o1 e1 c)) = Finished.
Proof.
  intros Hx Hr. unfold reader_step at 2.
  destruct (pc c) eqn:Hpc.
  - rewrite Hr. unfold poll; rewrite Hx. reflexivity.
  - destruct (select_and_read_same o1 e1 c) as (R & X & [P|P]);
      unfold reader_step; rewrite P; [|exact P].
    rewrite R, Hr. unfold poll. rewrite X, Hx. reflexivity.
  - unfold reader_step. rewrite Hpc. exact Hpc.
Qed.

Lemma length_of_stream {A : Type} (l : list (Stream * A)) :
  List.length l
  = List.length (of_stream Stdout l) + List.length (of_stream Stderr l).
Proof.
  induction l as [|[[] x] l IH]; simpl; lia.
Qed.

(** What the child has left to write is never more than its script. *)
Lemma todo_bounded (script : list (Stream * string)) (c : Config) :
  Inv script c -> List.length (todo c) <= List.length script.
Proof.
  intros [_ _ _ [written Hw]]. rewrite Hw, length_app. lia.
Qed.

(** One emission from each stream: the two texts, in one order or the
    other. *)
Lemma two_texts (l : list (Stream * string)) (a b : string) :
  of_stream Stdout l = [a] -> of_stream Stderr l = [b] ->
  map snd l = [a; b] \/ map snd l = [b; a].
Proof.
  intros Ha Hb.
  pose proof (length_of_stream l) as Hlen. rewrite Ha, Hb in Hlen.
  destruct l as [|[s1 x1] [|[s2 x2] [|? ?]]]; simpl in Hlen; try lia.
  destruct s1, s2; simpl in Ha, Hb; try discriminate;
    inversion Ha; inversion Hb; subst; simpl; auto.
Qed.

(** When the thread has left [run] cleanly, it has emitted every line of
    every stream. *)
Lemma finished_all_emitted (script : list (Stream * string)) (c : Config) :
  Inv script c -> pc c = Finished -> clean_finish c ->
  exited c = true
  /\ forall s, of_stream s (emitted c) = map Py.strip (lines_of s script).
Proof.
  intros [Hl _ He _] Hp Hc. destruct (Hc Hp) as [Hx Hh].
  split; [exact Hx|]. intro s.
  pose proof (Hl s) as L. unfold unseen in L.
  rewrite (Hh s), (He Hx) in L. simpl in L.
  rewrite app_nil_r in L. exact L.
Qed.

Lemma clean_start (script : list (Stream * string)) (code : Z) :
  clean_finish (start script code).
Proof. intro H; discriminate. Qed.

End ReaderRuns.

Module ReaderClaims.
Import ServerOutputReader ReaderFacts ReaderRuns.

(** C8, as stated, fails on four counts.  The text emitted for a line is the
    line stripped, so the indented line is not emitted intact.  When
    [stop()] is called before the thread has seen the exit (as
    [check_server_health] does on a crash), the thread ends without reading
    the lines that remain.  A line with a carriage return inside is emitted
    as two texts.  And when a read raises, the thread leaves [run] while the
    child still runs, and emits nothing of what the child writes. *)
Lemma C8_line_stripped_or_lost :
  (let c := exec schedule_read_after_exit (start script_indented 0) in
   pc c = Finished
   /\ texts c = ["line1"; "line2"]
   /\ ~ In "  line1" (texts c))
  /\ (let c := exec schedule_stop_after_exit (start script_indented 0) in
      pc c = Finished /\ texts c = [])
  /\ (let c := exec schedule_read_after_exit (start script_progress 0) in
      pc c = Finished /\ texts c = ["50%"; "100%"; "line2"])
  /\ (let c := exec (firstn 3 schedule_read_raises)
                 (start script_line1_line2 0) in
      pc c = Finished /\ exited c = false)
  /\ (let c := exec schedule_read_raises (start script_line1_line2 0) in
      pc c = Finished /\ exited c = true /\ texts c = []).
Proof.
  split; [|split; [|split; [|split]]]; cbv zeta.
  - repeat split; try reflexivity.
    simpl. intros [H|[H|[]]]; discriminate.
  - split; reflexivity.
  - split; reflexivity.
  - split; reflexivity.
  - repeat split; reflexivity.
Qed.

(** C8 (amended): the child writes one line to stdout and one to stderr, in
    either order, neither with a carriage return or a line feed inside, and
    exits; [stop()] is not called and no read of the pipes raises.  Then
    under every interleaving of the child and the thread, whatever the
    chunks the reads take: if the thread has left [run], the child had
    exited, both pipes are read to their end, and each of the two lines has
    been emitted exactly once, as the line without its leading and trailing
    whitespace (so intact when it has none but its line feed); and the
    thread does leave [run], at the latest two steps after the child is
    through. *)
Theorem C8_each_line_once (script : list (Stream * string)) (code : Z)
    (schedule : list Actor) (line1 line2 : string) :
  of_stream Stdout script = [line1] ->
  of_stream Stderr script = [line2] ->
  one_line line1 = true ->
  one_line line2 = true ->
  no_stop schedule ->
  no_failed_read schedule ->
  let c := exec schedule (start script code) in
  (pc c = Finished ->
   exited c = true
   /\ (texts c = [Py.strip line1; Py.strip line2]
       \/ texts c = [Py.strip line2; Py.strip line1])
   /\ of_stream Stdout (emitted c) = [Py.strip line1]
   /\ of_stream Stderr (emitted c) = [Py.strip line2]
   /\ held (stdout c) = [] /\ held (stderr c) = [])
  /\ pc (exec (schedule ++ repeat TheChild 3 ++ [TheReader; TheReader])
           (start script code)) = Finished.
Proof.
  intros H1 H2 L1 L2 Hns Hnf. cbv zeta.
  pose proof (Inv_exec script schedule _ (Inv_start script code)) as HI.
  pose proof (running_exec schedule (start script code) Hns) as Hr.
  pose proof (clean_exec schedule (start script code) Hns Hnf eq_refl
                (clean_start script code)) as Hc.
  simpl in Hr.
  set (c := exec schedule (start script code)) in *.
  split.
  - intro Hp.
    destruct (finished_all_emitted script c HI Hp Hc) as [Hx Hall].
    destruct (Hc Hp) as [_ Hh].
    pose proof (Hall Stdout) as Lo. pose proof (Hall Stderr) as Le.
    unfold lines_of in Lo, Le. rewrite H1 in Lo. rewrite H2 in Le.
    simpl in Lo, Le.
    rewrite (delivered_one_line line1 L1) in Lo.
    rewrite (delivered_one_line line2 L2) in Le.
    simpl in Lo, Le. rewrite PyFacts.strip_line in Lo, Le.
    repeat split; try assumption.
    + apply two_texts; assumption.
    + exact (Hh Stdout).
    + exact (Hh Stderr).
  - rewrite !exec_app. fold c.
    assert (Hlen : List.length (todo c) <= 2).
    { pose proof (todo_bounded script c HI) as Hb.
      rewrite (length_of_stream script), H1, H2 in Hb. exact Hb. }
    destruct (child_exits 2 c Hlen) as (Hx & Hr' & _).
    set (c2 := exec (repeat TheChild 3) c) in *.
    change (pc (reader_step (Chunk None) (Chunk None)
                  (reader_step (Chunk None) (Chunk None) c2)) = Finished).
    apply reader_finishes; [exact Hx | rewrite Hr'; exact Hr].
Qed.

Lemma C8_each_line_once_witness :
  let c := exec schedule_chunked (start script_line1_line2 0) in
  (pc c = Finished ->
   exited c = true
   /\ (texts c = [Py.strip "line1"; Py.strip "line2"]
       \/ texts c = [Py.strip "line2"; Py.strip "line1"])
   /\ of_stream Stdout (emitted c) = [Py.strip "line1"]
   /\ of_stream Stderr (emitted c) = [Py.strip "line2"]
   /\ held (stdout c) = [] /\ held (stderr c) = [])
  /\ pc (exec (schedule_chunked ++ repeat TheChild 3
               ++ [TheReader; TheReader])
           (start script_line1_line2 0)) = Finished.
Proof.
  apply (C8_each_line_once script_line1_line2 0 schedule_chunked
           "line1" "line2"); try reflexivity.
  intros a Ha. simpl in Ha.
  repeat (destruct Ha as [Ha|Ha]; [subst a; discriminate|]).
  destruct Ha.
Defined.

End ReaderClaims.

(** ** The configuration file *)

Module ConfigClaims.
Import Config.

(** X24: for a path that can be looked at: when the file is absent, cannot
    be opened, or does not hold valid JSON, [load_config] raises nothing and
    returns the default record, with an empty map of profiles and no last
    profile. *)
Lemma load_config_gives_default (parse : string -> option Json)
    (f : FileState) :
  f = Absent \/ f = Unreadable
  \/ (exists text, f = Holds text /\ parse text = None) ->
  fst (load_config parse f)
  = Returns (JObject [("profiles", JObject []); ("last_profile", JNull)]).
Proof.
  intros [->|[->|(text & -> & Hp)]]; unfold load_config; simpl;
    try reflexivity.
  unfold json_load. rewrite Hp. reflexivity.
Qed.

Lemma load_config_gives_default_witness :
  fst (load_config parse_braces (Holds "{"))
  = Returns (JObject [("profiles", JObject []); ("last_profile", JNull)]).
Proof.
  apply (load_config_gives_default parse_braces (Holds "{")).
  right; right. exists "{". split; reflexivity.
Defined.

(** C10 fails on the code when the path of the file cannot be looked at:
    [exists()] is called before the [try], so the error of [stat] leaves
    [load_config], which neither returns the default nor prints its
    message. *)
Theorem C10_inaccessible_path_raises (parse : string -> option Json) :
  load_config parse Inaccessible = (Raises OSError, false)
  /\ fst (load_config parse Inaccessible) <> Returns default_config.
Proof. split; [reflexivity | discriminate]. Qed.

(** Whenever the path can be looked at, [load_config] returns; and a file
    with valid JSON is returned as parsed. *)
Lemma load_config_total (parse : string -> option Json) (f : FileState) :
  f <> Inaccessible ->
  exists v, fst (load_config parse f) = Returns v.
Proof.
  unfold load_config, json_load.
  destruct f as [| |text|]; simpl; eauto; [|congruence].
  destruct (parse text); simpl; eauto.
Qed.

Lemma load_config_valid (parse : string -> option Json) (text : string)
    (v : Json) :
  parse text = Some v ->
  load_config parse (Holds text) = (Returns v, false).
Proof.
  intro H. unfold load_config, json_load; simpl. rewrite H. reflexivity.
Qed.

End ConfigClaims.

(** * More of the supervisor *)

(** ** Starting, and what follows *)

Lemma start_server_quiet (w : World) (g : LlamaServerGUI) :
  verdicts (snd (start_server w g)) = []
  /\ signals (snd (start_server w g)) = [].
Proof.
  unfold start_server.
  repeat match goal with
         | |- context [if ?b then _ else _] => destruct b
         end; try (split; reflexivity).
  rewrite run_emit. cbn [snd verdicts signals filter is_signal].
  assert (Hlog : verdict_of
            (LogAppend ("Starting server with command:" ++ Py.nl
                        ++ Py.join " " (build_cmd (form g)) ++ Py.nl))
          = None) by reflexivity.
  rewrite Hlog.
  destruct (spawn w (build_cmd (form g))) as [p|e];
    unfold andthen, emit, modify, pass, update_button_states;
    cbn -[build_cmd Py.join]; split; reflexivity.
Qed.











(** X3: when every check passes and the spawn is refused with the text [e],
    the start logs the command, shows the error in a dialog and in the log,
    and nothing else; no reader and no monitor are started, no handle is
    held, Start is enabled and Stop disabled. *)
Theorem start_spawn_refused (w : World) (g : LlamaServerGUI) (e : string) :
  first_violation (preconditions w g) = None ->
  spawn w (build_cmd (form g)) = inr e ->
  snd (start_server w g)
  = [ LogAppend ("Starting server with command:" ++ Py.nl
                 ++ Py.join " " (build_cmd (form g)) ++ Py.nl);
      MsgCritical "Error" ("Failed to start server:" ++ Py.nl ++ e);
      LogAppend ("Error starting server: " ++ e ++ Py.nl) ]
  /\ server_process (fst (start_server w g)) = None
  /\ output_reader (fst (start_server w g)) = output_reader g
  /\ health_check_timer (fst (start_server w g)) = health_check_timer g
  /\ start_btn (fst (start_server w g)) = true
  /\ stop_btn (fst (start_server w g)) = false.
Proof.
  unfold preconditions, file_preconditions, start_server, binary_path,
    model_path; simpl.
  destruct (Py.is_empty (Py.strip (binary_path_edit (form g)))); simpl;
    [discriminate|].
  destruct (path_exists w (Py.strip (binary_path_edit (form g)))); simpl;
    [|discriminate].
  destruct (Py.is_empty (Py.strip (model_path_edit (form g)))); simpl;
    [discriminate|].
  destruct (path_exists w (Py.strip (model_path_edit (form g)))); simpl;
    [|discriminate].
  destruct (is_running w g); simpl; [discriminate|].
  intros _ Hs. rewrite run_emit, Hs.
  unfold andthen, emit, modify, pass, update_button_states, is_running; simpl.
  repeat split; reflexivity.
Qed.

Lemma start_spawn_refused_witness :
  snd (start_server world_no_spawn gui_ready)
  = [ LogAppend ("Starting server with command:" ++ Py.nl
                 ++ Py.join " " (build_cmd (form gui_ready)) ++ Py.nl);
      MsgCritical "Error" ("Failed to start server:" ++ Py.nl
                           ++ "[Errno 13] Permission denied");
      LogAppend ("Error starting server: " ++ "[Errno 13] Permission denied"
                 ++ Py.nl) ]
  /\ server_process (fst (start_server world_no_spawn gui_ready)) = None
  /\ output_reader (fst (start_server world_no_spawn gui_ready))
     = output_reader gui_ready
  /\ health_check_timer (fst (start_server world_no_spawn gui_ready))
     = health_check_timer gui_ready
  /\ start_btn (fst (start_server world_no_spawn gui_ready)) = true
  /\ stop_btn (fst (start_server world_no_spawn gui_ready)) = false.
Proof.
  apply (start_spawn_refused world_no_spawn gui_ready
           "[Errno 13] Permission denied"); reflexivity.
Defined.

(** ** The monitor in general *)

(** X4: a stop of a live process silences the health monitor: whatever the
    process does afterwards, the timeouts of the health timer call nothing,
    so that no [CrashedWithCode] and no [Stable] follows a stop. *)
Theorem stop_silences_monitor (w : World) (ws : nat -> World)
    (g : LlamaServerGUI) (p : Popen) (n : nat) :
  server_process g = Some p -> poll w p = None ->
  health_run ws n (fst (stop_server w g)) = (fst (stop_server w g), []).
Proof.
  intros Hp Hc. unfold health_run. apply QTimer_run_inactive.
  unfold stop_server. rewrite Hp, Hc.
  unfold andthen, emit, modify, pass.
  destruct (output_reader g) eqn:Hr; simpl; rewrite Hr; simpl;
    destruct (health_check_timer g); reflexivity.
Qed.

Lemma stop_silences_monitor_witness :
  health_run worlds_crash 6 (fst (stop_server world_alive gui_started))
  = (fst (stop_server world_alive gui_started), []).
Proof.
  apply (stop_silences_monitor world_alive worlds_crash gui_started 4242 6);
    reflexivity.
Defined.

(** One timeout of the health timer, from any state: no signal, and at most
    one verdict, with which the timer stops. *)
Lemma check_server_health_once (w : World) (g : LlamaServerGUI) :
  signals (snd (check_server_health w g)) = []
  /\ (verdicts (snd (check_server_health w g)) = []
      \/ (List.length (verdicts (snd (check_server_health w g))) = 1
          /\ active (health_check_timer (fst (check_server_health w g)))
             = false)).
Proof.
  unfold check_server_health.
  destruct (server_process g) as [p|] eqn:Hp.
  - destruct (poll w p) as [c|] eqn:Hc.
    + rewrite run_modify, run_emit.
      cbn [fst snd verdicts signals filter is_signal].
      rewrite verdict_of_crash_log.
      unfold andthen, emit, modify, pass, update_button_states.
      destruct (output_reader g) eqn:Hr; cbn -[crash_dialog]; rewrite Hr;
        cbn -[crash_dialog]; (split; [reflexivity|right]);
        (split; [reflexivity|]); destruct (health_check_timer g); reflexivity.
    + unfold andthen, modify, pass, emit; cbn -[Nat.leb].
      destruct (6 <=? health_check_attempts g + 1)%nat; cbn.
      * split; [reflexivity|right]. split; [reflexivity|].
        destruct (health_check_timer g); reflexivity.
      * split; [reflexivity|left; reflexivity].
  - unfold modify; cbn. split; [reflexivity|left; reflexivity].
Qed.

(** X5: from any state of the window, under any behaviour of the process and
    over any number of intervals, the health monitor sends no signal to the
    child and reports at most one verdict. *)
Theorem health_run_at_most_one_verdict (ws : nat -> World) (n : nat)
    (g : LlamaServerGUI) :
  signals (snd (health_run ws n g)) = []
  /\ List.length (verdicts (snd (health_run ws n g))) <= 1.
Proof.
  unfold health_run.
  enough (H : forall j,
    signals (snd (QTimer_run health_check_timer check_server_health
                    ws j n g)) = []
    /\ List.length
         (verdicts (snd (QTimer_run health_check_timer check_server_health
                           ws j n g))) <= 1) by apply H.
  revert g.
  induction n as [|n IH]; intros g j; [split; [reflexivity | cbn; lia]|].
  destruct (active (health_check_timer g)) eqn:Ha.
  - rewrite QTimer_run_step by exact Ha. cbn [fst snd].
    rewrite signals_app, verdicts_app, length_app.
    destruct (check_server_health_once (ws j) g) as (Hs & [Hv|(Hv & Ht)]).
    + rewrite Hs, Hv. exact (IH _ (S j)).
    + rewrite QTimer_run_inactive by exact Ht. cbn [snd].
      rewrite Hs, Hv. split; [reflexivity | cbn; lia].
  - rewrite QTimer_run_inactive by exact Ha. split; [reflexivity | cbn; lia].
Qed.

(** ** After a stop *)

Lemma cleanup_after_stop_released (w : World) (message : string)
    (g : LlamaServerGUI) :
  released (fst (cleanup_after_stop w message g)).
Proof.
  unfold cleanup_after_stop, released, andthen, emit, modify, pass,
    update_button_states, is_running.
  cbn. destruct (output_reader g) eqn:Hr; cbn; rewrite ?Hr;
    repeat split; reflexivity.
Qed.

(** The slot of the stop timer never touches the health timer. *)
Lemma check_server_stopped_health_timer (w : World) (g : LlamaServerGUI) :
  health_check_timer (fst (check_server_stopped w g)) = health_check_timer g.
Proof.
  unfold check_server_stopped.
  destruct (server_process g) as [p|]; [|reflexivity].
  destruct (poll w p).
  - rewrite run_modify.
    destruct (cleanup_after_stop_spec w stopped_msg
                (set_stop_timer (stopped (stop_timer g)) g))
      as (_ & _ & _ & _ & _ & _ & H).
    exact H.
  - unfold andthen, modify, pass, emit; cbn -[Nat.leb].
    destruct (25 <=? stop_attempts g + 1)%nat; reflexivity.
Qed.

Lemma stop_timer_run_health_timer (ws : nat -> World) (n : nat) :
  forall (k : nat) (g : LlamaServerGUI),
    health_check_timer
      (fst (QTimer_run stop_timer check_server_stopped ws k n g))
    = health_check_timer g.
Proof.
  induction n as [|n IH]; intros k g; [reflexivity|].
  destruct (active (stop_timer g)) eqn:Ha.
  - rewrite QTimer_run_step by exact Ha. cbn [fst].
    rewrite IH. apply check_server_stopped_health_timer.
  - rewrite QTimer_run_inactive by exact Ha. reflexivity.
Qed.

(** When the process shows as exited within the bound, the timeouts of the
    stop timer end with the supervisor holding nothing. *)
Lemma stop_timer_run_released (ws : nat -> World) (p : Popen) (m : nat) :
  forall (k n a : nat) (g : LlamaServerGUI),
    escalating p a g -> a + m = 25 -> 0 < m -> m <= n ->
    exits_within ws p k m = true ->
    released (fst (QTimer_run stop_timer check_server_stopped ws k n g)).
Proof.
  induction m as [|m IH]; intros k n a g Hg Ham Hm Hn; [lia|].
  destruct n as [|n]; [lia|].
  pose proof Hg as (Hp & Ht & Ha & Hs).
  rewrite QTimer_run_step by (rewrite Ht; reflexivity).
  cbn [exits_within fst snd].
  destruct (poll (ws k) p) as [c|] eqn:Hc.
  - intros _.
    destruct (check_server_stopped_exited (ws k) g p a c Hg Hc)
      as (_ & _ & Htim & _ & _).
    rewrite QTimer_run_inactive by (rewrite Htim; reflexivity).
    cbn [fst]. unfold check_server_stopped. rewrite Hp, Hc, run_modify.
    apply cleanup_after_stop_released.
  - destruct m as [|m]; [discriminate|].
    destruct (check_server_stopped_waiting (ws k) g p a Hg Hc ltac:(lia))
      as (_ & Hg1).
    exact (IH (S k) n (a + 1) _ Hg1 ltac:(lia) ltac:(lia) ltac:(lia)).
Qed.

(** X6: after a stop of a running process, made while no delayed cleanup of
    an earlier stop is still to come, at least 25 intervals of the stop timer
    and the delayed calls, the supervisor holds nothing whichever way the
    stop went: no handle, no reader, Start enabled and Stop disabled; the
    health timer is not active; and in no world does the supervisor count as
    running, so that a new start is not refused for that. *)
Theorem stop_then_released (w0 : World) (ws : nat -> World) (wz : World)
    (g : LlamaServerGUI) (p : Popen) (n : nat) :
  server_process g = Some p -> poll w0 p = None -> single_shots g = [] ->
  25 <= n ->
  let r := stop_sequence w0 ws wz n g in
  released (fst r)
  /\ active (health_check_timer (fst r)) = false
  /\ forall w, is_running w (fst r) = false.
Proof.
  intros Hp Hc Hs Hn. cbv zeta. unfold stop_sequence.
  destruct (stop_server_running w0 g p Hp Hc Hs) as (_ & _ & Hg0 & Hh0).
  rewrite run_andthen. cbn [fst].
  set (g0 := fst (stop_server w0 g)) in *.
  rewrite run_andthen. cbn [fst].
  pose proof (stop_timer_run ws p 25 0 n 0 g0 Hg0 eq_refl ltac:(lia) Hn)
    as Hrun.
  cbv zeta in Hrun.
  pose proof (stop_timer_run_released ws p 25 0 n 0 g0 Hg0 eq_refl
                ltac:(lia) Hn) as Hrel.
  pose proof (stop_timer_run_health_timer ws n 0 g0) as Hhealth.
  set (r1 := QTimer_run stop_timer check_server_stopped ws 0 n g0) in *.
  destruct Hrun as (_ & Hrun).
  assert (Hfinal :
    released (fst (fire_single_shots wz (List.length (single_shots (fst r1)))
                     (fst r1)))
    /\ health_check_timer
         (fst (fire_single_shots wz (List.length (single_shots (fst r1)))
                 (fst r1)))
       = health_check_timer g0).
  { destruct (exits_within ws p 0 25).
    - destruct Hrun as (_ & _ & _ & Hsh1). rewrite Hsh1. cbn.
      split; [apply Hrel; reflexivity | exact Hhealth].
    - destruct Hrun as (_ & _ & _ & Hsh1). rewrite Hsh1.
      cbn [List.length fire_single_shots].
      rewrite run_andthen. unfold pass at 1 2. cbn [fst].
      unfold fire_single_shot. rewrite Hsh1, run_modify.
      split; [apply cleanup_after_stop_released|].
      destruct (cleanup_after_stop_spec wz killed_msg
                  (set_single_shots [] (fst r1)))
        as (_ & _ & _ & _ & _ & _ & H).
      etransitivity; [exact H | exact Hhealth]. }
  destruct Hfinal as (Hr & Hh). rewrite Hh, Hh0.
  split; [exact Hr|]. split; [reflexivity|].
  intro w. unfold is_running. destruct Hr as (Hr & _). rewrite Hr. reflexivity.
Qed.

Lemma stop_then_released_witness :
  let r := stop_sequence world_alive worlds_crash world_exited 25 gui_started in
  released (fst r)
  /\ active (health_check_timer (fst r)) = false
  /\ forall w, is_running w (fst r) = false.
Proof.
  apply (stop_then_released world_alive worlds_crash world_exited gui_started
           4242 25); try reflexivity.
Defined.

(** ** The two buttons *)

Lemma keeps_exclusive_andthen (h1 h2 : Handler) :
  keeps_exclusive h1 -> keeps_exclusive h2 -> keeps_exclusive (h1 ;; h2).
Proof.
  intros H1 H2 g Hg. rewrite run_andthen. cbn [fst]. apply H2, H1, Hg.
Qed.

Lemma keeps_exclusive_emit (e : Effect) : keeps_exclusive (emit e).
Proof. intros g Hg; exact Hg. Qed.

Lemma keeps_exclusive_pass : keeps_exclusive pass.
Proof. intros g Hg; exact Hg. Qed.

(** [update_button_states] enables one of the two and disables the other. *)
Lemma keeps_exclusive_update (w : World) :
  keeps_exclusive (update_button_states w).
Proof.
  intros g _. unfold update_button_states, buttons_exclusive, andthen, modify.
  cbn. destruct (is_running w g); reflexivity.
Qed.

Lemma keeps_exclusive_modify (f : LlamaServerGUI -> LlamaServerGUI) :
  (forall g, start_btn (f g) = start_btn g) ->
  (forall g, stop_btn (f g) = stop_btn g) ->
  keeps_exclusive (modify f).
Proof.
  intros H1 H2 g Hg. unfold buttons_exclusive, modify in *. cbn.
  rewrite H1, H2. exact Hg.
Qed.

Lemma keeps_exclusive_disable_stop : keeps_exclusive (modify (set_stop_btn false)).
Proof.
  intros g _. unfold buttons_exclusive, modify. cbn. apply andb_false_r.
Qed.

Ltac keeps :=
  repeat first
    [ apply keeps_exclusive_andthen
    | apply keeps_exclusive_emit
    | apply keeps_exclusive_pass
    | apply keeps_exclusive_update
    | apply keeps_exclusive_disable_stop
    | apply keeps_exclusive_modify; intro; reflexivity ].

Lemma keeps_exclusive_cleanup (w : World) (message : string) :
  keeps_exclusive (cleanup_after_stop w message).
Proof.
  unfold cleanup_after_stop. keeps.
  intros g Hg. destruct (output_reader g); [|exact Hg].
  revert g Hg. change (keeps_exclusive
    (emit (ReaderWait 1000) ;; modify (set_output_reader None))). keeps.
Qed.

Lemma keeps_exclusive_start (w : World) : keeps_exclusive (start_server w).
Proof.
  intros g Hg. unfold start_server.
  repeat match goal with
         | |- context [if ?b then _ else _] => destruct b
         end; try exact Hg.
  refine (keeps_exclusive_andthen _ _ _ _ g Hg); [keeps|].
  destruct (spawn w (build_cmd (form g))) as [p|e]; keeps.
Qed.

Lemma keeps_exclusive_reader (h1 h2 : Handler) :
  keeps_exclusive h1 -> keeps_exclusive h2 ->
  keeps_exclusive (fun g => match output_reader g with
                            | Some _ => h1 g
                            | None => h2 g
                            end).
Proof.
  intros H1 H2 g Hg. destruct (output_reader g); [apply H1 | apply H2]; exact Hg.
Qed.

Lemma keeps_exclusive_if (b : LlamaServerGUI -> bool) (h1 h2 : Handler) :
  keeps_exclusive h1 -> keeps_exclusive h2 ->
  keeps_exclusive (fun g => if b g then h1 g else h2 g).
Proof.
  intros H1 H2 g Hg. destruct (b g); [apply H1 | apply H2]; exact Hg.
Qed.

Ltac keeps_all :=
  repeat first
    [ apply keeps_exclusive_andthen
    | apply keeps_exclusive_emit
    | apply keeps_exclusive_pass
    | apply keeps_exclusive_update
    | apply keeps_exclusive_disable_stop
    | apply keeps_exclusive_cleanup
    | apply keeps_exclusive_reader
    | apply keeps_exclusive_if
    | apply keeps_exclusive_modify; intro; reflexivity ].

Lemma keeps_exclusive_stop (w : World) : keeps_exclusive (stop_server w).
Proof.
  intros g Hg. unfold stop_server.
  destruct (server_process g) as [p|]; [destruct (poll w p)|];
    refine ((_ : keeps_exclusive _) g Hg); keeps_all.
Qed.

Lemma keeps_exclusive_stopped (w : World) :
  keeps_exclusive (check_server_stopped w).
Proof.
  intros g Hg. unfold check_server_stopped.
  destruct (server_process g) as [p|]; [destruct (poll w p)|];
    refine ((_ : keeps_exclusive _) g Hg); keeps_all.
Qed.

Lemma keeps_exclusive_single_shot (w : World) :
  keeps_exclusive (fire_single_shot w).
Proof.
  intros g Hg. unfold fire_single_shot.
  destruct (single_shots g) as [|message rest];
    refine ((_ : keeps_exclusive _) g Hg); keeps_all.
Qed.

Lemma keeps_exclusive_health (w : World) :
  keeps_exclusive (check_server_health w).
Proof.
  intros g Hg. unfold check_server_health.
  destruct (server_process g) as [p|]; [destruct (poll w p)|];
    refine ((_ : keeps_exclusive _) g Hg); keeps_all.
Qed.

Lemma keeps_exclusive_close (w : World) (reply : StandardButton) :
  keeps_exclusive (closeEvent w reply).
Proof.
  intros g Hg. unfold closeEvent.
  destruct (server_process g) as [p|]; [destruct (poll w p)|];
    [ | destruct reply | ];
    refine ((_ : keeps_exclusive _) g Hg); keeps_all.
Qed.

Lemma keeps_exclusive_quit (w : World) : keeps_exclusive (quit_application w).
Proof.
  unfold quit_application. apply keeps_exclusive_andthen; [|keeps_all].
  intros g Hg.
  destruct (server_process g) as [p|]; [destruct (poll w p)|];
    refine ((_ : keeps_exclusive _) g Hg); keeps_all.
Qed.

(** X7: the window never has Start and Stop enabled together.  If they are
    not both enabled at some point, they are not after any session of the
    event loop: any presses of Start and Stop, timeouts of either timer,
    delayed calls, quits and closes, in any order and whatever the files and
    the process do. *)
Theorem buttons_never_both_enabled (session : list (World * UiEvent))
    (g : LlamaServerGUI) :
  buttons_exclusive g -> buttons_exclusive (fst (run_events session g)).
Proof.
  revert g. induction session as [|[w ev] rest IH]; intros g Hg; [exact Hg|].
  cbn [run_events]. rewrite run_andthen. cbn [fst]. apply IH.
  destruct ev; cbn [dispatch].
  - apply keeps_exclusive_start; exact Hg.
  - apply keeps_exclusive_stop; exact Hg.
  - destruct (active (health_check_timer g));
      [apply keeps_exclusive_health; exact Hg | exact Hg].
  - destruct (active (stop_timer g));
      [apply keeps_exclusive_stopped; exact Hg | exact Hg].
  - apply keeps_exclusive_single_shot; exact Hg.
  - apply keeps_exclusive_quit; exact Hg.
  - apply keeps_exclusive_close; exact Hg.
Qed.

(** A session: start, three timeouts, stop, a timeout that sees the exit. *)
Lemma buttons_never_both_enabled_witness :
  buttons_exclusive
    (fst (run_events
            [ (world_alive, ClickStart); (world_alive, HealthTimeout);
              (world_alive, ClickStop); (world_exited, StopTimeout) ]
            gui_ready)).
Proof.
  apply (buttons_never_both_enabled
           [ (world_alive, ClickStart); (world_alive, HealthTimeout);
             (world_alive, ClickStop); (world_exited, StopTimeout) ]
           gui_ready).
  reflexivity.
Defined.

(** * More of the reader thread *)

Module ReaderMore.
Import ServerOutputReader ReaderFacts ReaderRuns ReaderSchedules.



(** X9: at every moment of every run, with or without calls of [stop()],
    whatever the chunks the reads take and whether or not a read raises,
    what the thread has emitted from a stream is the beginning of the lines
    of that stream (a carriage return or a line feed inside a text written
    ends a line), stripped line by line: the thread never emits a line
    twice, out of order, or that was not written. *)
Theorem reader_emits_a_prefix (script : list (Stream * string)) (code : Z)
    (schedule : list Actor) (s : Stream) :
  prefix_of (of_stream s (emitted (exec schedule (start script code))))
            (map Py.strip (lines_of s script)).
Proof.
  destruct (Inv_exec script schedule _ (Inv_start script code))
    as [Hl _ _ _].
  exists (unseen s (exec schedule (start script code))).
  symmetry. apply Hl.
Qed.

(** Once the flag is down it stays down, and the thread, wherever it is,
    leaves [run] at its second move at the latest. *)
Lemma stopped_reader_step (out err : Reading) (c : Config) :
  running c = false ->
  running (reader_step out err c) = false
  /\ pc (reader_step out err c) <> AtSelect
  /\ (pc c <> AtSelect -> pc (reader_step out err c) = Finished).
Proof.
  intro Hr. destruct (running_reader_step out err c) as [Hr' _].
  split; [rewrite Hr'; exact Hr|].
  unfold reader_step. destruct (pc c) eqn:Hpc.
  - rewrite Hr. split; [discriminate | reflexivity].
  - split; [|intro H; contradiction].
    destruct (select_and_read_same out err c) as (_ & _ & [P|P]);
      rewrite P; discriminate.
  - rewrite Hpc. split; [discriminate | reflexivity].
Qed.

Lemma stopped_reader_finishes (schedule : list Actor) :
  forall c, running c = false ->
    (pc c = AtSelect -> 2 <= reader_moves schedule) ->
    (pc c = AtLoopHead -> 1 <= reader_moves schedule) ->
    pc (exec schedule c) = Finished.
Proof.
  assert (Hmove : forall out err rest c,
            (forall c', running c' = false ->
               (pc c' = AtSelect -> 2 <= reader_moves rest) ->
               (pc c' = AtLoopHead -> 1 <= reader_moves rest) ->
               pc (exec rest c') = Finished) ->
            running c = false ->
            (pc c = AtSelect -> 2 <= S (reader_moves rest)) ->
            pc (exec rest (reader_step out err c)) = Finished).
  { intros out err rest c IH Hr H2.
    destruct (stopped_reader_step out err c Hr) as (Hr' & Hns & Hf).
    apply IH; [exact Hr' | intro H; contradiction |].
    intro Hh. destruct (pc c) eqn:Hpc.
    - rewrite Hf in Hh by discriminate. discriminate.
    - specialize (H2 eq_refl). lia.
    - rewrite Hf in Hh by discriminate. discriminate. }
  induction schedule as [|a rest IH]; intros c Hr H2 H1.
  - simpl in *. destruct (pc c); [specialize (H1 eq_refl); lia
                                 | specialize (H2 eq_refl); lia
                                 | reflexivity].
  - cbn [exec]. destruct a; cbn [step reader_moves] in *.
    + destruct (running_child_step c) as [Hr' Hp'].
      apply IH; rewrite ?Hr', ?Hp'; assumption.
    + apply Hmove; assumption.
    + apply IH; [reflexivity | exact H2 | exact H1].
    + apply Hmove; assumption.
Qed.

(** X10: a call of [stop()] is honoured within two moves of the thread:
    whatever the child and the thread were doing, and whatever the child does
    next, once [stop()] has been called the thread has left [run] after its
    second move. *)
Theorem reader_stops_within_two_moves (before after : list Actor)
    (script : list (Stream * string)) (code : Z) :
  2 <= reader_moves after ->
  pc (exec (before ++ StopCall :: after) (start script code)) = Finished.
Proof.
  intro H. rewrite exec_app. cbn [exec step].
  apply stopped_reader_finishes; [reflexivity | intros _; exact H |
                                  intros _; lia].
Qed.

Lemma reader_stops_within_two_moves_witness :
  pc (exec ([TheChild; TheReader] ++ StopCall :: [TheReader; TheChild; TheReader])
        (start script_llama 0)) = Finished.
Proof.
  apply (reader_stops_within_two_moves [TheChild; TheReader]
           [TheReader; TheChild; TheReader] script_llama 0).
  simpl. lia.
Defined.

End ReaderMore.

(** * Profiles *)

Module ProfileFacts.
Import Profiles.

Lemma dict_get_set_same {V : Type} (k : string) (v : V)
    (d : list (string * V)) :
  dict_get k (dict_set k v d) = Some v.
Proof.
  induction d as [|[k' v'] d IH]; simpl.
  - rewrite String.eqb_refl; reflexivity.
  - destruct (String.eqb k k') eqn:E; simpl.
    + rewrite String.eqb_refl; reflexivity.
    + rewrite E; exact IH.
Qed.

Lemma dict_get_set_other {V : Type} (k k0 : string) (v : V)
    (d : list (string * V)) :
  k0 <> k -> dict_get k0 (dict_set k v d) = dict_get k0 d.
Proof.
  intro Hne. apply String.eqb_neq in Hne.
  induction d as [|[k' v'] d IH]; simpl.
  - rewrite Hne; reflexivity.
  - destruct (String.eqb k k') eqn:E; simpl.
    + apply String.eqb_eq in E; subst k'. rewrite Hne; reflexivity.
    + destruct (String.eqb k0 k'); [reflexivity | exact IH].
Qed.

Lemma length_dict_set {V : Type} (k : string) (v : V)
    (d : list (string * V)) :
  List.length (dict_set k v d)
  = if dict_in k d then List.length d else S (List.length d).
Proof.
  unfold dict_in. induction d as [|[k' v'] d IH]; simpl; [reflexivity|].
  destruct (String.eqb k k'); simpl; [reflexivity|].
  rewrite IH. destruct (dict_get k d); reflexivity.
Qed.

Lemma dict_get_filter_same {V : Type} (k : string) (d : list (string * V)) :
  dict_get k (filter (fun kv => negb (String.eqb k (fst kv))) d) = None.
Proof.
  induction d as [|[k' v'] d IH]; simpl; [reflexivity|].
  destruct (String.eqb k k') eqn:E; simpl; [exact IH|].
  rewrite E; exact IH.
Qed.

Lemma dict_get_filter_other {V : Type} (k k0 : string)
    (d : list (string * V)) :
  k0 <> k ->
  dict_get k0 (filter (fun kv => negb (String.eqb k (fst kv))) d)
  = dict_get k0 d.
Proof.
  intro Hne. apply String.eqb_neq in Hne.
  induction d as [|[k' v'] d IH]; simpl; [reflexivity|].
  destruct (String.eqb k k') eqn:E; simpl.
  - apply String.eqb_eq in E; subst k'. rewrite Hne; exact IH.
  - destruct (String.eqb k0 k'); [reflexivity | exact IH].
Qed.

Lemma then_cases (h1 h2 : Slot) (win : Window) :
  then_ h1 h2 win
  = if raised (snd (h1 win)) then h1 win
    else (fst (h2 (fst (h1 win))), snd (h1 win) ++ snd (h2 (fst (h1 win)))).
Proof.
  unfold then_. destruct (h1 win) as [w1 o1]; cbn [fst snd].
  destruct (raised o1); [reflexivity|]. destruct (h2 w1); reflexivity.
Qed.

Lemma run_then (h1 h2 : Slot) (win : Window) :
  raised (snd (h1 win)) = false ->
  then_ h1 h2 win
  = (fst (h2 (fst (h1 win))), snd (h1 win) ++ snd (h2 (fst (h1 win)))).
Proof. intro H. rewrite then_cases, H. reflexivity. Qed.

Lemma then_log (t : string) (h : Slot) (win : Window) :
  then_ (say (Log t)) h win = (fst (h win), Log t :: snd (h win)).
Proof. rewrite run_then by reflexivity. reflexivity. Qed.

Lemma then_ask (title t : string) (h : Slot) (win : Window) :
  then_ (say (Ask title t)) h win = (fst (h win), Ask title t :: snd (h win)).
Proof. rewrite run_then by reflexivity. reflexivity. Qed.

Lemma then_quiet (h1 h2 : Slot) (win : Window) :
  snd (h1 win) = [] -> then_ h1 h2 win = h2 (fst (h1 win)).
Proof.
  intro H. rewrite then_cases, H. cbn.
  destruct (h2 (fst (h1 win))); reflexivity.
Qed.

Lemma setValue_in_range (lo hi v : Z) :
  (lo <= v <= hi)%Z -> setValue lo hi v = v.
Proof. unfold setValue; lia. Qed.

Lemma setValue_bounds (lo hi v : Z) :
  (lo <= hi)%Z -> (lo <= setValue lo hi v <= hi)%Z.
Proof. unfold setValue; lia. Qed.

Lemma setValue_nearest (lo hi v : Z) :
  (lo <= hi)%Z -> setValue lo hi v = nearest lo hi v.
Proof.
  intro H. unfold setValue, nearest.
  destruct (Z.ltb_spec v lo); [lia|]. destruct (Z.ltb_spec hi v); lia.
Qed.

Lemma fits_int_between (lo hi v : Z) :
  (-2147483648 <= lo)%Z -> (hi <= 2147483647)%Z -> (lo <= v <= hi)%Z ->
  fits_int v = true.
Proof.
  intros Hlo Hhi Hv. unfold fits_int.
  apply andb_true_intro; split; apply Z.leb_le; lia.
Qed.

(** [save_config] leaves the window as it is and raises nothing. *)
Lemma save_config_window (disk : Disk) (win : Window) :
  fst (save_config disk win) = win.
Proof. destruct disk; reflexivity. Qed.

Lemma save_config_quiet (disk : Disk) (win : Window) :
  raised (snd (save_config disk win)) = false.
Proof. destruct disk; reflexivity. Qed.

Lemma then_save_config (disk : Disk) (h : Slot) (win : Window) :
  then_ (save_config disk) h win
  = (fst (h win), snd (save_config disk win) ++ snd (h win)).
Proof.
  rewrite run_then by apply save_config_quiet.
  rewrite save_config_window. reflexivity.
Qed.

(** A spin box that is given a C [int]. *)
Lemma then_spin_fits (key : string) (lo hi v : Z) (put : Z -> Form -> Form)
    (h : Slot) (win : Window) :
  fits_int v = true ->
  then_ (spin key lo hi v put) h win
  = h (fst (set_fields (put (setValue lo hi v)) win)).
Proof.
  intro H. rewrite then_quiet; unfold spin; rewrite H; reflexivity.
Qed.

(** A spin box that is given a number that is no C [int]. *)
Lemma then_spin_overflow (key : string) (lo hi v : Z)
    (put : Z -> Form -> Form) (h : Slot) (win : Window) :
  fits_int v = false ->
  then_ (spin key lo hi v put) h win = (win, [OverflowError key]).
Proof.
  intro H. rewrite then_cases. unfold spin; rewrite H; reflexivity.
Qed.

(** [apply_settings] when nothing overflows. *)
Lemma apply_settings_fits (settings : Settings) (win : Window) :
  all_fit settings = true ->
  apply_settings settings win
  = (applied settings win,
     [ Log ("Applying settings to UI fields..." ++ Py.nl);
       Log ("Settings applied to UI" ++ Py.nl) ]).
Proof.
  unfold all_fit. intro H.
  apply andb_prop in H; destruct H as [H Hb].
  apply andb_prop in H; destruct H as [H Ht].
  apply andb_prop in H; destruct H as [H Hn].
  apply andb_prop in H; destruct H as [Hp Hc].
  unfold apply_settings. rewrite then_log.
  rewrite !(then_quiet (set_fields _)) by reflexivity.
  rewrite (then_spin_fits "port") by exact Hp.
  rewrite (then_spin_fits "context") by exact Hc.
  rewrite (then_spin_fits "ngl") by exact Hn.
  rewrite (then_spin_fits "threads") by exact Ht.
  rewrite (then_spin_fits "batch") by exact Hb.
  rewrite !(then_quiet (set_fields _)) by reflexivity.
  rewrite (then_quiet (set_auto_start _)) by reflexivity.
  reflexivity.
Qed.

(** [apply_settings] never touches the configuration, and what it sends out
    is its two log lines, or the first of them and an [OverflowError]. *)
Lemma apply_settings_out (settings : Settings) (win : Window) :
  config (fst (apply_settings settings win)) = config win
  /\ (snd (apply_settings settings win)
      = [ Log ("Applying settings to UI fields..." ++ Py.nl);
          Log ("Settings applied to UI" ++ Py.nl) ]
      \/ exists key,
           snd (apply_settings settings win)
           = [ Log ("Applying settings to UI fields..." ++ Py.nl);
               OverflowError key ]).
Proof.
  unfold apply_settings. rewrite then_log.
  rewrite !(then_quiet (set_fields _)) by reflexivity.
  destruct (fits_int (get (k_port settings) 8080%Z)) eqn:Hp;
    [rewrite (then_spin_fits "port") by exact Hp
    |rewrite (then_spin_overflow "port") by exact Hp; split; [reflexivity|];
     right; eexists; reflexivity].
  destruct (fits_int (get (k_context settings) 2048%Z)) eqn:Hc;
    [rewrite (then_spin_fits "context") by exact Hc
    |rewrite (then_spin_overflow "context") by exact Hc; split; [reflexivity|];
     right; eexists; reflexivity].
  destruct (fits_int (get (k_ngl settings) 33%Z)) eqn:Hn;
    [rewrite (then_spin_fits "ngl") by exact Hn
    |rewrite (then_spin_overflow "ngl") by exact Hn; split; [reflexivity|];
     right; eexists; reflexivity].
  destruct (fits_int (get (k_threads settings) 8%Z)) eqn:Ht;
    [rewrite (then_spin_fits "threads") by exact Ht
    |rewrite (then_spin_overflow "threads") by exact Ht; split; [reflexivity|];
     right; eexists; reflexivity].
  destruct (fits_int (get (k_batch settings) 512%Z)) eqn:Hb;
    [rewrite (then_spin_fits "batch") by exact Hb
    |rewrite (then_spin_overflow "batch") by exact Hb; split; [reflexivity|];
     right; eexists; reflexivity].
  rewrite !(then_quiet (set_fields _)) by reflexivity.
  rewrite (then_quiet (set_auto_start _)) by reflexivity.
  split; [reflexivity | left; reflexivity].
Qed.

Lemma in_range_all_fit (ui : Widgets) :
  in_range (fields ui) -> all_fit (get_current_settings ui) = true.
Proof.
  intros (Hp & Hc & Hn & Ht & Hb). unfold all_fit; cbn [get_current_settings
    k_port k_context k_ngl k_threads k_batch get].
  rewrite (fits_int_between 1 65535) by (lia || assumption).
  rewrite (fits_int_between 128 1048576) by (lia || assumption).
  rewrite (fits_int_between (-1) 999) by (lia || assumption).
  rewrite (fits_int_between 1 256) by (lia || assumption).
  rewrite (fits_int_between 1 2048) by (lia || assumption).
  reflexivity.
Qed.

(** Values in range pass through the spin boxes unchanged. *)
Lemma apply_own_settings (ui : Widgets) (win : Window) :
  in_range (fields ui) ->
  widgets (fst (apply_settings (get_current_settings ui) win)) = ui
  /\ config (fst (apply_settings (get_current_settings ui) win)) = config win.
Proof.
  intro Hr. rewrite apply_settings_fits by (apply in_range_all_fit, Hr).
  destruct Hr as (Hp & Hc & Hn & Ht & Hb).
  destruct ui as [[bp mp host port ctx ngl thr bat extra] auto].
  cbn in *. rewrite !setValue_in_range by assumption.
  split; reflexivity.
Qed.

(** X11: reading the widgets into a profile and applying that profile gives
    the widgets back, whatever they showed in between, as long as the values
    of the spin boxes are in the ranges the boxes have. *)
Theorem apply_get_round_trip (ui : Widgets) (win : Window) :
  in_range (fields ui) ->
  widgets (fst (apply_settings (get_current_settings ui) win)) = ui
  /\ config (fst (apply_settings (get_current_settings ui) win)) = config win.
Proof. exact (apply_own_settings ui win). Qed.

Lemma apply_get_round_trip_witness :
  widgets (fst (apply_settings (get_current_settings widgets_sample)
                  window_sample)) = widgets_sample
  /\ config (fst (apply_settings (get_current_settings widgets_sample)
                    window_sample)) = config window_sample.
Proof.
  apply (apply_get_round_trip widgets_sample window_sample).
  unfold in_range; simpl; lia.
Defined.

(** X12: applying a profile whose numbers are C integers raises nothing and
    sets every spin box from the profile alone: to the value the profile
    gives (the default 8080, 2048, 33, 8, 512 where it gives none) when that
    is inside the range of the box, and to the nearest bound of the range
    when it is outside.  So every box ends inside its range, the widgets do
    not depend on what they showed before, and the configuration is left
    alone. *)
Theorem apply_settings_in_range (settings : Settings) (win win' : Window) :
  all_fit settings = true ->
  let f := fields (widgets (fst (apply_settings settings win))) in
  raised (snd (apply_settings settings win)) = false
  /\ port_spin f = nearest 1 65535 (get (k_port settings) 8080%Z)
  /\ context_spin f = nearest 128 1048576 (get (k_context settings) 2048%Z)
  /\ ngl_spin f = nearest (-1) 999 (get (k_ngl settings) 33%Z)
  /\ threads_spin f = nearest 1 256 (get (k_threads settings) 8%Z)
  /\ batch_spin f = nearest 1 2048 (get (k_batch settings) 512%Z)
  /\ auto_start_checkbox (widgets (fst (apply_settings settings win)))
     = get (k_auto_start settings) false
  /\ in_range f
  /\ widgets (fst (apply_settings settings win))
     = widgets (fst (apply_settings settings win'))
  /\ config (fst (apply_settings settings win)) = config win.
Proof.
  intro Hfit. cbv zeta. rewrite !apply_settings_fits by exact Hfit.
  cbn [fst snd applied widgets fields config port_spin context_spin ngl_spin
       threads_spin batch_spin auto_start_checkbox].
  split; [reflexivity|].
  repeat (split; [apply setValue_nearest; lia|]).
  split; [reflexivity|].
  split; [|split; reflexivity].
  unfold in_range; cbn.
  repeat split; apply setValue_bounds; lia.
Qed.

Lemma apply_settings_in_range_witness :
  let settings :=
    {| k_binary_path := None; k_model_path := None; k_host := None;
       k_port := Some 70000%Z; k_context := Some 5%Z; k_ngl := None;
       k_threads := Some (-3)%Z; k_batch := Some 2147483647%Z;
       k_additional_args := None; k_auto_start := None |} in
  let f := fields (widgets (fst (apply_settings settings window_sample))) in
  raised (snd (apply_settings settings window_sample)) = false
  /\ port_spin f = nearest 1 65535 (get (k_port settings) 8080%Z)
  /\ context_spin f = nearest 128 1048576 (get (k_context settings) 2048%Z)
  /\ ngl_spin f = nearest (-1) 999 (get (k_ngl settings) 33%Z)
  /\ threads_spin f = nearest 1 256 (get (k_threads settings) 8%Z)
  /\ batch_spin f = nearest 1 2048 (get (k_batch settings) 512%Z)
  /\ auto_start_checkbox
       (widgets (fst (apply_settings settings window_sample)))
     = get (k_auto_start settings) false
  /\ in_range f
  /\ widgets (fst (apply_settings settings window_sample))
     = widgets (fst (apply_settings settings window_huge_context))
  /\ config (fst (apply_settings settings window_sample))
     = config window_sample.
Proof.
  intro settings.
  apply (apply_settings_in_range settings window_sample window_huge_context).
  reflexivity.
Defined.

(** The window and the effects of a save that is confirmed. *)
Lemma save_current_profile_eq (disk : Disk) (profile_name : string)
    (win : Window) :
  Py.is_empty profile_name = false ->
  let w1 := {| widgets := widgets win;
               config := {| profiles := dict_set profile_name
                                          (get_current_settings (widgets win))
                                          (profiles (config win));
                            last_profile := Some profile_name |} |} in
  save_current_profile disk profile_name true win
  = (w1,
     [ Log ("Saving profile '" ++ profile_name ++ "' with settings:" ++ Py.nl);
       Log ("  Binary: " ++ binary_path_edit (fields (widgets win)) ++ Py.nl);
       Log ("  Model: " ++ model_path_edit (fields (widgets win)) ++ Py.nl);
       Log ("  Port: " ++ Py.str (port_spin (fields (widgets win)))
            ++ ", Context: " ++ Py.str (context_spin (fields (widgets win)))
            ++ ", NGL: " ++ Py.str (ngl_spin (fields (widgets win)))
            ++ Py.nl) ]
     ++ snd (save_config disk w1)
     ++ [ Log ("Profile '" ++ profile_name ++ "' saved successfully"
               ++ Py.nl) ]).
Proof.
  intro Hne. cbv zeta. unfold save_current_profile. rewrite Hne.
  cbn [andb negb]. rewrite !then_log.
  rewrite then_quiet by reflexivity. cbn [set_config fst].
  rewrite then_save_config. reflexivity.
Qed.

(** The configuration after a save that is confirmed. *)
Lemma save_current_profile_config (disk : Disk)
    (profile_name : string) (win : Window) :
  Py.is_empty profile_name = false ->
  fst (save_current_profile disk profile_name true win)
  = {| widgets := widgets win;
       config := {| profiles := dict_set profile_name
                                  (get_current_settings (widgets win))
                                  (profiles (config win));
                    last_profile := Some profile_name |} |}.
Proof.
  intro Hne. rewrite (save_current_profile_eq disk profile_name win Hne).
  reflexivity.
Qed.

(** The window and the effects of a load of a profile that is there. *)
Lemma load_profile_eq (disk : Disk) (profile_name : string)
    (settings : Settings) (win : Window) :
  Py.is_empty profile_name = false ->
  dict_get profile_name (profiles (config win)) = Some settings ->
  let logs :=
    [ Log ("Loading profile '" ++ profile_name ++ "' with settings:" ++ Py.nl);
      Log ("  Binary: " ++ shown (k_binary_path settings) ++ Py.nl);
      Log ("  Model: " ++ shown (k_model_path settings) ++ Py.nl);
      Log ("  Port: " ++ shown_int (k_port settings)
           ++ ", Context: " ++ shown_int (k_context settings)
           ++ ", NGL: " ++ shown_int (k_ngl settings) ++ Py.nl) ] in
  let r := apply_settings settings win in
  let w2 := {| widgets := widgets (fst r);
               config := {| profiles := profiles (config win);
                            last_profile := Some profile_name |} |} in
  load_profile disk profile_name win
  = if raised (snd r) then (fst r, logs ++ snd r)
    else (w2, logs ++ snd r ++ snd (save_config disk w2)
                ++ [ Log ("Profile '" ++ profile_name
                          ++ "' loaded successfully" ++ Py.nl) ]).
Proof.
  intros Hne Hget. cbv zeta. unfold load_profile. rewrite Hne, Hget.
  cbn [negb]. rewrite !then_log. rewrite then_cases.
  destruct (apply_settings_out settings win) as [Hc _].
  destruct (raised (snd (apply_settings settings win))); cbn [fst snd].
  - destruct (apply_settings settings win); reflexivity.
  - rewrite then_quiet by reflexivity. cbn [set_config fst].
    rewrite then_save_config. cbn [say fst snd]. rewrite Hc. reflexivity.
Qed.

(** The window after a load of a profile that is there and whose numbers are
    C integers. *)
Lemma load_profile_config (disk : Disk) (profile_name : string)
    (settings : Settings) (win : Window) :
  Py.is_empty profile_name = false ->
  dict_get profile_name (profiles (config win)) = Some settings ->
  all_fit settings = true ->
  fst (load_profile disk profile_name win)
  = {| widgets := widgets (fst (apply_settings settings win));
       config := {| profiles := profiles (config win);
                    last_profile := Some profile_name |} |}.
Proof.
  intros Hne Hget Hfit.
  rewrite (load_profile_eq disk profile_name settings win Hne Hget).
  rewrite apply_settings_fits by exact Hfit. reflexivity.
Qed.

(** X13: a profile saved under a name and loaded again under that name
    restores the widgets as they were at the save, whatever the operator
    typed in between and whether or not the disk took the writes; the name
    is then the last profile, and the profile stored is the one read from the
    widgets at the save. *)
Theorem save_then_load (disk1 disk2 : Disk) (profile_name : string)
    (edited : Widgets) (win : Window) :
  Py.is_empty profile_name = false ->
  in_range (fields (widgets win)) ->
  let w1 := fst (save_current_profile disk1 profile_name true win) in
  let w2 := fst (handle (Edit edited) w1) in
  let w3 := fst (load_profile disk2 profile_name w2) in
  widgets w3 = widgets win
  /\ last_profile (config w3) = Some profile_name
  /\ dict_get profile_name (profiles (config w3))
     = Some (get_current_settings (widgets win)).
Proof.
  intros Hne Hr. cbv zeta.
  rewrite save_current_profile_config by exact Hne. cbn [handle fst config].
  rewrite (load_profile_config disk2 profile_name
             (get_current_settings (widgets win)));
    [ | exact Hne | apply dict_get_set_same | apply in_range_all_fit, Hr ].
  cbn [widgets config profiles last_profile].
  destruct (apply_own_settings (widgets win)
              {| widgets := edited;
                 config := {| profiles :=
                                dict_set profile_name
                                  (get_current_settings (widgets win))
                                  (profiles (config win));
                              last_profile := Some profile_name |} |} Hr)
    as (Hw & Hc).
  rewrite Hw. rewrite dict_get_set_same. repeat split; reflexivity.
Qed.

Lemma save_then_load_witness :
  let w1 := fst (save_current_profile Accepts "gpu" true window_sample) in
  let w2 := fst (handle (Edit widgets_blank) w1) in
  let w3 := fst (load_profile (RefusesWrite "disk full") "gpu" w2) in
  widgets w3 = widgets window_sample
  /\ last_profile (config w3) = Some "gpu"
  /\ dict_get "gpu" (profiles (config w3))
     = Some (get_current_settings (widgets window_sample)).
Proof.
  apply (save_then_load Accepts (RefusesWrite "disk full") "gpu" widgets_blank
           window_sample); [reflexivity|].
  unfold in_range; simpl; lia.
Defined.

(** X14: a save under a name touches no other profile: every other name
    still leads to the profile it led to; the number of profiles is the same
    when the name was there already (its profile is replaced) and one more
    when it was not; and the widgets are as before. *)
Theorem save_keeps_other_profiles (disk : Disk)
    (profile_name other : string) (win : Window) :
  Py.is_empty profile_name = false ->
  other <> profile_name ->
  let w1 := fst (save_current_profile disk profile_name true win) in
  dict_get other (profiles (config w1))
  = dict_get other (profiles (config win))
  /\ List.length (profiles (config w1))
     = (if dict_in profile_name (profiles (config win))
        then List.length (profiles (config win))
        else S (List.length (profiles (config win))))
  /\ widgets w1 = widgets win.
Proof.
  intros Hne Ho. cbv zeta. rewrite save_current_profile_config by exact Hne.
  cbn [config profiles widgets].
  rewrite dict_get_set_other by exact Ho. rewrite length_dict_set.
  repeat split; reflexivity.
Qed.

Lemma save_keeps_other_profiles_witness :
  let w1 := fst (save_current_profile Accepts "gpu" true window_sample) in
  dict_get "cpu" (profiles (config w1))
  = dict_get "cpu" (profiles (config window_sample))
  /\ List.length (profiles (config w1))
     = (if dict_in "gpu" (profiles (config window_sample))
        then List.length (profiles (config window_sample))
        else S (List.length (profiles (config window_sample))))
  /\ widgets w1 = widgets window_sample.
Proof.
  apply (save_keeps_other_profiles Accepts "gpu" "cpu" window_sample);
    [reflexivity | discriminate].
Defined.

(** The window and the effects of a confirmed deletion of a profile that is
    there. *)
Lemma delete_profile_eq (disk : Disk) (profile_name : string)
    (win : Window) :
  Py.is_empty profile_name = false ->
  dict_in profile_name (profiles (config win)) = true ->
  let w1 :=
    {| widgets := widgets win;
       config :=
         {| profiles :=
              filter (fun kv => negb (String.eqb profile_name (fst kv)))
                (profiles (config win));
            last_profile :=
              match last_profile (config win) with
              | Some last =>
                  if String.eqb last profile_name then None else Some last
              | None => None
              end |} |} in
  delete_profile disk profile_name true win
  = (w1, Ask "Delete Profile"
           ("Are you sure you want to delete profile '"
            ++ profile_name ++ "'?") :: snd (save_config disk w1)).
Proof.
  intros Hne Hin. cbv zeta. unfold delete_profile, dict_del. rewrite Hne.
  rewrite then_ask. rewrite Hin.
  rewrite then_quiet by reflexivity. cbn [set_config fst].
  rewrite save_config_window. reflexivity.
Qed.

Lemma delete_profile_config (disk : Disk) (profile_name : string)
    (win : Window) :
  Py.is_empty profile_name = false ->
  dict_in profile_name (profiles (config win)) = true ->
  fst (delete_profile disk profile_name true win)
  = {| widgets := widgets win;
       config :=
         {| profiles :=
              filter (fun kv => negb (String.eqb profile_name (fst kv)))
                (profiles (config win));
            last_profile :=
              match last_profile (config win) with
              | Some last =>
                  if String.eqb last profile_name then None else Some last
              | None => None
              end |} |}.
Proof.
  intros Hne Hin. rewrite (delete_profile_eq disk profile_name win Hne Hin).
  reflexivity.
Qed.

(** A deletion that is asked for and not confirmed. *)
Lemma delete_profile_declined (disk : Disk) (profile_name : string)
    (win : Window) :
  Py.is_empty profile_name = false ->
  delete_profile disk profile_name false win
  = (win, [Ask "Delete Profile"
             ("Are you sure you want to delete profile '"
              ++ profile_name ++ "'?")]).
Proof.
  intro Hne. unfold delete_profile. rewrite Hne. rewrite then_ask.
  reflexivity.
Qed.

(** A deletion of a profile that is not there. *)
Lemma delete_profile_missing (disk : Disk) (profile_name : string)
    (win : Window) :
  Py.is_empty profile_name = false ->
  dict_in profile_name (profiles (config win)) = false ->
  delete_profile disk profile_name true win
  = (win, [Ask "Delete Profile"
             ("Are you sure you want to delete profile '"
              ++ profile_name ++ "'?");
           KeyError profile_name]).
Proof.
  intros Hne Hin. unfold delete_profile, dict_del. rewrite Hne.
  rewrite then_ask. rewrite Hin. reflexivity.
Qed.

(** X15: a confirmed deletion of a profile that is there removes that name
    and no other (every other name still leads to its profile), clears the
    pointer to the last profile when it pointed to that name and leaves it
    otherwise, and does not touch the widgets; raising nothing.  With the
    answer "No" nothing changes and nothing is written. *)
Theorem delete_removes_only_that_profile (disk : Disk)
    (profile_name other : string) (win : Window) :
  Py.is_empty profile_name = false ->
  dict_in profile_name (profiles (config win)) = true ->
  other <> profile_name ->
  let w1 := fst (delete_profile disk profile_name true win) in
  dict_in profile_name (profiles (config w1)) = false
  /\ dict_get other (profiles (config w1))
     = dict_get other (profiles (config win))
  /\ last_profile (config w1)
     = match last_profile (config win) with
       | Some last => if String.eqb last profile_name then None else Some last
       | None => None
       end
  /\ widgets w1 = widgets win
  /\ ~ In (KeyError profile_name)
          (snd (delete_profile disk profile_name true win))
  /\ delete_profile disk profile_name false win
     = (win, [Ask "Delete Profile"
                ("Are you sure you want to delete profile '"
                 ++ profile_name ++ "'?")]).
Proof.
  intros Hne Hin Ho. cbv zeta.
  rewrite delete_profile_config by assumption.
  cbn [config profiles widgets last_profile].
  unfold dict_in at 1. rewrite dict_get_filter_same.
  rewrite dict_get_filter_other by exact Ho.
  repeat split; try reflexivity.
  - rewrite (delete_profile_eq disk profile_name win Hne Hin).
    destruct disk; simpl; intro H;
      repeat (destruct H as [H|H]; [discriminate|]); exact H.
  - apply delete_profile_declined, Hne.
Qed.

Lemma delete_removes_only_that_profile_witness :
  let w1 := fst (delete_profile Accepts "cpu" true window_sample) in
  dict_in "cpu" (profiles (config w1)) = false
  /\ dict_get "gpu" (profiles (config w1))
     = dict_get "gpu" (profiles (config window_sample))
  /\ last_profile (config w1)
     = match last_profile (config window_sample) with
       | Some last => if String.eqb last "cpu" then None else Some last
       | None => None
       end
  /\ widgets w1 = widgets window_sample
  /\ ~ In (KeyError "cpu")
          (snd (delete_profile Accepts "cpu" true window_sample))
  /\ delete_profile Accepts "cpu" false window_sample
     = (window_sample,
        [Ask "Delete Profile"
           ("Are you sure you want to delete profile '" ++ "cpu" ++ "'?")]).
Proof.
  apply (delete_removes_only_that_profile Accepts "cpu" "gpu" window_sample);
    [reflexivity | reflexivity | discriminate].
Defined.

(** A load of a name that is empty or leads to no profile does nothing. *)
Lemma load_profile_unknown (disk : Disk) (profile_name : string)
    (win : Window) :
  dict_in profile_name (profiles (config win)) = false ->
  load_profile disk profile_name win = (win, []).
Proof.
  unfold dict_in, load_profile. intro H.
  destruct (Py.is_empty profile_name); [reflexivity|]. cbn [negb].
  destruct (dict_get profile_name (profiles (config win)));
    [discriminate | reflexivity].
Qed.

Lemma load_profile_known (disk : Disk) (profile_name : string)
    (win : Window) :
  last_profile_known (config win) ->
  last_profile_known (config (fst (load_profile disk profile_name win))).
Proof.
  intro Hk.
  destruct (Py.is_empty profile_name) eqn:Hne.
  - unfold load_profile. rewrite Hne. exact Hk.
  - destruct (dict_get profile_name (profiles (config win))) as [st|] eqn:Hget.
    + rewrite (load_profile_eq disk profile_name st win Hne Hget).
      destruct (apply_settings_out st win) as [Hc _].
      destruct (raised (snd (apply_settings st win))); cbn [fst].
      * rewrite Hc. exact Hk.
      * unfold last_profile_known, dict_in; cbn. rewrite Hget. reflexivity.
    + rewrite load_profile_unknown; [exact Hk|].
      unfold dict_in. rewrite Hget. reflexivity.
Qed.

Lemma handle_known (ev : ProfileEvent) (win : Window) :
  last_profile_known (config win) ->
  last_profile_known (config (fst (handle ev win))).
Proof.
  intro Hk. destruct ev as [disk n ok|disk n|disk n|disk n yes|ui];
    cbn [handle].
  - destruct ok; [|exact Hk].
    destruct (Py.is_empty n) eqn:Hne.
    + unfold save_current_profile. rewrite Hne. exact Hk.
    + rewrite save_current_profile_config by exact Hne.
      unfold last_profile_known, dict_in; cbn.
      rewrite dict_get_set_same. reflexivity.
  - unfold on_profile_selected.
    destruct (negb (Py.is_empty n) && dict_in n (profiles (config win)));
      [|exact Hk].
    rewrite then_log. cbn [fst]. apply load_profile_known, Hk.
  - unfold load_selected_profile.
    destruct (Py.is_empty n); [exact Hk|].
    destruct (negb (dict_in n (profiles (config win)))); [exact Hk|].
    rewrite then_log. cbn [fst]. apply load_profile_known, Hk.
  - destruct (Py.is_empty n) eqn:Hne.
    + unfold delete_profile. rewrite Hne. exact Hk.
    + destruct yes.
      * destruct (dict_in n (profiles (config win))) eqn:Hin.
        -- rewrite delete_profile_config by assumption.
           unfold last_profile_known in *; cbn.
           destruct (last_profile (config win)) as [last|]; [|exact I].
           destruct (String.eqb last n) eqn:E; [exact I|].
           unfold dict_in in *.
           rewrite dict_get_filter_other; [exact Hk|].
           apply String.eqb_neq; exact E.
        -- rewrite delete_profile_missing by assumption. exact Hk.
      * rewrite delete_profile_declined by assumption. exact Hk.
  - exact Hk.
Qed.

(** X16: the pointer to the last profile never dangles.  If it is unset or
    names a stored profile, it still is or does after any session of saves,
    selections, loads, deletions and edits, whatever the dialogs return and
    whether or not the disk takes the writes. *)
Theorem last_profile_never_dangles (events : list ProfileEvent)
    (win : Window) :
  last_profile_known (config win) ->
  last_profile_known (config (fst (run events win))).
Proof.
  revert win. induction events as [|ev rest IH]; intros win Hk; [exact Hk|].
  cbn [run]. pose proof (handle_known ev win Hk) as H1.
  destruct (handle ev win) as [w1 o1]. cbn [fst] in H1.
  pose proof (IH w1 H1) as H2.
  destruct (run rest w1) as [w2 o2]. exact H2.
Qed.

Lemma last_profile_never_dangles_witness :
  last_profile_known
    (config (fst (run [ Save Accepts "gpu" true; Delete Accepts "cpu" true;
                        Select (RefusesWrite "disk full") "gpu";
                        Delete Accepts "gpu" true ]
                    window_sample))).
Proof.
  apply (last_profile_never_dangles
           [ Save Accepts "gpu" true; Delete Accepts "cpu" true;
             Select (RefusesWrite "disk full") "gpu";
             Delete Accepts "gpu" true ]
           window_sample).
  reflexivity.
Defined.

(** X17: asking for a profile that is not stored (or with no name) changes
    nothing and writes nothing: [load_profile] and the selection in the combo
    box do nothing at all, and the Load button shows one warning. *)
Theorem unknown_profile_is_not_loaded (disk : Disk)
    (profile_name : string) (win : Window) :
  dict_in profile_name (profiles (config win)) = false ->
  load_profile disk profile_name win = (win, [])
  /\ on_profile_selected disk profile_name win = (win, [])
  /\ load_selected_profile disk profile_name win
     = (win,
        [ if Py.is_empty profile_name
          then Warn "No Profile Selected" "Please select a profile to load"
          else Warn "Profile Not Found"
                 ("Profile '" ++ profile_name ++ "' not found") ]).
Proof.
  intro Hin. split; [apply load_profile_unknown; exact Hin|]. split.
  - unfold on_profile_selected. rewrite Hin, andb_false_r. reflexivity.
  - unfold load_selected_profile. rewrite Hin.
    destruct (Py.is_empty profile_name); reflexivity.
Qed.

Lemma unknown_profile_is_not_loaded_witness :
  load_profile Accepts "gpu" window_sample = (window_sample, [])
  /\ on_profile_selected Accepts "gpu" window_sample = (window_sample, [])
  /\ load_selected_profile Accepts "gpu" window_sample
     = (window_sample,
        [ if Py.is_empty "gpu"
          then Warn "No Profile Selected" "Please select a profile to load"
          else Warn "Profile Not Found" ("Profile '" ++ "gpu" ++ "' not found") ]).
Proof.
  apply (unknown_profile_is_not_loaded Accepts "gpu" window_sample).
  reflexivity.
Defined.

(** What [save_config] writes is the configuration of the window. *)
Lemma save_config_dump (disk : Disk) (win : Window) (c : ConfigDict) :
  In (Dumped c) (snd (save_config disk win)) ->
  c = config win /\ disk = Accepts.
Proof.
  destruct disk; simpl; intro H;
    repeat (destruct H as [H|H]; [try discriminate|]); try contradiction.
  inversion H; split; reflexivity.
Qed.

(** [apply_settings] writes nothing to the disk. *)
Lemma apply_settings_no_file (settings : Settings) (win : Window)
    (o : Out) :
  In o (snd (apply_settings settings win)) ->
  is_dump o = false /\ is_open o = false.
Proof.
  destruct (apply_settings_out settings win) as [_ [H|[key H]]];
    rewrite H; intros [E|[E|[]]]; subst o; split; reflexivity.
Qed.

(** The effects of [load_profile] but for those of [save_config] are log
    lines and exceptions. *)
Lemma load_profile_dump (disk : Disk) (profile_name : string)
    (win : Window) (c : ConfigDict) :
  In (Dumped c) (snd (load_profile disk profile_name win)) ->
  c = config (fst (load_profile disk profile_name win)) /\ disk = Accepts.
Proof.
  destruct (Py.is_empty profile_name) eqn:Hne.
  - unfold load_profile. rewrite Hne. intros [].
  - destruct (dict_get profile_name (profiles (config win))) as [st|] eqn:Hget.
    + rewrite (load_profile_eq disk profile_name st win Hne Hget).
      destruct (raised (snd (apply_settings st win))); cbn [fst snd].
      * intro H. apply in_app_or in H. destruct H as [H|H].
        -- repeat (destruct H as [H|H]; [discriminate|]). contradiction.
        -- apply apply_settings_no_file in H. destruct H; discriminate.
      * intro H. apply in_app_or in H. destruct H as [H|H].
        { repeat (destruct H as [H|H]; [discriminate|]). contradiction. }
        apply in_app_or in H. destruct H as [H|H].
        { apply apply_settings_no_file in H. destruct H; discriminate. }
        apply in_app_or in H. destruct H as [H|[H|[]]]; [|discriminate].
        apply save_config_dump in H. exact H.
    + rewrite load_profile_unknown; [intros []|].
      unfold dict_in. rewrite Hget. reflexivity.
Qed.

(** X18: whenever a profile handler writes the configuration file, what it
    writes is the configuration the window holds when the handler returns:
    the file and the memory agree after every write. *)
Theorem dump_is_current_config (ev : ProfileEvent) (win : Window)
    (c : ConfigDict) :
  In (Dumped c) (snd (handle ev win)) ->
  c = config (fst (handle ev win)).
Proof.
  destruct ev as [disk n ok|disk n|disk n|disk n yes|ui]; cbn [handle].
  - destruct ok; [|intros []].
    destruct (Py.is_empty n) eqn:Hne.
    + unfold save_current_profile. rewrite Hne. intros [].
    + rewrite (save_current_profile_eq disk n win Hne). cbn [fst snd].
      intro H. apply in_app_or in H. destruct H as [H|H].
      { repeat (destruct H as [H|H]; [discriminate|]). contradiction. }
      apply in_app_or in H. destruct H as [H|[H|[]]]; [|discriminate].
      apply save_config_dump in H. apply H.
  - unfold on_profile_selected.
    destruct (negb (Py.is_empty n) && dict_in n (profiles (config win)));
      [|intros []].
    rewrite then_log. cbn [fst snd].
    intros [H|H]; [discriminate|]. apply load_profile_dump in H. apply H.
  - unfold load_selected_profile.
    destruct (Py.is_empty n); [intros [H|[]]; discriminate|].
    destruct (negb (dict_in n (profiles (config win))));
      [intros [H|[]]; discriminate|].
    rewrite then_log. cbn [fst snd].
    intros [H|H]; [discriminate|]. apply load_profile_dump in H. apply H.
  - destruct (Py.is_empty n) eqn:Hne.
    + unfold delete_profile. rewrite Hne. intros [].
    + destruct yes.
      * destruct (dict_in n (profiles (config win))) eqn:Hin.
        -- rewrite (delete_profile_eq disk n win Hne Hin). cbn [fst snd].
           intros [H|H]; [discriminate|].
           apply save_config_dump in H. apply H.
        -- rewrite delete_profile_missing by assumption.
           intros [H|[H|[]]]; discriminate.
      * rewrite delete_profile_declined by assumption.
        intros [H|[]]; discriminate.
  - intros [].
Qed.

Lemma dump_is_current_config_witness :
  {| profiles := dict_set "gpu" (get_current_settings widgets_sample)
                   (profiles (config window_sample));
     last_profile := Some "gpu" |}
  = config (fst (handle (Save Accepts "gpu" true) window_sample)).
Proof.
  apply (dump_is_current_config (Save Accepts "gpu" true) window_sample).
  simpl. auto 10.
Defined.

Lemma no_file_app (a b : list Out) :
  no_file a -> no_file b -> no_file (a ++ b).
Proof.
  unfold no_file. intros [Ha1 Ha2] [Hb1 Hb2].
  rewrite !existsb_app, Ha1, Ha2, Hb1, Hb2. split; reflexivity.
Qed.

Lemma apply_settings_writes_nothing (settings : Settings) (win : Window) :
  no_file (snd (apply_settings settings win)).
Proof.
  destruct (apply_settings_out settings win) as [_ [H|[key H]]];
    rewrite H; split; reflexivity.
Qed.

Lemma load_profile_shape (profile_name : string) (win : Window) :
  exists (w w' : Window) (pre post : list Out) (b : bool),
    (forall disk,
       load_profile disk profile_name win
       = (w, pre ++ (if b then snd (save_config disk w') else []) ++ post))
    /\ no_file pre /\ no_file post.
Proof.
  destruct (Py.is_empty profile_name) eqn:Hne.
  { exists win, win, [], [], false. split; [|split; split; reflexivity].
    intro disk. unfold load_profile. rewrite Hne. reflexivity. }
  destruct (dict_get profile_name (profiles (config win))) as [st|] eqn:Hget.
  2:{ exists win, win, [], [], false. split; [|split; split; reflexivity].
      intro disk. apply load_profile_unknown. unfold dict_in.
      rewrite Hget. reflexivity. }
  pose proof (apply_settings_writes_nothing st win) as Hq.
  destruct (raised (snd (apply_settings st win))) eqn:Hr.
  - eexists _, win, _, [], false. split; [|split; [|split; reflexivity]].
    + intro disk.
      rewrite (load_profile_eq disk profile_name st win Hne Hget), Hr.
      cbn [app]. rewrite app_nil_r. reflexivity.
    + destruct Hq as [H1 H2]. split; cbn; assumption.
  - eexists _, _, _, _, true. split; [|split].
    + intro disk.
      rewrite (load_profile_eq disk profile_name st win Hne Hget), Hr.
      rewrite app_assoc. reflexivity.
    + destruct Hq as [H1 H2]. split; cbn; assumption.
    + split; reflexivity.
Qed.

(** Every profile handler is a window, some effects that write nothing, at
    most one [save_config], and some more effects that write nothing; the
    fate of the write changes the effects of [save_config] only. *)
Lemma handle_shape (ev : ProfileEvent) (win : Window) :
  exists (w w' : Window) (pre post : list Out) (b : bool),
    (forall disk,
       handle (with_disk disk ev) win
       = (w, pre ++ (if b then snd (save_config disk w') else []) ++ post))
    /\ no_file pre /\ no_file post.
Proof.
  destruct ev as [d n ok|d n|d n|d n yes|ui]; cbn [with_disk handle].
  - destruct (ok && negb (Py.is_empty n)) eqn:E.
    + apply andb_prop in E. destruct E as [Hok Hne]. subst ok.
      apply negb_true_iff in Hne.
      eexists _, _, _, _, true. split; [|split].
      * intro disk. rewrite (save_current_profile_eq disk n win Hne).
        reflexivity.
      * split; reflexivity.
      * split; reflexivity.
    + exists win, win, [], [], false. split; [|split; split; reflexivity].
      intro disk. unfold save_current_profile. rewrite E. reflexivity.
  - unfold on_profile_selected.
    destruct (negb (Py.is_empty n) && dict_in n (profiles (config win))).
    + destruct (load_profile_shape n win)
        as (w & w' & pre & post & b & Heq & Hpre & Hpost).
      exists w, w', (Log ("Auto-loading profile '" ++ n ++ "'..." ++ Py.nl)
                     :: pre), post, b.
      split; [|split; [|exact Hpost]].
      * intro disk. rewrite then_log, Heq. reflexivity.
      * destruct Hpre as [H1 H2]. split; cbn; assumption.
    + exists win, win, [], [], false. split; [|split; split; reflexivity].
      reflexivity.
  - unfold load_selected_profile.
    destruct (Py.is_empty n).
    { exists win, win,
        [Warn "No Profile Selected" "Please select a profile to load"],
        [], false.
      split; [|split; split; reflexivity]. reflexivity. }
    destruct (negb (dict_in n (profiles (config win)))).
    { exists win, win,
        [Warn "Profile Not Found" ("Profile '" ++ n ++ "' not found")],
        [], false.
      split; [|split; split; reflexivity]. reflexivity. }
    destruct (load_profile_shape n win)
      as (w & w' & pre & post & b & Heq & Hpre & Hpost).
    exists w, w', (Log ("Manually loading profile '" ++ n ++ "'..." ++ Py.nl)
                   :: pre), post, b.
    split; [|split; [|exact Hpost]].
    + intro disk. rewrite then_log, Heq. reflexivity.
    + destruct Hpre as [H1 H2]. split; cbn; assumption.
  - destruct (Py.is_empty n) eqn:Hne.
    { exists win, win, [], [], false. split; [|split; split; reflexivity].
      intro disk. unfold delete_profile. rewrite Hne. reflexivity. }
    destruct yes.
    + destruct (dict_in n (profiles (config win))) eqn:Hin.
      * eexists _, _, [Ask "Delete Profile"
                         ("Are you sure you want to delete profile '"
                          ++ n ++ "'?")], [], true.
        split; [|split; split; reflexivity].
        intro disk. rewrite (delete_profile_eq disk n win Hne Hin).
        rewrite app_nil_r. reflexivity.
      * exists win, win,
          [Ask "Delete Profile"
             ("Are you sure you want to delete profile '" ++ n ++ "'?");
           KeyError n], [], false.
        split; [|split; split; reflexivity].
        intro disk. rewrite delete_profile_missing by assumption.
        reflexivity.
    + exists win, win,
        [Ask "Delete Profile"
           ("Are you sure you want to delete profile '" ++ n ++ "'?")],
        [], false.
      split; [|split; split; reflexivity].
      intro disk. rewrite delete_profile_declined by assumption.
      reflexivity.
  - exists {| widgets := ui; config := config win |}, win, [], [], false.
    split; [|split; split; reflexivity]. reflexivity.
Qed.

(** X19: a write of the configuration file that fails is not fatal and not
    silent, and it can cost the file.  Whether [open] refuses or the write
    fails after [open], the handler leaves the window exactly as it does
    when the write goes through (the change is kept in memory), raises what
    it raises then and nothing more, and writes no configuration; where the
    write would have gone through, the error is logged.  When [open]
    refuses, the file is not touched; when the write fails after [open], the
    file has lost what it held wherever it would have been written. *)
Theorem refused_write_keeps_the_change (e : string) (ev : ProfileEvent)
    (win : Window) :
  let ok := handle (with_disk Accepts ev) win in
  let r1 := handle (with_disk (RefusesOpen e) ev) win in
  let r2 := handle (with_disk (RefusesWrite e) ev) win in
  (fst r1 = fst ok /\ fst r2 = fst ok)
  /\ (raised (snd r1) = raised (snd ok) /\ raised (snd r2) = raised (snd ok))
  /\ (existsb is_dump (snd r1) = false /\ existsb is_dump (snd r2) = false)
  /\ (existsb is_open (snd r1) = false
      /\ existsb is_open (snd r2) = existsb is_dump (snd ok))
  /\ (existsb is_dump (snd ok) = true ->
      In (Log ("Error saving config: " ++ e ++ Py.nl)) (snd r1)
      /\ In (Log ("Error saving config: " ++ e ++ Py.nl)) (snd r2)).
Proof.
  cbv zeta.
  destruct (handle_shape ev win)
    as (w & w' & pre & post & b & Heq & [Hd1 Ho1] & [Hd2 Ho2]).
  rewrite !Heq. cbn [fst snd]. unfold raised.
  rewrite !existsb_app, Hd1, Ho1, Hd2, Ho2.
  destruct b; cbn.
  - repeat split; try reflexivity.
    + apply in_or_app; right. right; left; reflexivity.
    + apply in_or_app; right. right; right; left; reflexivity.
  - repeat split; try reflexivity; discriminate.
Qed.

Lemma refused_write_keeps_the_change_witness :
  let ok := handle (with_disk Accepts (Save Accepts "gpu" true))
              window_sample in
  let r1 := handle (with_disk (RefusesOpen "read-only file system")
                      (Save Accepts "gpu" true)) window_sample in
  let r2 := handle (with_disk (RefusesWrite "read-only file system")
                      (Save Accepts "gpu" true)) window_sample in
  (fst r1 = fst ok /\ fst r2 = fst ok)
  /\ (raised (snd r1) = raised (snd ok) /\ raised (snd r2) = raised (snd ok))
  /\ (existsb is_dump (snd r1) = false /\ existsb is_dump (snd r2) = false)
  /\ (existsb is_open (snd r1) = false
      /\ existsb is_open (snd r2) = true)
  /\ In (Log ("Error saving config: " ++ "read-only file system" ++ Py.nl))
        (snd r1)
  /\ In (Log ("Error saving config: " ++ "read-only file system" ++ Py.nl))
        (snd r2).
Proof.
  destruct (refused_write_keeps_the_change "read-only file system"
              (Save Accepts "gpu" true) window_sample)
    as (H1 & H2 & H3 & H4 & H5).
  split; [exact H1|]. split; [exact H2|]. split; [exact H3|].
  split; [exact H4|]. apply H5. reflexivity.
Defined.

(** X22: a stored profile with a number that is no C integer cannot be
    loaded, and the attempt leaves the form half changed.  For a context size
    that does not fit: [load_profile] raises [OverflowError] out of the slot;
    the port already shows the profile, while the context size, the layers,
    the threads, the batch size, the additional arguments and the check box
    still show what they showed; the profile does not become the last
    profile, and nothing is written. *)
Theorem load_profile_overflow_leaves_form_half_set (disk : Disk)
    (profile_name : string) (settings : Settings) (win : Window) :
  Py.is_empty profile_name = false ->
  dict_get profile_name (profiles (config win)) = Some settings ->
  fits_int (get (k_port settings) 8080%Z) = true ->
  fits_int (get (k_context settings) 2048%Z) = false ->
  let r := load_profile disk profile_name win in
  let f := fields (widgets (fst r)) in
  let f0 := fields (widgets win) in
  In (OverflowError "context") (snd r)
  /\ port_spin f = nearest 1 65535 (get (k_port settings) 8080%Z)
  /\ (context_spin f = context_spin f0
      /\ ngl_spin f = ngl_spin f0
      /\ threads_spin f = threads_spin f0
      /\ batch_spin f = batch_spin f0
      /\ additional_args_edit f = additional_args_edit f0
      /\ auto_start_checkbox (widgets (fst r))
         = auto_start_checkbox (widgets win))
  /\ config (fst r) = config win
  /\ existsb is_open (snd r) = false
  /\ existsb is_dump (snd r) = false.
Proof.
  intros Hne Hget Hp Hc. cbv zeta.
  assert (Ha : apply_settings settings win
               = (fst (set_fields
                         (with_port (setValue 1 65535
                                       (get (k_port settings) 8080%Z)))
                      (fst (set_fields
                              (with_host (get (k_host settings) "127.0.0.1"))
                      (fst (set_fields
                              (with_model_path
                                 (get (k_model_path settings) ""))
                      (fst (set_fields
                              (with_binary_path
                                 (get (k_binary_path settings) ""))
                              win))))))),
                  [ Log ("Applying settings to UI fields..." ++ Py.nl);
                    OverflowError "context" ])).
  { unfold apply_settings. rewrite then_log.
    rewrite !(then_quiet (set_fields _)) by reflexivity.
    rewrite (then_spin_fits "port") by exact Hp.
    rewrite (then_spin_overflow "context") by exact Hc. reflexivity. }
  rewrite (load_profile_eq disk profile_name settings win Hne Hget).
  rewrite Ha. cbn [fst snd raised existsb is_raise orb].
  split; [apply in_or_app; right; right; left; reflexivity|].
  cbn. rewrite setValue_nearest by lia.
  repeat split; reflexivity.
Qed.

Lemma load_profile_overflow_leaves_form_half_set_witness :
  let r := load_profile Accepts "huge" window_huge_context in
  let f := fields (widgets (fst r)) in
  let f0 := fields (widgets window_huge_context) in
  In (OverflowError "context") (snd r)
  /\ port_spin f
     = nearest 1 65535 (get (k_port settings_huge_context) 8080%Z)
  /\ (context_spin f = context_spin f0
      /\ ngl_spin f = ngl_spin f0
      /\ threads_spin f = threads_spin f0
      /\ batch_spin f = batch_spin f0
      /\ additional_args_edit f = additional_args_edit f0
      /\ auto_start_checkbox (widgets (fst r))
         = auto_start_checkbox (widgets window_huge_context))
  /\ config (fst r) = config window_huge_context
  /\ existsb is_open (snd r) = false
  /\ existsb is_dump (snd r) = false.
Proof.
  apply (load_profile_overflow_leaves_form_half_set Accepts "huge"
           settings_huge_context window_huge_context); reflexivity.
Defined.

End ProfileFacts.

(** * More of the command line and of the signals *)

Lemma split_nothing (s : string) :
  Py.no_space s = "" -> Py.split s = [].
Proof.
  intro H. pose proof (PyFacts.flatten_split_from s "") as Hf.
  pose proof (PyFacts.split_from_tokens s "" eq_refl) as Ht.
  fold (Py.split s) in Hf, Ht. simpl in Hf. rewrite H in Hf.
  destruct (Py.split s) as [|t r]; [reflexivity|].
  inversion Ht as [|? ? [_ Hne] _]; subst.
  destruct t; [discriminate | simpl in Hf; discriminate].
Qed.

(** X20: when the field of additional arguments is empty or holds only
    whitespace, the command is the fifteen fixed elements and nothing more;
    and in every case the command has fifteen elements more than the field
    has tokens. *)
Theorem build_cmd_blank_extra (f : Form) :
  Py.no_space (additional_args_edit f) = "" ->
  build_cmd f =
    [ Py.strip (binary_path_edit f);
      "-m"; Py.strip (model_path_edit f);
      "--host"; host_edit f;
      "--port"; Py.str (port_spin f);
      "-c"; Py.str (context_spin f);
      "-ngl"; Py.str (ngl_spin f);
      "-t"; Py.str (threads_spin f);
      "-b"; Py.str (batch_spin f) ]
  /\ forall f', List.length (build_cmd f')
                = 15 + List.length (Py.split (additional_args_edit f')).
Proof.
  intro H. split.
  - unfold build_cmd.
    destruct (Py.is_empty (Py.strip (additional_args_edit f))); [reflexivity|].
    rewrite PyFacts.split_strip, (split_nothing _ H). apply app_nil_r.
  - intro f'. unfold build_cmd.
    destruct (Py.is_empty (Py.strip (additional_args_edit f'))) eqn:He.
    + apply PyFacts.is_empty_true in He.
      rewrite <- (PyFacts.split_strip (additional_args_edit f')), He.
      reflexivity.
    + rewrite PyFacts.split_strip, length_app. reflexivity.
Qed.

Lemma build_cmd_blank_extra_witness :
  build_cmd (form gui_running) =
    [ Py.strip (binary_path_edit (form gui_running));
      "-m"; Py.strip (model_path_edit (form gui_running));
      "--host"; host_edit (form gui_running);
      "--port"; Py.str (port_spin (form gui_running));
      "-c"; Py.str (context_spin (form gui_running));
      "-ngl"; Py.str (ngl_spin (form gui_running));
      "-t"; Py.str (threads_spin (form gui_running));
      "-b"; Py.str (batch_spin (form gui_running)) ]
  /\ forall f', List.length (build_cmd f')
                = 15 + List.length (Py.split (additional_args_edit f')).
Proof.
  apply (build_cmd_blank_extra (form gui_running)). reflexivity.
Defined.

(** X21: every signal that a handler sends goes to the process the window
    holds at that moment, and only while that process shows as running: no
    event makes the window signal a process it has released or one that has
    already exited.  A start, a timeout of the health timer and a delayed
    cleanup send no signal at all. *)
Theorem signals_go_to_the_live_process (w : World) (ev : UiEvent)
    (g : LlamaServerGUI) (e : Effect) :
  In e (signals (snd (dispatch w ev g))) ->
  exists p, (e = Terminate p \/ e = Kill p)
            /\ server_process g = Some p /\ poll w p = None
            /\ ev <> ClickStart /\ ev <> HealthTimeout /\ ev <> SingleShot.
Proof.
  destruct ev; cbn [dispatch].
  - destruct (start_server_quiet w g) as (_ & H). rewrite H. intros [].
  - unfold stop_server.
    destruct (server_process g) as [p|] eqn:Hp;
      [destruct (poll w p) eqn:Hc|];
      unfold andthen, emit, modify, pass, update_button_states.
    + cbn. intros [].
    + destruct (output_reader g) eqn:Hr; cbn; rewrite Hr; cbn;
        (intros [H|[]]; exists p; subst e;
         repeat split; auto; discriminate).
    + cbn. intros [].
  - destruct (active (health_check_timer g)); [|intros []].
    destruct (check_server_health_once w g) as (H & _). rewrite H. intros [].
  - destruct (active (stop_timer g)); [|intros []].
    unfold check_server_stopped.
    destruct (server_process g) as [p|] eqn:Hp; [|intros []].
    destruct (poll w p) eqn:Hc.
    + rewrite run_modify.
      destruct (cleanup_after_stop_spec w stopped_msg
                  (set_stop_timer (stopped (stop_timer g)) g))
        as (_ & H & _).
      rewrite H. intros [].
    + unfold andthen, modify, pass, emit; cbn -[Nat.leb].
      destruct (25 <=? stop_attempts g + 1)%nat; cbn; [|intros []].
      intros [H|[]]. exists p; subst e. repeat split; auto; discriminate.
  - unfold fire_single_shot.
    destruct (single_shots g) as [|message rest]; [intros []|].
    rewrite run_modify.
    destruct (cleanup_after_stop_spec w message (set_single_shots rest g))
      as (_ & H & _).
    rewrite H. intros [].
  - unfold quit_application. rewrite run_andthen. cbn [fst snd].
    destruct (server_process g) as [p|] eqn:Hp;
      [destruct (poll w p) eqn:Hc|];
      unfold andthen, emit, modify, pass.
    + cbn. intros [].
    + destruct (output_reader g) eqn:Hr; cbn; rewrite ?Hr; cbn;
        (intros [H|[]]; exists p; subst e;
         repeat split; auto; discriminate).
    + cbn. intros [].
  - unfold closeEvent.
    destruct (server_process g) as [p|] eqn:Hp;
      [destruct (poll w p) eqn:Hc|];
      unfold andthen, emit, modify, pass.
    + cbn. intros [].
    + destruct reply; cbn; try (intros []).
      destruct (output_reader g) eqn:Hr; cbn; rewrite ?Hr; cbn;
        (intros [H|[]]; exists p; subst e;
         repeat split; auto; discriminate).
    + cbn. intros [].
Qed.

Lemma signals_go_to_the_live_process_witness :
  exists p, (Terminate 4242 = Terminate p \/ Terminate 4242 = Kill p)
            /\ server_process gui_started = Some p
            /\ poll world_alive p = None
            /\ ClickStop <> ClickStart /\ ClickStop <> HealthTimeout
            /\ ClickStop <> SingleShot.
Proof.
  apply (signals_go_to_the_live_process world_alive ClickStop gui_started
           (Terminate 4242)).
  simpl. auto.
Defined.
